(** * dcrawl: crawler, Tailwind class generator and output-file naming

    A shallow embedding of [dcrawl/crawler.py], [dcrawl/generator.py] and
    [dcrawl/utils.py], with the properties of the design document stated
    and proved (or refuted) over it.

    Conventions of the embedding.
    - A Python [str] (and a JavaScript string) is a [string]; a character
      is a code point below 256, so the whitespace classes below are the
      restrictions of Python's [str.isspace] and of JavaScript's
      [String.prototype.trim] to that range.
    - A [dict] with string keys is a [gmap string _]; [d.get(k, v)] is
      [default v (d !! k)].
    - Exceptions are values: a call that may raise returns an [outcome].
      An exception derives from [Exception] or, like the cancellation of
      a task, from [BaseException] only; [except Exception] catches the
      former. Exceptions are raised by calls; an interrupt between two
      statements is outside the model.
    - The browser is explicit state threaded through [crawl]; the objects
      that the classifier shares and changes are a store threaded through
      [GeneratorRun].
    - A path is the list of its components below the working directory. *)

From Stdlib Require Import Ascii String QArith.
From stdpp Require Import gmap strings list pretty.

Local Open Scope string_scope.
Local Open Scope nat_scope.
Local Open Scope list_scope.

(* ===================================================================== *)
(** ** Python and JavaScript string primitives *)
(* ===================================================================== *)

Module PyStr.

(** [str.isspace] on one character (code points below 256). *)
Definition isspace (c : ascii) : bool :=
  let n := nat_of_ascii c in
  ((9 <=? n) && (n <=? 13)) || ((28 <=? n) && (n <=? 32))
  || (n =? 133) || (n =? 160).

(** [\d] of the [re] module on a [str] pattern (code points below 256). *)
Definition isdigit (c : ascii) : bool :=
  let n := nat_of_ascii c in (48 <=? n) && (n <=? 57).

(** [s.startswith(p)] *)
Fixpoint startswith (p s : string) : bool :=
  match p, s with
  | EmptyString, _ => true
  | String a p', String b s' => if decide (a = b) then startswith p' s' else false
  | String _ _, EmptyString => false
  end.

(** [sub in s] *)
Fixpoint contains (sub s : string) : bool :=
  startswith sub s ||
  match s with
  | EmptyString => false
  | String _ s' => contains sub s'
  end.

(** truthiness of a [str] *)
Definition truthy (s : string) : bool :=
  match s with EmptyString => false | String _ _ => true end.

Fixpoint lstrip_with (ws : ascii -> bool) (s : string) : string :=
  match s with
  | EmptyString => EmptyString
  | String c s' => if ws c then lstrip_with ws s' else s
  end.

Fixpoint rstrip_with (ws : ascii -> bool) (s : string) : string :=
  match s with
  | EmptyString => EmptyString
  | String c s' =>
      match rstrip_with ws s' with
      | EmptyString => if ws c then EmptyString else String c EmptyString
      | r => String c r
      end
  end.

(** [s.strip()] *)
Definition strip (s : string) : string :=
  rstrip_with isspace (lstrip_with isspace s).

(** [s.replace(old, new)] for a one-character [old]. *)
Fixpoint replace_char (old : ascii) (new : string) (s : string) : string :=
  match s with
  | EmptyString => EmptyString
  | String c s' =>
      if decide (c = old) then new +:+ replace_char old new s'
      else String c (replace_char old new s')
  end.

(** [re.sub(r'\s+', ' ', s)]: [in_run] tells that the previous character
    belonged to the whitespace run already replaced. *)
Fixpoint collapse_ws (in_run : bool) (s : string) : string :=
  match s with
  | EmptyString => EmptyString
  | String c s' =>
      if isspace c
      then (if in_run then collapse_ws true s'
            else String " " (collapse_ws true s'))
      else String c (collapse_ws false s')
  end.

(** [s.split()], read from the end of [s]: [split_go s] is the word that
    [s] starts with (empty when [s] starts with whitespace or is empty) and
    the words after it. *)
Definition push_word (w : string) (ws : list string) : list string :=
  match w with
  | EmptyString => ws
  | _ => w :: ws
  end.

Fixpoint split_go (s : string) : string * list string :=
  match s with
  | EmptyString => (EmptyString, [])
  | String c s' =>
      let '(w, ws) := split_go s' in
      if isspace c then (EmptyString, push_word w ws) else (String c w, ws)
  end.

Definition split (s : string) : list string :=
  let '(w, ws) := split_go s in push_word w ws.

(** [sep.join(l)] *)
Definition join (sep : string) (l : list string) : string :=
  String.concat sep l.

(** [s[:n]] *)
Definition slice_to (n : nat) (s : string) : string := substring 0 n s.

(** [s.rfind('.')] as an option: the index of the last [c] in [s]. *)
Fixpoint rfind_char (c : ascii) (s : string) : option nat :=
  match s with
  | EmptyString => None
  | String a s' =>
      match rfind_char c s' with
      | Some i => Some (S i)
      | None => if decide (a = c) then Some 0 else None
      end
  end.

(** [s[i:]] *)
Fixpoint slice_from (i : nat) (s : string) : string :=
  match i, s with
  | 0, _ => s
  | S i', String _ s' => slice_from i' s'
  | S _, EmptyString => EmptyString
  end.

(** A word: what [split] produces, a non-empty string without
    whitespace. *)
Fixpoint no_space (s : string) : bool :=
  match s with
  | EmptyString => true
  | String c s' => negb (isspace c) && no_space s'
  end.

Definition is_word (s : string) : bool := truthy s && no_space s.

End PyStr.

(** JavaScript string methods used by the in-page snapshot function. *)
Module JsStr.

(** White space and line terminators of ECMAScript below code point 256. *)
Definition is_js_space (c : ascii) : bool :=
  let n := nat_of_ascii c in
  ((9 <=? n) && (n <=? 13)) || (n =? 32) || (n =? 160).

Definition trim (s : string) : string :=
  PyStr.rstrip_with is_js_space (PyStr.lstrip_with is_js_space s).

(** [s.substring(0, n)] *)
Definition substring0 (n : nat) (s : string) : string := substring 0 n s.

Definition lower_char (c : ascii) : ascii :=
  let n := nat_of_ascii c in
  if ((65 <=? n) && (n <=? 90))
     || ((192 <=? n) && (n <=? 222) && negb (n =? 215))
  then ascii_of_nat (n + 32) else c.

(** [s.toLowerCase()] *)
Fixpoint toLowerCase (s : string) : string :=
  match s with
  | EmptyString => EmptyString
  | String c s' => String (lower_char c) (toLowerCase s')
  end.

End JsStr.

(* ===================================================================== *)
(** ** Regular expressions of the [re] module, as far as the code uses them *)
(* ===================================================================== *)

Module Re.

Inductive regex : Type :=
| Void                              (* matches nothing *)
| Eps                               (* the empty string *)
| Chr (c : ascii)                   (* one literal character *)
| Digit                             (* \d *)
| Cat (r1 r2 : regex)
| Alt (r1 r2 : regex)
| Star (r : regex).

Fixpoint Lit (s : string) : regex :=
  match s with
  | EmptyString => Eps
  | String c s' => Cat (Chr c) (Lit s')
  end.

(** [(a|b|...)] over literals *)
Definition OneOf (l : list string) : regex :=
  foldr (fun s r => Alt (Lit s) r) Void l.

(** [r+] and [r?] *)
Definition Plus (r : regex) : regex := Cat r (Star r).
Definition Opt (r : regex) : regex := Alt r Eps.

Fixpoint nullable (r : regex) : bool :=
  match r with
  | Void => false
  | Eps => true
  | Chr _ => false
  | Digit => false
  | Cat r1 r2 => nullable r1 && nullable r2
  | Alt r1 r2 => nullable r1 || nullable r2
  | Star _ => true
  end.

(** Brzozowski derivative. *)
Fixpoint deriv (a : ascii) (r : regex) : regex :=
  match r with
  | Void => Void
  | Eps => Void
  | Chr c => if decide (a = c) then Eps else Void
  | Digit => if PyStr.isdigit a then Eps else Void
  | Cat r1 r2 =>
      if nullable r1
      then Alt (Cat (deriv a r1) r2) (deriv a r2)
      else Cat (deriv a r1) r2
  | Alt r1 r2 => Alt (deriv a r1) (deriv a r2)
  | Star r' => Cat (deriv a r') (Star r')
  end.

(** The whole of [s] is in the language of [r]. *)
Fixpoint fullmatch (r : regex) (s : string) : bool :=
  match s with
  | EmptyString => nullable r
  | String c s' => fullmatch (deriv c r) s'
  end.

(** [re.match('^' + body + '$', s)] as a truth value. [re.match] anchors
    at the start; [$] holds at the end of the string and also just before
    a newline that ends the string. *)
Definition match_anchored (body : regex) (s : string) : bool :=
  fullmatch (Cat body (Opt (Chr "010"%char))) s.

End Re.

(* ===================================================================== *)
(** ** Exceptions ([dcrawl/exceptions.py]) and calls that may raise *)
(* ===================================================================== *)

Module Exc.

(** The class of a raised exception: the three of [exceptions.py], any
    other subclass of [Exception] by its name, and a class that derives
    from [BaseException] only ([asyncio.CancelledError],
    [KeyboardInterrupt], [SystemExit], [GeneratorExit]) by its name. *)
Inductive exc_class : Type :=
| CrawlingError
| GenerationError
| ConfigError
| PyError (name : string)
| PyBaseError (name : string).

(** A raised exception; [exc_msg] is what [str(e)] and [f"{e}"] give. *)
Record exception : Type := mkExc { exc_cls : exc_class; exc_msg : string }.

Inductive outcome (A : Type) : Type :=
| Returns (a : A)
| Raises (e : exception).
Arguments Returns {A} a.
Arguments Raises {A} e.

Definition is_crawling_error {A} (o : outcome A) : bool :=
  match o with
  | Raises (mkExc CrawlingError _) => true
  | _ => false
  end.

(** [isinstance(e, Exception)]: what an [except Exception] clause
    catches. *)
Definition is_exception (e : exception) : bool :=
  match exc_cls e with
  | PyBaseError _ => false
  | _ => true
  end.

End Exc.
Import Exc.

(** The quotation mark as a one-character string. *)
Definition dquote : string := String "034"%char EmptyString.

(* ===================================================================== *)
(** ** [dcrawl/crawler.py] *)
(* ===================================================================== *)

Module Crawler.

(** [@dataclass class Element] *)
Record Element : Type := mkElement {
  tag : string;
  text : string;
  classes : string;
  styles : gmap string string;
  attributes : gmap string string;
  position : gmap string Q;
  category : string
}.

(** [@dataclass class CrawlResult] *)
Record CrawlResult : Type := mkCrawlResult {
  url : string;
  title : string;
  elements : list Element
}.

(** *** The page as the in-page snapshot function sees it *)

(** [el.getBoundingClientRect()]: finite doubles, read as rationals. *)
Record DOMRect : Type := mkRect {
  rect_x : Q; rect_y : Q; rect_width : Q; rect_height : Q
}.

(** [window.getComputedStyle(el)], the twelve properties the snapshot
    reads. *)
Record ComputedStyle : Type := mkComputed {
  cs_display : string;
  cs_position : string;
  cs_width : string;
  cs_height : string;
  cs_padding : string;
  cs_margin : string;
  cs_fontSize : string;
  cs_fontWeight : string;
  cs_color : string;
  cs_backgroundColor : string;
  cs_borderRadius : string;
  cs_boxShadow : string
}.

(** A DOM element [el]; [el_attributes] lists [el.attributes] in order as
    [(attr.name, attr.value)]. *)
Record DomNode : Type := mkNode {
  tagName : string;
  textContent : option string;
  className : string;
  el_attributes : list (string * string);
  boundingClientRect : DOMRect;
  computedStyle : ComputedStyle
}.

(** The object the snapshot function returns ([data] on the Python side). *)
Record Snapshot : Type := mkSnapshot {
  data_tag : string;
  data_text : string;
  data_classes : string;
  data_styles : gmap string string;
  data_attributes : gmap string string;
  data_position : gmap string Q;
  data_visible : bool
}.

(** [a > 0] on the numbers of a rectangle. *)
Definition Qpositive (a : Q) : bool := (0 <? Qnum a)%Z.

(** [const styles = { display: computed.display, ... }] *)
Definition snapshot_styles (computed : ComputedStyle) : gmap string string :=
  <["boxShadow" := cs_boxShadow computed]>
  (<["borderRadius" := cs_borderRadius computed]>
  (<["backgroundColor" := cs_backgroundColor computed]>
  (<["color" := cs_color computed]>
  (<["fontWeight" := cs_fontWeight computed]>
  (<["fontSize" := cs_fontSize computed]>
  (<["margin" := cs_margin computed]>
  (<["padding" := cs_padding computed]>
  (<["height" := cs_height computed]>
  (<["width" := cs_width computed]>
  (<["position" := cs_position computed]>
  (<["display" := cs_display computed]> ∅))))))))))).

(** [for (const attr of el.attributes || []) attrs[attr.name] = attr.value]
    on the object literal [attrs = {}]. An assignment to [__proto__] runs
    the setter inherited from [Object.prototype], which ignores a string
    and creates no property; every other name becomes, or overwrites, a
    property of [attrs]. *)
Definition snapshot_attrs (l : list (string * string)) : gmap string string :=
  foldl (fun attrs attr =>
           if bool_decide (attr.1 = "__proto__") then attrs
           else <[attr.1 := attr.2]> attrs) ∅ l.

(** The arrow function passed to [element_handle.evaluate]. *)
Definition snapshot (el : DomNode) : Snapshot :=
  let rect := boundingClientRect el in
  let computed := computedStyle el in
  let attrs := snapshot_attrs (el_attributes el) in
  let styles := snapshot_styles computed in
  {| data_tag := JsStr.toLowerCase (tagName el);
     data_text := JsStr.substring0 100 (JsStr.trim (default "" (textContent el)));
     data_classes := className el;
     data_styles := styles;
     data_attributes := attrs;
     data_position :=
       <["height" := rect_height rect]>
       (<["width" := rect_width rect]>
       (<["y" := rect_y rect]>
       (<["x" := rect_x rect]> ∅)));
     data_visible :=
       Qpositive (rect_width rect) && Qpositive (rect_height rect)
       && negb (bool_decide (cs_display computed = "none")) |}.

(** A Playwright element handle: attached to a node, or one on which
    [evaluate] raises. *)
Inductive ElementHandle : Type :=
| Attached (el : DomNode)
| Broken (e : exception).

Definition evaluate {A} (f : DomNode -> A) (h : ElementHandle) : outcome A :=
  match h with
  | Attached el => Returns (f el)
  | Broken e => Raises e
  end.

(** [response.status] *)
Record Response : Type := mkResponse { status : nat }.

(** What a page of the browser does when driven by [crawl]; [sleep] is
    [await asyncio.sleep(seconds)] while the page is open, which returns
    unless the task is cancelled meanwhile. *)
Record Page : Type := mkPage {
  goto : string -> N -> outcome (option Response);
  wait_for_load_state : string -> N -> outcome unit;
  sleep : N -> outcome unit;
  page_title : outcome string;
  query_selector_all : string -> outcome (list ElementHandle);
  page_close : outcome unit
}.

(** [browser.new_page()] *)
Record Browser : Type := mkBrowser { new_page : outcome Page }.

Record WebCrawler : Type := mkWebCrawler {
  headless : bool;
  timeout : N;
  browser : option Browser
}.

(** The pages opened and closed so far in the browser. *)
Record Tabs : Type := mkTabs { opened : nat; closed : nat }.

(** *** A state and exception monad for the coroutines *)

Definition M (A : Type) : Type := Tabs -> outcome A * Tabs.

Definition ret {A} (a : A) : M A := fun s => (Returns a, s).
Definition raise {A} (e : exception) : M A := fun s => (Raises e, s).
Definition bind {A B} (m : M A) (k : A -> M B) : M B :=
  fun s =>
    match m s with
    | (Returns a, s') => k a s'
    | (Raises e, s') => (Raises e, s')
    end.
(** [try: body  except Exception as e: handler(e)]: an exception that
    does not derive from [Exception] passes through. *)
Definition try_except {A} (body : M A) (handler : exception -> M A) : M A :=
  fun s =>
    match body s with
    | (Returns a, s') => (Returns a, s')
    | (Raises e, s') => if is_exception e then handler e s' else (Raises e, s')
    end.
(** A call that does not touch the tabs. *)
Definition call {A} (o : outcome A) : M A := fun s => (o, s).
(** [await browser.new_page()]: a tab is opened when the call returns. *)
Definition await_new_page (b : Browser) : M Page :=
  fun s =>
    match new_page b with
    | Returns p => (Returns p, {| opened := S (opened s); closed := closed s |})
    | Raises e => (Raises e, s)
    end.
(** [await page.close()]: the tab is closed when the call returns. *)
Definition await_close (p : Page) : M unit :=
  fun s =>
    match page_close p with
    | Returns u => (Returns u, {| opened := opened s; closed := S (closed s) |})
    | Raises e => (Raises e, s)
    end.

Notation "x <- m ;; k" := (bind m (fun x => k))
  (at level 100, m at next level, right associativity).
Notation "m ;;; k" := (bind m (fun _ => k))
  (at level 100, right associativity).

(** *** Extraction: the values returned *)

(** What [_extract_element_data] and [_extract_elements] return when no
    exception outside [Exception] (a cancellation of the task, an
    interrupt) stops them; every exception they see is then caught by
    their [except Exception] clauses. The coroutines with such exceptions
    passing through are [_extract_element_data_await] and
    [_extract_elements_await] below, which return these values whenever
    they return. *)

(** [async def _extract_element_data(self, element_handle, category)] *)
Definition _extract_element_data (element_handle : ElementHandle)
    (category : string) : option Element :=
  match evaluate snapshot element_handle with
  | Returns data =>
      if negb (data_visible data) || negb (PyStr.truthy (data_text data))
      then None
      else Some {| tag := data_tag data;
                   text := data_text data;
                   classes := data_classes data;
                   styles := data_styles data;
                   attributes := data_attributes data;
                   position := data_position data;
                   category := category |}
  | Raises e => None
  end.

Definition selectors : list (string * string) :=
  [ ("nav, [role=" +:+ dquote +:+ "navigation" +:+ dquote +:+ "]", "navigation");
    ("h1, h2, h3, h4, h5, h6", "header");
    ("button, [role=" +:+ dquote +:+ "button" +:+ dquote +:+ "]", "button");
    ("a[href]", "link");
    ("img[src]", "image");
    ("input, textarea, select", "form");
    ("p, span, div", "content") ].

(** The body of [for handle in handles[:10]]. *)
Definition handle_step (category : string) (elements : list Element)
    (handle : ElementHandle) : list Element :=
  match _extract_element_data handle category with
  | Some element => elements ++ [element]
  | None => elements
  end.

(** The body of [for selector, category in selectors], with its
    [try]/[except Exception: continue]. *)
Definition selector_step (page : Page) (elements : list Element)
    (rule : string * string) : list Element :=
  let '(selector, category) := rule in
  match query_selector_all page selector with
  | Returns handles => foldl (handle_step category) elements (take 10 handles)
  | Raises e => elements
  end.

(** [async def _extract_elements(self, page)] *)
Definition _extract_elements (page : Page) : list Element :=
  foldl (selector_step page) [] selectors.

(** *** Extraction: the coroutines *)

(** [async def _extract_element_data(self, element_handle, category)] with
    its [try]/[except Exception: return None]. *)
Definition _extract_element_data_await (element_handle : ElementHandle)
    (category : string) : outcome (option Element) :=
  match evaluate snapshot element_handle with
  | Returns data =>
      if negb (data_visible data) || negb (PyStr.truthy (data_text data))
      then Returns None
      else Returns (Some {| tag := data_tag data;
                            text := data_text data;
                            classes := data_classes data;
                            styles := data_styles data;
                            attributes := data_attributes data;
                            position := data_position data;
                            category := category |})
  | Raises e => if is_exception e then Returns None else Raises e
  end.

(** [for handle in handles[:10]: ...] on the list [elements]; the loop
    ends early when a call raises. *)
Fixpoint handles_loop (category : string) (handles : list ElementHandle)
    (elements : list Element) : outcome unit * list Element :=
  match handles with
  | [] => (Returns tt, elements)
  | handle :: rest =>
      match _extract_element_data_await handle category with
      | Returns (Some element) =>
          handles_loop category rest (elements ++ [element])
      | Returns None => handles_loop category rest elements
      | Raises e => (Raises e, elements)
      end
  end.

(** [for selector, category in selectors: try: ... except Exception:
    continue] on the list [elements]. *)
Fixpoint selectors_loop (page : Page) (rules : list (string * string))
    (elements : list Element) : outcome unit * list Element :=
  match rules with
  | [] => (Returns tt, elements)
  | (selector, category) :: rest =>
      let body :=
        match query_selector_all page selector with
        | Returns handles => handles_loop category (take 10 handles) elements
        | Raises e => (Raises e, elements)
        end in
      match body with
      | (Returns _, elements) => selectors_loop page rest elements
      | (Raises e, elements) =>
          if is_exception e then selectors_loop page rest elements
          else (Raises e, elements)
      end
  end.

(** [async def _extract_elements(self, page)] *)
Definition _extract_elements_await (page : Page) : outcome (list Element) :=
  match selectors_loop page selectors [] with
  | (Returns _, elements) => Returns elements
  | (Raises e, _) => Raises e
  end.

(** [async def crawl(self, url)] *)
Definition crawl (self : WebCrawler) (url : string) : M CrawlResult :=
  match browser self with
  | None => raise (mkExc CrawlingError "Browser not initialized")
  | Some browser =>
      try_except
        (page <- await_new_page browser ;;
         response <- call (goto page url (timeout self)) ;;
         match response with
         | None =>
             raise (mkExc CrawlingError
                      ("Failed to load " +:+ url +:+ ": HTTP " +:+ "No response"))
         | Some r =>
             if 400 <=? status r
             then raise (mkExc CrawlingError
                           ("Failed to load " +:+ url +:+ ": HTTP "
                            +:+ pretty (status r)))
             else ret tt
         end ;;;
         call (wait_for_load_state page "networkidle" 15000%N) ;;;
         call (sleep page 2%N) ;;;
         title <- call (page_title page) ;;
         elements <- call (_extract_elements_await page) ;;
         await_close page ;;;
         ret {| url := url; title := title; elements := elements |})
        (fun e =>
           raise (mkExc CrawlingError
                    ("Failed to crawl " +:+ url +:+ ": " +:+ exc_msg e)))
  end.

End Crawler.

(* ===================================================================== *)
(** ** [dcrawl/generator.py] *)
(* ===================================================================== *)

Module Generator.
Import Crawler.

(** [styles.get(key, '')] *)
Definition get (styles : gmap string string) (key : string) : string :=
  default "" (styles !! key).

(** The eight entries of [tailwind_patterns], each between [^] and [$]. *)
Definition tailwind_patterns : list Re.regex :=
  [ Re.Cat (Re.OneOf ["p"; "m"; "px"; "py"; "mx"; "my"; "pt"; "pb"; "pl";
                      "pr"; "mt"; "mb"; "ml"; "mr"])
           (Re.Cat (Re.Lit "-") (Re.Plus Re.Digit));
    Re.Cat (Re.Lit "text-")
           (Re.OneOf ["xs"; "sm"; "base"; "lg"; "xl"; "2xl"; "3xl"; "4xl";
                      "5xl"; "6xl"]);
    Re.Cat (Re.Lit "text-")
           (Re.Cat (Re.OneOf ["black"; "white"; "gray"; "red"; "blue";
                              "green"; "yellow"])
                   (Re.Cat (Re.Lit "-") (Re.Plus Re.Digit)));
    Re.Cat (Re.Lit "bg-")
           (Re.Cat (Re.OneOf ["black"; "white"; "gray"; "red"; "blue";
                              "green"; "yellow"])
                   (Re.Cat (Re.Lit "-") (Re.Plus Re.Digit)));
    Re.Cat (Re.Lit "font-")
           (Re.OneOf ["thin"; "light"; "normal"; "medium"; "semibold";
                      "bold"; "extrabold"; "black"]);
    Re.OneOf ["flex"; "block"; "inline"; "hidden"; "relative"; "absolute";
              "fixed"];
    Re.Cat (Re.Lit "rounded")
           (Re.Opt (Re.OneOf ["-sm"; "-md"; "-lg"; "-xl"; "-full"]));
    Re.Cat (Re.Lit "shadow")
           (Re.Opt (Re.OneOf ["-sm"; "-md"; "-lg"; "-xl"; "-2xl"])) ].

(** [def _is_tailwind_class(self, cls)] *)
Definition _is_tailwind_class (cls : string) : bool :=
  existsb (fun pattern => Re.match_anchored pattern cls) tailwind_patterns.

(** [list(dict.fromkeys(l))]: the keys in insertion order; [seen] holds the
    keys inserted so far. *)
Fixpoint fromkeys_go (seen : list string) (l : list string) : list string :=
  match l with
  | [] => []
  | x :: l' =>
      if bool_decide (x ∈ seen) then fromkeys_go seen l'
      else x :: fromkeys_go (x :: seen) l'
  end.

Definition fromkeys (l : list string) : list string := fromkeys_go [] l.

(** The blocks of [_generate_tailwind_classes], each taking the list
    [classes] built so far. *)

(** [# Layout] *)
Definition layout_block (styles : gmap string string) (classes : list string)
    : list string :=
  if PyStr.contains "flex" (get styles "display") then classes ++ ["flex"]
  else if PyStr.contains "block" (get styles "display") then classes ++ ["block"]
  else classes.

(** [# Typography], font size *)
Definition font_size_block (styles : gmap string string)
    (classes : list string) : list string :=
  let font_size := get styles "fontSize" in
  if PyStr.contains "24px" font_size || PyStr.contains "2rem" font_size
  then classes ++ ["text-2xl"]
  else if PyStr.contains "20px" font_size then classes ++ ["text-xl"]
  else if PyStr.contains "18px" font_size then classes ++ ["text-lg"]
  else if PyStr.contains "14px" font_size then classes ++ ["text-sm"]
  else classes.

(** [# Typography], font weight *)
Definition font_weight_block (styles : gmap string string)
    (classes : list string) : list string :=
  let font_weight := get styles "fontWeight" in
  if bool_decide (font_weight ∈ ["700"; "bold"]) then classes ++ ["font-bold"]
  else if bool_decide (font_weight ∈ ["600"; "500"])
  then classes ++ ["font-medium"]
  else classes.

(** [# Colors], text colour *)
Definition color_block (styles : gmap string string) (classes : list string)
    : list string :=
  let color := get styles "color" in
  if PyStr.contains "rgb(0, 0, 0)" color || PyStr.contains "#000" color
  then classes ++ ["text-black"]
  else if PyStr.contains "rgb(255, 255, 255)" color
          || PyStr.contains "#fff" color
  then classes ++ ["text-white"]
  else if PyStr.contains "gray" color || PyStr.contains "grey" color
  then classes ++ ["text-gray-600"]
  else classes.

(** [# Colors], background colour *)
Definition bg_color_block (styles : gmap string string)
    (classes : list string) : list string :=
  let bg_color := get styles "backgroundColor" in
  if PyStr.contains "rgb(255, 255, 255)" bg_color
     || PyStr.contains "#fff" bg_color
  then classes ++ ["bg-white"]
  else if PyStr.contains "rgb(0, 0, 0)" bg_color
          || PyStr.contains "#000" bg_color
  then classes ++ ["bg-black"]
  else classes.

(** [# Spacing - simplified] *)
Definition padding_block (styles : gmap string string)
    (classes : list string) : list string :=
  let padding := get styles "padding" in
  if PyStr.truthy padding && negb (bool_decide (padding = "0px"))
  then if PyStr.contains "16px" padding || PyStr.contains "1rem" padding
       then classes ++ ["p-4"]
       else if PyStr.contains "8px" padding then classes ++ ["p-2"]
       else classes ++ ["p-2"]
  else classes.

(** [# Border radius] *)
Definition border_radius_block (styles : gmap string string)
    (classes : list string) : list string :=
  let border_radius := get styles "borderRadius" in
  if PyStr.truthy border_radius && negb (bool_decide (border_radius = "0px"))
  then classes ++ ["rounded"]
  else classes.

(** [# Box shadow] *)
Definition box_shadow_block (styles : gmap string string)
    (classes : list string) : list string :=
  let box_shadow := get styles "boxShadow" in
  if PyStr.truthy box_shadow && negb (bool_decide (box_shadow = "none"))
  then classes ++ ["shadow"]
  else classes.

(** [classes] when the style-driven blocks are done (line 178). *)
Definition style_classes (styles : gmap string string) : list string :=
  let classes := [] in
  let classes := layout_block styles classes in
  let classes := font_size_block styles classes in
  let classes := font_weight_block styles classes in
  let classes := color_block styles classes in
  let classes := bg_color_block styles classes in
  let classes := padding_block styles classes in
  let classes := border_radius_block styles classes in
  let classes := box_shadow_block styles classes in
  classes.

(** [element.classes.split() if element.classes else []] *)
Definition existing_classes (element : Element) : list string :=
  if PyStr.truthy (classes element) then PyStr.split (classes element) else [].

(** [classes] when the loop over [existing_classes] is done (line 184). *)
Definition appended_classes (element : Element) : list string :=
  foldl (fun (classes : list string) (cls : string) =>
           if _is_tailwind_class cls then classes ++ [cls] else classes)
        (style_classes (styles element))
        (existing_classes element).

(** [classes] after [list(dict.fromkeys(classes))[:8]] (line 186). *)
Definition limited_classes (element : Element) : list string :=
  take 8 (fromkeys (appended_classes element)).

(** [def _generate_tailwind_classes(self, element)] *)
Definition _generate_tailwind_classes (element : Element) : string :=
  match limited_classes element with
  | [] => "p-2"
  | classes => PyStr.join " " classes
  end.

(** The class tokens of the returned string, as the [className] attribute
    of the generated element carries them. *)
Definition class_tokens (element : Element) : list string :=
  PyStr.split (_generate_tailwind_classes element).

(** [d.get(key)] used as a condition: present and non-empty. *)
Definition has_attr (attributes : gmap string string) (key : string) : bool :=
  match attributes !! key with
  | Some v => PyStr.truthy v
  | None => false
  end.

(** [def _get_jsx_attributes(self, element, classes)] *)
Definition _get_jsx_attributes (element : Element) (classes : string) : string :=
  let attrs := [] in
  let attrs :=
    if PyStr.truthy classes
    then attrs ++ ["className=" +:+ dquote +:+ classes +:+ dquote]
    else attrs in
  let attrs :=
    if bool_decide (tag element = "a") && has_attr (attributes element) "href"
    then let href := get (attributes element) "href" in
         if PyStr.startswith "http" href
         then attrs ++ ["href=" +:+ dquote +:+ href +:+ dquote]
         else attrs ++ ["href=" +:+ dquote +:+ "#" +:+ dquote]
    else attrs in
  let attrs :=
    if bool_decide (tag element = "img") && has_attr (attributes element) "src"
    then (attrs ++ ["src=" +:+ dquote +:+ get (attributes element) "src"
                    +:+ dquote])
         ++ ["alt=" +:+ dquote +:+ default "" (attributes element !! "alt")
             +:+ dquote]
    else attrs in
  let attrs :=
    if bool_decide (tag element = "input")
    then let attrs :=
           attrs ++ ["type=" +:+ dquote
                     +:+ default "text" (attributes element !! "type")
                     +:+ dquote] in
         if has_attr (attributes element) "placeholder"
         then attrs ++ ["placeholder=" +:+ dquote
                        +:+ get (attributes element) "placeholder" +:+ dquote]
         else attrs
    else attrs in
  match attrs with
  | [] => ""
  | _ => " " +:+ PyStr.join " " attrs
  end.

(** [def _clean_text(self, text)] *)
Definition _clean_text (text : string) : string :=
  if negb (PyStr.truthy text) then ""
  else
    let text := PyStr.strip text in
    let text := PyStr.replace_char "034"%char ("\" +:+ dquote) text in
    let text := PyStr.replace_char "010"%char " " text in
    let text := PyStr.collapse_ws false text in
    text.

(** [def _element_to_jsx(self, element, indent=6)] *)
Definition _element_to_jsx (element : Element) (indent : nat) : string :=
  let classes := _generate_tailwind_classes element in
  let text := _clean_text (text element) in
  if bool_decide (tag element ∈ ["img"; "input"; "br"; "hr"])
  then
    let attrs := _get_jsx_attributes element classes in
    "<" +:+ tag element +:+ attrs +:+ " />"
  else
    let attrs := _get_jsx_attributes element classes in
    let text :=
      if 50 <? String.length text
      then PyStr.slice_to 50 text +:+ "..."
      else text in
    "<" +:+ tag element +:+ attrs +:+ ">" +:+ text +:+ "</" +:+ tag element
    +:+ ">".

End Generator.

(* ===================================================================== *)
(** ** [_generate_tailwind_classes] over a store of objects *)
(* ===================================================================== *)

(** The method once more, with the objects it shares with its caller and
    the object it changes in place kept in a store and passed by
    reference, to tell what a call leaves behind. *)
Module GeneratorRun.
Import Crawler Generator.

(** Objects that can change: lists of strings, dicts from strings to
    strings, dicts from strings to numbers. Strings cannot change and are
    values. *)
Inductive object : Type :=
| PyList (items : list string)
| PyDict (entries : gmap string string)
| PyFloatDict (numbers : gmap string Q).

(** The store, a [gmap nat object], has the object at each reference in
    use. *)

(** [class ReactGenerator] with [self.component_name]. *)
Record ReactGenerator : Type := mkReactGenerator { component_name : string }.

(** An [Element] object: [styles], [attributes] and [position] refer to
    dicts of the store. *)
Record ElementObject : Type := mkElementObject {
  obj_tag : string;
  obj_text : string;
  obj_classes : string;
  obj_styles : nat;
  obj_attributes : nat;
  obj_position : nat;
  obj_category : string
}.

(** Statements that read and change the store and may raise. *)
Definition Run (A : Type) : Type :=
  gmap nat object -> outcome A * gmap nat object.

Definition unit_run {A} (a : A) : Run A := fun σ => (Returns a, σ).
Definition bind_run {A B} (m : Run A) (k : A -> Run B) : Run B :=
  fun σ =>
    match m σ with
    | (Returns a, σ') => k a σ'
    | (Raises e, σ') => (Raises e, σ')
    end.
(** [pass] *)
Definition skip : Run unit := unit_run tt.

Notation "x <~ m ;; k" := (bind_run m (fun x => k))
  (at level 100, m at next level, right associativity).
Notation "m ;;> k" := (bind_run m (fun _ => k))
  (at level 100, right associativity).

Definition AttributeError : exception := mkExc (PyError "AttributeError") "".

(** A list display or [list(...)]: a new list object at a reference not
    in use. *)
Definition new_list (items : list string) : Run nat :=
  fun σ => let l := fresh (dom σ) in (Returns l, <[l := PyList items]> σ).

(** [l.append(x)] *)
Definition list_append (l : nat) (x : string) : Run unit :=
  fun σ =>
    match σ !! l with
    | Some (PyList items) => (Returns tt, <[l := PyList (items ++ [x])]> σ)
    | _ => (Raises AttributeError, σ)
    end.

(** The items of the list at [l], as they are now. *)
Definition list_items (l : nat) : Run (list string) :=
  fun σ =>
    match σ !! l with
    | Some (PyList items) => (Returns items, σ)
    | _ => (Raises AttributeError, σ)
    end.

(** [d.get(key, default)] *)
Definition dict_get (d : nat) (key fallback : string) : Run string :=
  fun σ =>
    match σ !! d with
    | Some (PyDict entries) => (Returns (default fallback (entries !! key)), σ)
    | _ => (Raises AttributeError, σ)
    end.

(** [for x in l: body] *)
Fixpoint for_each {A} (l : list A) (body : A -> Run unit) : Run unit :=
  match l with
  | [] => skip
  | x :: l' => body x ;;> for_each l' body
  end.

(** [# Layout] *)
Definition layout_run (styles classes : nat) : Run unit :=
  display <~ dict_get styles "display" "" ;;
  if PyStr.contains "flex" display then list_append classes "flex"
  else
    display <~ dict_get styles "display" "" ;;
    if PyStr.contains "block" display then list_append classes "block"
    else skip.

(** [# Typography], font size *)
Definition font_size_run (styles classes : nat) : Run unit :=
  font_size <~ dict_get styles "fontSize" "" ;;
  if PyStr.contains "24px" font_size || PyStr.contains "2rem" font_size
  then list_append classes "text-2xl"
  else if PyStr.contains "20px" font_size then list_append classes "text-xl"
  else if PyStr.contains "18px" font_size then list_append classes "text-lg"
  else if PyStr.contains "14px" font_size then list_append classes "text-sm"
  else skip.

(** [# Typography], font weight *)
Definition font_weight_run (styles classes : nat) : Run unit :=
  font_weight <~ dict_get styles "fontWeight" "" ;;
  if bool_decide (font_weight ∈ ["700"; "bold"])
  then list_append classes "font-bold"
  else if bool_decide (font_weight ∈ ["600"; "500"])
  then list_append classes "font-medium"
  else skip.

(** [# Colors], text colour *)
Definition color_run (styles classes : nat) : Run unit :=
  color <~ dict_get styles "color" "" ;;
  if PyStr.contains "rgb(0, 0, 0)" color || PyStr.contains "#000" color
  then list_append classes "text-black"
  else if PyStr.contains "rgb(255, 255, 255)" color
          || PyStr.contains "#fff" color
  then list_append classes "text-white"
  else if PyStr.contains "gray" color || PyStr.contains "grey" color
  then list_append classes "text-gray-600"
  else skip.

(** [# Colors], background colour *)
Definition bg_color_run (styles classes : nat) : Run unit :=
  bg_color <~ dict_get styles "backgroundColor" "" ;;
  if PyStr.contains "rgb(255, 255, 255)" bg_color
     || PyStr.contains "#fff" bg_color
  then list_append classes "bg-white"
  else if PyStr.contains "rgb(0, 0, 0)" bg_color
          || PyStr.contains "#000" bg_color
  then list_append classes "bg-black"
  else skip.

(** [# Spacing - simplified] *)
Definition padding_run (styles classes : nat) : Run unit :=
  padding <~ dict_get styles "padding" "" ;;
  if PyStr.truthy padding && negb (bool_decide (padding = "0px"))
  then if PyStr.contains "16px" padding || PyStr.contains "1rem" padding
       then list_append classes "p-4"
       else if PyStr.contains "8px" padding then list_append classes "p-2"
       else list_append classes "p-2"
  else skip.

(** [# Border radius] *)
Definition border_radius_run (styles classes : nat) : Run unit :=
  border_radius <~ dict_get styles "borderRadius" "" ;;
  if PyStr.truthy border_radius && negb (bool_decide (border_radius = "0px"))
  then list_append classes "rounded"
  else skip.

(** [# Box shadow] *)
Definition box_shadow_run (styles classes : nat) : Run unit :=
  box_shadow <~ dict_get styles "boxShadow" "" ;;
  if PyStr.truthy box_shadow && negb (bool_decide (box_shadow = "none"))
  then list_append classes "shadow"
  else skip.

(** [def _generate_tailwind_classes(self, element)]. The call
    [self._is_tailwind_class(cls)] is the function of [Generator]: it
    builds its patterns anew and matches with [re.match]; the cache of
    compiled patterns inside [re] is no object of this store. *)
Definition _generate_tailwind_classes_run (self : ReactGenerator)
    (element : ElementObject) : Run string :=
  classes <~ new_list [] ;;
  let styles := obj_styles element in
  layout_run styles classes ;;>
  font_size_run styles classes ;;>
  font_weight_run styles classes ;;>
  color_run styles classes ;;>
  bg_color_run styles classes ;;>
  padding_run styles classes ;;>
  border_radius_run styles classes ;;>
  box_shadow_run styles classes ;;>
  let existing_classes :=
    if PyStr.truthy (obj_classes element)
    then PyStr.split (obj_classes element) else [] in
  for_each existing_classes
    (fun cls =>
       if _is_tailwind_class cls then list_append classes cls else skip) ;;>
  items <~ list_items classes ;;
  classes <~ new_list (take 8 (fromkeys items)) ;;
  items <~ list_items classes ;;
  unit_run (match items with
            | [] => "p-2"
            | _ => PyStr.join " " items
            end).

(** A block of the method, run on the dict at [styles] and the list at
    [classes], does to that list what [block] does to a list, and leaves
    the rest of the store as it is. *)
Definition runs_as (run : nat -> nat -> Run unit)
    (block : gmap string string -> list string -> list string) : Prop :=
  forall (σ : gmap nat object) (styles classes : nat) (st : gmap string string)
         (cs : list string),
    σ !! classes = Some (PyList cs) ->
    σ !! styles = Some (PyDict st) ->
    run styles classes σ
    = (Returns tt, <[classes := PyList (block st cs)]> σ).

End GeneratorRun.

(* ===================================================================== *)
(** ** [dcrawl/utils.py]: [save_file] over a file system *)
(* ===================================================================== *)

Module Utils.

(** A [pathlib.Path] is the list of its components below the directory the
    process runs in; that directory is [[]]. *)
Inductive node : Type :=
| File (content : string)
| Dir.

(** [path.exists()] *)
Definition path_exists (fs : gmap (list string) node) (path : list string)
    : bool :=
  match path with
  | [] => true
  | _ => bool_decide (is_Some (fs !! path))
  end.

(** [path.is_dir()] *)
Definition is_dir (fs : gmap (list string) node) (path : list string) : bool :=
  match path with
  | [] => true
  | _ => match fs !! path with Some Dir => true | _ => false end
  end.

(** [path.parent] and [path.name] *)
Definition parent (path : list string) : list string := removelast path.
Definition name (path : list string) : string := default "" (last path).

(** [path.suffix] and [path.stem]: the name is cut at its last dot, unless
    that dot is its first or its last character. *)
Definition suffix (path : list string) : string :=
  match PyStr.rfind_char "."%char (name path) with
  | Some i =>
      if (0 <? i) && (i <? String.length (name path) - 1)
      then PyStr.slice_from i (name path)
      else ""
  | None => ""
  end.

Definition stem (path : list string) : string :=
  match PyStr.rfind_char "."%char (name path) with
  | Some i =>
      if (0 <? i) && (i <? String.length (name path) - 1)
      then PyStr.slice_to i (name path)
      else name path
  | None => name path
  end.

Definition FileExistsError : exception := mkExc (PyError "FileExistsError") "".
Definition FileNotFoundError : exception :=
  mkExc (PyError "FileNotFoundError") "".
Definition NotADirectoryError : exception :=
  mkExc (PyError "NotADirectoryError") "".
Definition IsADirectoryError : exception :=
  mkExc (PyError "IsADirectoryError") "".

Definition is_FileNotFoundError (e : exception) : bool :=
  match exc_cls e with
  | PyError n => bool_decide (n = "FileNotFoundError")
  | _ => false
  end.

(** [os.mkdir(path)] *)
Definition os_mkdir (fs : gmap (list string) node) (path : list string)
    : outcome unit * gmap (list string) node :=
  if path_exists fs path then (Raises FileExistsError, fs)
  else if negb (path_exists fs (parent path)) then (Raises FileNotFoundError, fs)
  else if negb (is_dir fs (parent path)) then (Raises NotADirectoryError, fs)
  else (Returns tt, <[path := Dir]> fs).

(** [path.mkdir(parents=True, exist_ok=True)], by pathlib's recursion on the
    parent; [rpath] is the path with its last component first. *)
Fixpoint mkdir_parents (fs : gmap (list string) node) (rpath : list string)
    : outcome unit * gmap (list string) node :=
  match os_mkdir fs (rev rpath) with
  | (Returns u, fs') => (Returns u, fs')
  | (Raises e, fs') =>
      if is_FileNotFoundError e
      then match rpath with
           | [] => (Raises e, fs')
           | _ :: rparent =>
               match mkdir_parents fs' rparent with
               | (Raises e1, fs1) => (Raises e1, fs1)
               | (Returns _, fs1) =>
                   match os_mkdir fs1 (rev rpath) with
                   | (Returns u, fs2) => (Returns u, fs2)
                   | (Raises e2, fs2) =>
                       if is_dir fs2 (rev rpath) then (Returns tt, fs2)
                       else (Raises e2, fs2)
                   end
               end
           end
      else if is_dir fs' (rev rpath) then (Returns tt, fs')
      else (Raises e, fs')
  end.

(** [with open(path, 'w') as f: f.write(content)], as one step: the
    checks of [open], then the file with its content. The write itself is
    taken to succeed; a write that fails after [open] has created the file
    (a full disk) is outside this model. *)
Definition open_write (fs : gmap (list string) node) (path : list string)
    (content : string) : outcome unit * gmap (list string) node :=
  if is_dir fs path then (Raises IsADirectoryError, fs)
  else if negb (path_exists fs (parent path)) then (Raises FileNotFoundError, fs)
  else if negb (is_dir fs (parent path)) then (Raises NotADirectoryError, fs)
  else (Returns tt, <[path := File content]> fs).

(** [path.parent / f"{stem}_{counter}{suffix}"] *)
Definition numbered (path : list string) (stem suffix : string) (counter : nat)
    : list string :=
  parent path ++ [stem +:+ "_" +:+ pretty counter +:+ suffix].

(** [while path.exists(): path = ...; counter += 1], run for at most [fuel]
    iterations; [None] when the fuel is used up. *)
Fixpoint unique_loop (fuel : nat) (fs : gmap (list string) node)
    (stem suffix : string) (path : list string) (counter : nat)
    : option (list string) :=
  if path_exists fs path
  then match fuel with
       | 0 => None
       | S fuel' =>
           unique_loop fuel' fs stem suffix
             (numbered path stem suffix counter) (S counter)
       end
  else Some path.

(** [def save_file(content, filepath)]; the result is the returned path.
    The loop gets one more iteration than the file system has entries,
    which is always enough ([save_file_returns]); [None] would mean that
    the fuel was used up. *)
Definition save_file (fs : gmap (list string) node) (content : string)
    (filepath : list string)
    : option (outcome (list string) * gmap (list string) node) :=
  let path := filepath in
  match mkdir_parents fs (rev (parent path)) with
  | (Raises e, fs1) => Some (Raises e, fs1)
  | (Returns _, fs1) =>
      match (if path_exists fs1 path
             then unique_loop (S (size fs1)) fs1 (stem path) (suffix path)
                              path 1
             else Some path) with
      | None => None
      | Some path =>
          match open_write fs1 path content with
          | (Raises e, fs2) => Some (Raises e, fs2)
          | (Returns _, fs2) => Some (Returns path, fs2)
          end
      end
  end.

End Utils.

(* ===================================================================== *)
(** ** Notions of the design document used in the statements *)
(* ===================================================================== *)

Module Spec.
Import Crawler Generator.

(** Deduplication that keeps the first occurrence of every token, in
    order: the head stays and its later copies go. *)
Fixpoint first_occurrences (l : list string) : list string :=
  match l with
  | [] => []
  | x :: l' => x :: filter (fun y => y <> x) (first_occurrences l')
  end.

(** The tokens the style-driven rules can emit. *)
Definition style_vocabulary : list string :=
  [ "flex"; "block"; "text-2xl"; "text-xl"; "text-lg"; "text-sm";
    "font-bold"; "font-medium"; "text-black"; "text-white"; "text-gray-600";
    "bg-white"; "bg-black"; "p-4"; "p-2"; "rounded"; "shadow" ].

(** A block of the classifier appends nothing or one token of the
    vocabulary to the list it is given. *)
Definition appends_from_vocabulary (block : list string -> list string) : Prop :=
  exists toks : list string,
    (forall classes, block classes = classes ++ toks) /\
    Forall (fun t => t ∈ style_vocabulary) toks /\
    length toks <= 1.

(** A gray background token: a [bg-] class that names gray. *)
Definition is_gray_background_token (t : string) : bool :=
  PyStr.startswith "bg-" t && (PyStr.contains "gray" t || PyStr.contains "grey" t).


(** What one (selector, category) rule contributes, through
    [_extract_element_data]: of the handles of its query, in order, the
    first 10 are tried and those for which nothing is returned are left
    out; a rule whose query fails contributes nothing. *)
Definition rule_contribution (page : Page) (rule : string * string)
    : list Element :=
  match query_selector_all page rule.1 with
  | Returns handles =>
      omap (fun h => _extract_element_data h rule.2) (take 10 handles)
  | Raises _ => []
  end.

(** The keys of the [styles] object built by the snapshot function, and the
    values read for them, in the order of the source. *)
Definition style_keys : list string :=
  [ "display"; "position"; "width"; "height"; "padding"; "margin";
    "fontSize"; "fontWeight"; "color"; "backgroundColor"; "borderRadius";
    "boxShadow" ].

Definition computed_values (c : ComputedStyle) : list string :=
  [ cs_display c; cs_position c; cs_width c; cs_height c; cs_padding c;
    cs_margin c; cs_fontSize c; cs_fontWeight c; cs_color c;
    cs_backgroundColor c; cs_borderRadius c; cs_boxShadow c ].

(** The twelve property names as the design document spells them. *)
Definition documented_style_names : list string :=
  [ "display"; "position"; "width"; "height"; "padding"; "margin";
    "font-size"; "font-weight"; "color"; "background-color"; "border-radius";
    "box-shadow" ].

(** The keys [_generate_tailwind_classes] reads with [styles.get]. *)
Definition classifier_keys : list string :=
  [ "display"; "fontSize"; "fontWeight"; "color"; "backgroundColor";
    "padding"; "borderRadius"; "boxShadow" ].

(** The classifier as a function of the styles mapping and of the class
    attribute. *)
Definition classify (styles : gmap string string) (class_attr : string)
    : string :=
  _generate_tailwind_classes
    {| tag := ""; text := ""; classes := class_attr; styles := styles;
       attributes := ∅; position := ∅; category := "" |}.

(** The element [e] with the text [t] in place of its own. *)
Definition with_text (e : Element) (t : string) : Element :=
  {| tag := tag e; text := t; classes := classes e; styles := styles e;
     attributes := attributes e; position := position e;
     category := category e |}.

(** *** The extraction pass, from the nodes of the page *)

(** A node is rendered: its box has a positive width and a positive height
    and its computed display is not [none]. *)
Definition rendered (el : DomNode) : bool :=
  Qpositive (rect_width (boundingClientRect el))
  && Qpositive (rect_height (boundingClientRect el))
  && negb (String.eqb (cs_display (computedStyle el)) "none").

(** The text of a node: its text content without the whitespace around it,
    cut to 100 characters. *)
Definition node_text (el : DomNode) : string :=
  JsStr.substring0 100 (JsStr.trim (default "" (textContent el))).

(** The element recorded for a node under a category. *)
Definition element_of_node (el : DomNode) (category : string) : Element :=
  {| tag := JsStr.toLowerCase (tagName el);
     text := node_text el;
     classes := className el;
     styles := list_to_map (zip style_keys (computed_values (computedStyle el)));
     attributes := snapshot_attrs (el_attributes el);
     position :=
       <["height" := rect_height (boundingClientRect el)]>
       (<["width" := rect_width (boundingClientRect el)]>
       (<["y" := rect_y (boundingClientRect el)]>
       (<["x" := rect_x (boundingClientRect el)]> ∅)));
     category := category |}.

(** What one handle gives: the element of its node when the node is
    rendered and has a text; nothing when a check fails or when the node
    cannot be read. *)
Definition node_contribution (category : string) (h : ElementHandle)
    : option Element :=
  match h with
  | Attached el =>
      if rendered el && negb (String.eqb (node_text el) "")
      then Some (element_of_node el category)
      else None
  | Broken _ => None
  end.

(** What one (selector, category) rule gives: the first 10 nodes of the
    query are taken, in document order, and then those failing a check are
    left out; a rule whose query fails gives nothing. *)
Definition rule_yield (page : Page) (rule : string * string) : list Element :=
  match query_selector_all page rule.1 with
  | Returns handles => omap (node_contribution rule.2) (take 10 handles)
  | Raises _ => []
  end.

(** The query of a rule and the reads of its first 10 nodes raise nothing
    but exceptions that derive from [Exception]. *)
Definition rule_ok (page : Page) (rule : string * string) : Prop :=
  match query_selector_all page rule.1 with
  | Returns handles =>
      forall e, Broken e ∈ take 10 handles -> is_exception e = true
  | Raises e => is_exception e = true
  end.

(** So it is for each of the seven rules. *)
Definition raises_only_exceptions (page : Page) : Prop :=
  forall rule, rule ∈ selectors -> rule_ok page rule.

(** The query of a rule, or the read of one of its first 10 nodes, raises
    the exception [e], which does not derive from [Exception]. *)
Definition rule_aborts (page : Page) (rule : string * string) (e : exception)
    : Prop :=
  is_exception e = false /\
  (query_selector_all page rule.1 = Raises e \/
   exists hs, query_selector_all page rule.1 = Returns hs /\
              Broken e ∈ take 10 hs).

(** *** The failures of [crawl] *)

(** What fails first once the page is loaded, with the exception raised. *)
Inductive after_load_failure (page : Page) : exception -> Prop :=
| wait_raises e :
    wait_for_load_state page "networkidle" 15000%N = Raises e ->
    after_load_failure page e
| sleep_raises e :
    wait_for_load_state page "networkidle" 15000%N = Returns tt ->
    sleep page 2%N = Raises e ->
    after_load_failure page e
| title_raises e :
    wait_for_load_state page "networkidle" 15000%N = Returns tt ->
    sleep page 2%N = Returns tt ->
    page_title page = Raises e ->
    after_load_failure page e
| extract_raises t e :
    wait_for_load_state page "networkidle" 15000%N = Returns tt ->
    sleep page 2%N = Returns tt ->
    page_title page = Returns t ->
    _extract_elements_await page = Raises e ->
    after_load_failure page e
| close_raises t els e :
    wait_for_load_state page "networkidle" 15000%N = Returns tt ->
    sleep page 2%N = Returns tt ->
    page_title page = Returns t ->
    _extract_elements_await page = Returns els ->
    page_close page = Raises e ->
    after_load_failure page e.

(** What fails first in the navigate and extract sequence of [crawl] on
    the browser [b], with the exception raised there: a call that raises,
    or the check of the response, which raises a [CrawlingError] of its
    own. *)
Inductive first_failure (self : WebCrawler) (url : string) (b : Browser)
    : exception -> Prop :=
| new_page_raises e :
    new_page b = Raises e -> first_failure self url b e
| goto_raises page e :
    new_page b = Returns page ->
    goto page url (timeout self) = Raises e ->
    first_failure self url b e
| no_response page :
    new_page b = Returns page ->
    goto page url (timeout self) = Returns None ->
    first_failure self url b
      (mkExc CrawlingError
         ("Failed to load " +:+ url +:+ ": HTTP No response"))
| http_error page r :
    new_page b = Returns page ->
    goto page url (timeout self) = Returns (Some r) ->
    400 <= status r ->
    first_failure self url b
      (mkExc CrawlingError
         ("Failed to load " +:+ url +:+ ": HTTP " +:+ pretty (status r)))
| later_failure page r e :
    new_page b = Returns page ->
    goto page url (timeout self) = Returns (Some r) ->
    status r < 400 ->
    after_load_failure page e ->
    first_failure self url b e.

(** The error with context that wraps a failure of the sequence. *)
Definition wrapped (url : string) (e : exception) : exception :=
  mkExc CrawlingError ("Failed to crawl " +:+ url +:+ ": " +:+ exc_msg e).

(** Every step of the sequence succeeds, with the title [t] and the
    elements [els]. *)
Definition all_steps_succeed (self : WebCrawler) (url : string) (t : string)
    (els : list Element) : Prop :=
  exists b page r,
    browser self = Some b /\
    new_page b = Returns page /\
    goto page url (timeout self) = Returns (Some r) /\
    status r < 400 /\
    wait_for_load_state page "networkidle" 15000%N = Returns tt /\
    sleep page 2%N = Returns tt /\
    page_title page = Returns t /\
    _extract_elements_await page = Returns els /\
    page_close page = Returns tt.

(** [fs'] keeps every entry of [fs] as it is; what it adds are directories
    at paths of at most [n] components. *)
Definition adds_dirs (n : nat) (fs fs' : gmap (list string) Utils.node)
    : Prop :=
  fs ⊆ fs' /\
  forall q, fs !! q = None -> is_Some (fs' !! q) ->
            fs' !! q = Some Utils.Dir /\ length q <= n.

End Spec.

(** ** Sample inputs *)

Module Samples.
Import Crawler Generator.

(** A [div] whose computed background is gray and whose class attribute
    already carries a gray background utility. *)
Definition gray_bg_element : Element :=
  {| tag := "div"; text := "Hello"; classes := "bg-gray-500";
     styles := {[ "backgroundColor" := "gray" ]};
     attributes := ∅; position := ∅; category := "content" |}.

(** The same styles and classes on another tag and text. *)
Definition gray_bg_span : Element :=
  {| tag := "span"; text := "Other"; classes := "bg-gray-500";
     styles := {[ "backgroundColor" := "gray" ]};
     attributes := ∅; position := ∅; category := "header" |}.

(** A visible [h1] heading. *)
Definition heading_node : DomNode :=
  {| tagName := "H1";
     textContent := Some "  Hello ";
     className := "title";
     el_attributes := [("class", "title")];
     boundingClientRect :=
       {| rect_x := 0 # 1; rect_y := 0 # 1;
          rect_width := 300 # 1; rect_height := 40 # 1 |};
     computedStyle :=
       {| cs_display := "block"; cs_position := "static";
          cs_width := "300px"; cs_height := "40px"; cs_padding := "0px";
          cs_margin := "0px"; cs_fontSize := "24px"; cs_fontWeight := "700";
          cs_color := "rgb(0, 0, 0)";
          cs_backgroundColor := "rgba(0, 0, 0, 0)";
          cs_borderRadius := "0px"; cs_boxShadow := "none" |} |}.

(** A page that answers every navigation with HTTP 404. *)
Definition page_404 : Page :=
  {| goto := fun _ _ => Returns (Some (mkResponse 404));
     wait_for_load_state := fun _ _ => Returns tt;
     sleep := fun _ => Returns tt;
     page_title := Returns "Not Found";
     query_selector_all := fun _ => Returns [];
     page_close := Returns tt |}.

Definition crawler_404 : WebCrawler :=
  {| headless := true; timeout := 30000%N;
     browser := Some (mkBrowser (Returns page_404)) |}.

(** A page that loads and shows [heading_node] for the header rule. *)
Definition page_hello : Page :=
  {| goto := fun _ _ => Returns (Some (mkResponse 200));
     wait_for_load_state := fun _ _ => Returns tt;
     sleep := fun _ => Returns tt;
     page_title := Returns "Hello page";
     query_selector_all :=
       fun selector =>
         if bool_decide (selector = "h1, h2, h3, h4, h5, h6")
         then Returns [Attached heading_node]
         else Returns [];
     page_close := Returns tt |}.

Definition crawler_hello : WebCrawler :=
  {| headless := true; timeout := 30000%N;
     browser := Some (mkBrowser (Returns page_hello)) |}.

(** The cancellation of the running task, raised at an [await]. *)
Definition CancelledError : exception := mkExc (PyBaseError "CancelledError") "".

(** A page on which the task is cancelled during the navigation. *)
Definition page_cancelled : Page :=
  {| goto := fun _ _ => Raises CancelledError;
     wait_for_load_state := fun _ _ => Returns tt;
     sleep := fun _ => Returns tt;
     page_title := Returns "Cancelled";
     query_selector_all := fun _ => Returns [];
     page_close := Returns tt |}.

Definition crawler_cancelled : WebCrawler :=
  {| headless := true; timeout := 30000%N;
     browser := Some (mkBrowser (Returns page_cancelled)) |}.

(** A page with a heading on which the task is cancelled during the query
    of the link rule. *)
Definition page_interrupted : Page :=
  {| goto := fun _ _ => Returns (Some (mkResponse 200));
     wait_for_load_state := fun _ _ => Returns tt;
     sleep := fun _ => Returns tt;
     page_title := Returns "Interrupted";
     query_selector_all :=
       fun selector =>
         if bool_decide (selector = "h1, h2, h3, h4, h5, h6")
         then Returns [Attached heading_node]
         else if bool_decide (selector = "a[href]")
         then Raises CancelledError
         else Returns [];
     page_close := Returns tt |}.

(** A store with the styles of a link at reference 0 and of a heading at
    reference 5, the same styles, among other objects; two element objects
    with the same class attribute that refer to them; and two
    generators. *)
Definition bold_styles : gmap string string :=
  {[ "fontWeight" := "700"; "display" := "flex" ]}.

Definition store_a : gmap nat GeneratorRun.object :=
  {[ 0 := GeneratorRun.PyDict bold_styles;
     1 := GeneratorRun.PyDict {[ "href" := "http://example.com/" ]};
     2 := GeneratorRun.PyFloatDict ∅ ]}.

Definition store_b : gmap nat GeneratorRun.object :=
  {[ 5 := GeneratorRun.PyDict bold_styles;
     6 := GeneratorRun.PyDict ∅;
     7 := GeneratorRun.PyFloatDict ∅;
     8 := GeneratorRun.PyList ["left"; "behind"] ]}.

Definition link_object : GeneratorRun.ElementObject :=
  {| GeneratorRun.obj_tag := "a"; GeneratorRun.obj_text := "Home";
     GeneratorRun.obj_classes := "nav-link mr-4";
     GeneratorRun.obj_styles := 0; GeneratorRun.obj_attributes := 1;
     GeneratorRun.obj_position := 2; GeneratorRun.obj_category := "link" |}.

Definition heading_object : GeneratorRun.ElementObject :=
  {| GeneratorRun.obj_tag := "h1"; GeneratorRun.obj_text := "Title";
     GeneratorRun.obj_classes := "nav-link mr-4";
     GeneratorRun.obj_styles := 5; GeneratorRun.obj_attributes := 6;
     GeneratorRun.obj_position := 7; GeneratorRun.obj_category := "header" |}.

Definition generator_a : GeneratorRun.ReactGenerator :=
  {| GeneratorRun.component_name := "GeneratedComponent" |}.

Definition generator_b : GeneratorRun.ReactGenerator :=
  {| GeneratorRun.component_name := "Other" |}.

(** Sixty-one characters of text, on a link and on an image. *)
Definition long_text : string :=
  "0123456789012345678901234567890123456789012345678901234567890".

Definition long_link : Element :=
  {| tag := "a"; text := long_text; classes := "";
     styles := ∅; attributes := {[ "href" := "http://example.com/" ]};
     position := ∅; category := "link" |}.

Definition long_image : Element :=
  {| tag := "img"; text := long_text; classes := "";
     styles := ∅; attributes := {[ "src" := "http://example.com/a.png" ]};
     position := ∅; category := "image" |}.

(** An output directory that holds [Foo.jsx], and one that holds
    [Foo_1.jsx] as well. *)
Definition fs_foo : gmap (list string) Utils.node :=
  <[ ["generated"; "Foo.jsx"] := Utils.File "first" ]>
    (<[ ["generated"] := Utils.Dir ]> ∅).

Definition fs_foo_1 : gmap (list string) Utils.node :=
  <[ ["generated"; "Foo_1.jsx"] := Utils.File "second" ]> fs_foo.

(** Paragraphs for the content rule: [paragraph true t] is rendered,
    [paragraph false t] has an empty box. *)
Definition paragraph (rendered : bool) (t : string) : DomNode :=
  {| tagName := "P";
     textContent := Some t;
     className := "";
     el_attributes := [];
     boundingClientRect :=
       {| rect_x := 0 # 1; rect_y := 0 # 1;
          rect_width := if rendered then 200 # 1 else 0 # 1;
          rect_height := 20 # 1 |};
     computedStyle := computedStyle heading_node |}.

(** A page with twelve paragraphs, the first of them not rendered, and a
    heading that the content rule matches too. *)
Definition page_paragraphs : Page :=
  {| goto := fun _ _ => Returns (Some (mkResponse 200));
     wait_for_load_state := fun _ _ => Returns tt;
     sleep := fun _ => Returns tt;
     page_title := Returns "Paragraphs";
     query_selector_all :=
       fun selector =>
         if bool_decide (selector = "h1, h2, h3, h4, h5, h6")
         then Returns [Attached heading_node]
         else if bool_decide (selector = "p, span, div")
         then Returns (Attached (paragraph false "hidden")
                       :: Attached heading_node
                       :: map (fun t => Attached (paragraph true t))
                              ["p1"; "p2"; "p3"; "p4"; "p5"; "p6"; "p7";
                               "p8"; "p9"; "p10"])
         else if bool_decide (selector = "a[href]")
         then Raises (mkExc (PyError "Error") "Execution context was destroyed")
         else Returns [];
     page_close := Returns tt |}.

End Samples.

(* ===================================================================== *)
(** ** Further functions of [generator.py], [crawler.py] and [utils.py] *)
(* ===================================================================== *)

(** The language of a regular expression, to say what the matcher of
    [Re] accepts. *)
Module ReSem.
Import Re.

Inductive lang : regex -> string -> Prop :=
| lang_eps : lang Eps ""
| lang_chr c : lang (Chr c) (String c "")
| lang_digit c : PyStr.isdigit c = true -> lang Digit (String c "")
| lang_cat r1 r2 s1 s2 :
    lang r1 s1 -> lang r2 s2 -> lang (Cat r1 r2) (s1 +:+ s2)
| lang_alt_l r1 r2 s : lang r1 s -> lang (Alt r1 r2) s
| lang_alt_r r1 r2 s : lang r2 s -> lang (Alt r1 r2) s
| lang_star_nil r : lang (Star r) ""
| lang_star_cons r s1 s2 :
    lang r s1 -> lang (Star r) s2 -> lang (Star r) (s1 +:+ s2).

(** The characters an expression can consume. *)
Fixpoint consumes (r : regex) (a : ascii) : bool :=
  match r with
  | Void => false
  | Eps => false
  | Chr c => bool_decide (a = c)
  | Digit => PyStr.isdigit a
  | Cat r1 r2 => consumes r1 a || consumes r2 a
  | Alt r1 r2 => consumes r1 a || consumes r2 a
  | Star r' => consumes r' a
  end.

(** Every character of a string satisfies [P]. *)
Fixpoint string_forall (P : ascii -> bool) (s : string) : bool :=
  match s with
  | EmptyString => true
  | String c s' => P c && string_forall P s'
  end.

(** The 256 characters. *)
Definition all_ascii : list ascii := map ascii_of_nat (seq 0 256).

End ReSem.

Module GeneratorMore.
Import Crawler Generator.

(** A [dict] whose order matters is the list of its items in insertion
    order. [dict_append grouped k element] is
    [if k not in grouped: grouped[k] = []] followed by
    [grouped[k].append(element)]: a known key keeps its place. *)
Fixpoint dict_append (grouped : list (string * list Element)) (k : string)
    (element : Element) : list (string * list Element) :=
  match grouped with
  | [] => [(k, [element])]
  | (k', v) :: rest =>
      if decide (k' = k) then (k', v ++ [element]) :: rest
      else (k', v) :: dict_append rest k element
  end.

(** [def _group_elements(self, elements)] *)
Definition _group_elements (elements : list Element)
    : list (string * list Element) :=
  foldl (fun grouped element => dict_append grouped (category element) element)
        [] elements.

(** [grouped_elements[k]] when [k in grouped_elements]. *)
Fixpoint dict_get (grouped : list (string * list Element)) (k : string)
    : option (list Element) :=
  match grouped with
  | [] => None
  | (k', v) :: rest => if decide (k' = k) then Some v else dict_get rest k
  end.

Section GenerateJsx.

(** [str.title] of the standard library. *)
Variable title : string -> string.

(** The body of [for category, elements in grouped_elements.items()]. *)
Definition other_step (jsx_parts : list string)
    (item : string * list Element) : list string :=
  let '(category, elements) := item in
  if bool_decide (category ∈ ["navigation"; "header"]) then jsx_parts
  else
    match elements with
    | [] => jsx_parts
    | _ =>
        let jsx_parts :=
          jsx_parts ++ ["        {/* " +:+ title category +:+ " */}"] in
        let jsx_parts :=
          jsx_parts ++ ["        <section className=" +:+ dquote +:+ "mb-6"
                        +:+ dquote +:+ ">"] in
        let jsx_parts :=
          foldl (fun parts element =>
                   parts ++ ["          " +:+ _element_to_jsx element 10])
                jsx_parts (take 5 elements) in
        let jsx_parts := jsx_parts ++ ["        </section>"] in
        jsx_parts ++ [""]
    end.

(** The list [jsx_parts] at the end of [_generate_jsx]. *)
Definition _generate_jsx_parts (grouped_elements : list (string * list Element))
    : list string :=
  let jsx_parts := [] in
  let jsx_parts :=
    match dict_get grouped_elements "navigation" with
    | Some navigation =>
        let jsx_parts := jsx_parts ++ ["      {/* Navigation */}"] in
        let jsx_parts :=
          jsx_parts ++ ["      <nav className=" +:+ dquote
                        +:+ "flex items-center justify-between px-6 py-4 border-b"
                        +:+ dquote +:+ ">"] in
        let jsx_parts :=
          foldl (fun parts element =>
                   parts ++ ["        " +:+ _element_to_jsx element 8])
                jsx_parts (take 3 navigation) in
        let jsx_parts := jsx_parts ++ ["      </nav>"] in
        jsx_parts ++ [""]
    | None => jsx_parts
    end in
  let jsx_parts :=
    match dict_get grouped_elements "header" with
    | Some header =>
        let jsx_parts := jsx_parts ++ ["      {/* Headers */}"] in
        let jsx_parts :=
          jsx_parts ++ ["      <header className=" +:+ dquote
                        +:+ "container mx-auto px-6 py-8" +:+ dquote +:+ ">"] in
        let jsx_parts :=
          foldl (fun parts element =>
                   parts ++ ["        " +:+ _element_to_jsx element 8])
                jsx_parts (take 5 header) in
        let jsx_parts := jsx_parts ++ ["      </header>"] in
        jsx_parts ++ [""]
    | None => jsx_parts
    end in
  let jsx_parts := jsx_parts ++ ["      {/* Main Content */}"] in
  let jsx_parts :=
    jsx_parts ++ ["      <main className=" +:+ dquote
                  +:+ "container mx-auto px-6 py-8" +:+ dquote +:+ ">"] in
  let jsx_parts := foldl other_step jsx_parts grouped_elements in
  jsx_parts ++ ["      </main>"].

(** [def _generate_jsx(self, grouped_elements)] *)
Definition _generate_jsx (grouped_elements : list (string * list Element))
    : string :=
  PyStr.join (String "010"%char EmptyString) (_generate_jsx_parts grouped_elements).

End GenerateJsx.

End GeneratorMore.

Module UtilsMore.

(** [def validate_url(url)] *)
Definition validate_url (url : string) : bool :=
  if negb (PyStr.truthy url) then false
  else PyStr.startswith "http://" url || PyStr.startswith "https://" url.

(** [filename = f"{component_name}.jsx"] of [get_output_filename]. *)
Definition jsx_filename (component_name : string) : string :=
  component_name +:+ ".jsx".

(** [s.endswith(c)] for one character. *)
Fixpoint ends_with (c : ascii) (s : string) : bool :=
  match s with
  | EmptyString => false
  | String a EmptyString => bool_decide (a = c)
  | String _ s' => ends_with c s'
  end.

(** [os.path.join(a, b)] of [posixpath]. *)
Definition os_path_join (a b : string) : string :=
  if PyStr.startswith "/" b then b
  else if negb (PyStr.truthy a) || ends_with "/" a then a +:+ b
  else a +:+ "/" +:+ b.

(** [def get_output_filename(component_name, output_dir)] *)
Definition get_output_filename (component_name output_dir : string)
    : string :=
  let filename := jsx_filename component_name in
  os_path_join output_dir filename.

(** [s.split(sep)] for a separator of one character. *)
Fixpoint split_at (sep : ascii) (s : string) : list string :=
  match s with
  | EmptyString => [""]
  | String a s' =>
      if bool_decide (a = sep) then "" :: split_at sep s'
      else match split_at sep s' with
           | w :: ws => String a w :: ws
           | [] => [String a ""]
           end
  end.

(** [Path(s)] for a relative path [s], as the list of its components:
    what stands between the slashes, without the empty components and the
    dots, which pathlib drops. *)
Definition path_parts (s : string) : list string :=
  filter (fun w => w <> "" /\ w <> ".") (split_at "/" s).

End UtilsMore.

(** Notions used in the statements about these functions. *)
Module SpecMore.
Import Crawler Generator GeneratorMore.

(** A text is single-spaced: its only whitespace characters are spaces,
    and no two of them are adjacent; [prev_space] tells that the character
    before was a space. *)
Fixpoint single_spaced (prev_space : bool) (s : string) : bool :=
  match s with
  | EmptyString => true
  | String c s' =>
      if PyStr.isspace c
      then bool_decide (c = " "%char) && negb prev_space
           && single_spaced true s'
      else single_spaced false s'
  end.

(** Every quotation mark comes right after a backslash; [prev_backslash]
    tells that the character before was one. *)
Fixpoint quotes_escaped (prev_backslash : bool) (s : string) : bool :=
  match s with
  | EmptyString => true
  | String c s' =>
      (if bool_decide (c = "034"%char) then prev_backslash else true)
      && quotes_escaped (bool_decide (c = "\"%char)) s'
  end.

(** The first, and the last, character is no whitespace (or there is
    none). *)
Definition first_ok (ws : ascii -> bool) (s : string) : bool :=
  match s with
  | EmptyString => true
  | String c _ => negb (ws c)
  end.

Fixpoint last_ok (ws : ascii -> bool) (s : string) : bool :=
  match s with
  | EmptyString => true
  | String c EmptyString => negb (ws c)
  | String _ s' => last_ok ws s'
  end.

(** A character of a class token: a lowercase letter, a digit or a
    hyphen. *)
Definition is_class_char (c : ascii) : bool :=
  let n := nat_of_ascii c in
  ((97 <=? n) && (n <=? 122)) || PyStr.isdigit c || (n =? 45).

(** A character that is not in the ASCII range, or is one of the above.
    Beyond ASCII the pattern [\d] admits further decimal digits. *)
Definition ascii_is_class_char (c : ascii) : bool :=
  implb (nat_of_ascii c <? 128) (is_class_char c).

(** A string without a slash. *)
Definition slash_free (s : string) : bool :=
  ReSem.string_forall (fun c => negb (bool_decide (c = "/"%char))) s.

(** The tokens of each style-driven block, in the order of the source. *)
Definition block_tokens : list (list string) :=
  [ ["flex"; "block"];
    ["text-2xl"; "text-xl"; "text-lg"; "text-sm"];
    ["font-bold"; "font-medium"];
    ["text-black"; "text-white"; "text-gray-600"];
    ["bg-white"; "bg-black"];
    ["p-4"; "p-2"];
    ["rounded"];
    ["shadow"] ].

(** A block appends a sublist of its own tokens. *)
Definition appends_sublist (block : list string -> list string)
    (tokens : list string) : Prop :=
  exists toks : list string,
    (forall classes, block classes = classes ++ toks) /\
    toks `sublist_of` tokens.

(** The prefixes of the spacing pattern and the colours of the colour
    patterns. *)
Definition spacing_prefixes : list string :=
  [ "p"; "m"; "px"; "py"; "mx"; "my"; "pt"; "pb"; "pl"; "pr"; "mt"; "mb";
    "ml"; "mr" ].

Definition shade_colors : list string :=
  [ "black"; "white"; "gray"; "red"; "blue"; "green"; "yellow" ].


(** The elements of one category, in the order of the crawl, and the
    categories in the order in which they first occur. *)
Definition of_category (c : string) (elements : list Element)
    : list Element :=
  filter (fun e => category e = c) elements.

Definition categories_seen (elements : list Element) : list string :=
  Spec.first_occurrences (map category elements).

(** One section of the generated body: the opening lines, one line for
    each of the first [cap] elements, the closing line and an empty line. *)
Definition section_lines (opening : list string) (indent : string)
    (cap : nat) (closing : string) (elements : list Element) (depth : nat)
    : list string :=
  opening
  ++ map (fun e => indent +:+ _element_to_jsx e depth) (take cap elements)
  ++ [closing; ""].

Section Layout.

Variable title : string -> string.

(** The lines of the body as the design describes them: navigation (3
    elements at most), headers (5), then inside the main block one section
    (5) for each other category in the order of first occurrence; a section
    is there only for a category that has elements. *)
Definition jsx_layout (elements : list Element) : list string :=
  match of_category "navigation" elements with
  | [] => []
  | navigation =>
      section_lines
        [ "      {/* Navigation */}";
          "      <nav className=" +:+ dquote
          +:+ "flex items-center justify-between px-6 py-4 border-b"
          +:+ dquote +:+ ">" ]
        "        " 3 "      </nav>" navigation 8
  end
  ++ match of_category "header" elements with
     | [] => []
     | header =>
         section_lines
           [ "      {/* Headers */}";
             "      <header className=" +:+ dquote
             +:+ "container mx-auto px-6 py-8" +:+ dquote +:+ ">" ]
           "        " 5 "      </header>" header 8
     end
  ++ [ "      {/* Main Content */}";
       "      <main className=" +:+ dquote +:+ "container mx-auto px-6 py-8"
       +:+ dquote +:+ ">" ]
  ++ concat
       (map (fun c =>
               section_lines
                 [ "        {/* " +:+ title c +:+ " */}";
                   "        <section className=" +:+ dquote +:+ "mb-6"
                   +:+ dquote +:+ ">" ]
                 "          " 5 "        </section>"
                 (of_category c elements) 10)
            (filter (fun c => c ∉ ["navigation"; "header"])
                    (categories_seen elements)))
  ++ [ "      </main>" ].

End Layout.

End SpecMore.

Module SamplesMore.
Import Crawler Generator GeneratorMore.


(** A file system in which [generated] is a regular file. *)
Definition fs_blocked : gmap (list string) Utils.node :=
  <[ ["generated"] := Utils.File "not a directory" ]> ∅.

End SamplesMore.

(* ===================================================================== *)
(** * Properties *)
(* ===================================================================== *)

(** ** Strings *)

#[local] Arguments String.append : simpl nomatch.

Module PyStrFacts.
Import PyStr.

Lemma append_empty_r (s : string) : s +:+ "" = s.
Proof. induction s as [|c s IH]; simpl; [done | by rewrite IH]. Qed.

Lemma append_assoc (s1 s2 s3 : string) :
  (s1 +:+ s2) +:+ s3 = s1 +:+ (s2 +:+ s3).
Proof. induction s1 as [|c s1 IH]; simpl; [done | by rewrite IH]. Qed.

Lemma length_append (s1 s2 : string) :
  String.length (s1 +:+ s2) = String.length s1 + String.length s2.
Proof. induction s1 as [|c s1 IH]; simpl; [done | by rewrite IH]. Qed.

(** [s[:n]] has [n] characters when [s] has at least that many. *)
Lemma length_slice_to (n : nat) (s : string) :
  n <= String.length s -> String.length (slice_to n s) = n.
Proof.
  unfold slice_to. revert s.
  induction n as [|n IH]; intros [|c s] Hn; simpl in *; try done; try lia.
  rewrite IH; [done | lia].
Qed.

(** What [split_go] returns: a first word without whitespace and a list of
    words. *)
Lemma split_go_words (s : string) :
  no_space (split_go s).1 = true /\
  Forall (fun w => is_word w = true) (split_go s).2.
Proof.
  induction s as [|c s [IHw IHws]]; simpl; [by split |].
  destruct (split_go s) as [w ws]; simpl in *.
  destruct (isspace c) eqn:Hc; simpl.
  - split; [done |].
    destruct w as [|a w]; simpl; [done |].
    constructor; [|done]. unfold is_word. simpl. done.
  - split; [|done]. by rewrite Hc.
Qed.

(** Every token of [s.split()] is a word. *)
Lemma split_words (s : string) : Forall (fun w => is_word w = true) (split s).
Proof.
  unfold split. pose proof (split_go_words s) as [Hw Hws].
  destruct (split_go s) as [w ws]; simpl in *.
  destruct w as [|a w]; simpl; [done |].
  constructor; [|done]. unfold is_word. simpl. done.
Qed.

(** Reading a string that starts with a whitespace-free [t]. *)
Lemma split_go_app (t s : string) :
  no_space t = true ->
  split_go (t +:+ s) = (t +:+ (split_go s).1, (split_go s).2).
Proof.
  induction t as [|c t IH]; simpl; intros Ht.
  - by destruct (split_go s).
  - apply andb_prop in Ht as [Hc Ht]. rewrite (IH Ht).
    apply negb_true_iff in Hc. by rewrite Hc.
Qed.

Lemma push_word_word (w : string) (ws : list string) :
  is_word w = true -> push_word w ws = w :: ws.
Proof. by destruct w. Qed.

Lemma split_unfold (s : string) :
  split s = push_word (split_go s).1 (split_go s).2.
Proof. unfold split. by destruct (split_go s). Qed.

Lemma split_go_space (s : string) :
  split_go (" " +:+ s) = ("", split s).
Proof. rewrite split_unfold. simpl. by destruct (split_go s). Qed.

Lemma join_cons_cons (sep w w2 : string) (ws : list string) :
  join sep (w :: w2 :: ws) = w +:+ sep +:+ join sep (w2 :: ws).
Proof. reflexivity. Qed.

(** Splitting the join of words gives the words back. *)
Lemma split_join_words (ws : list string) :
  Forall (fun w => is_word w = true) ws -> split (join " " ws) = ws.
Proof.
  induction ws as [|w ws IH]; intros Hws; [done |].
  apply Forall_cons in Hws as [Hw Hws].
  assert (no_space w = true) as Hns.
  { unfold is_word in Hw. by apply andb_prop in Hw as [_ ?]. }
  rewrite split_unfold.
  destruct ws as [|w2 ws].
  - change (join " " [w]) with w.
    rewrite <- (append_empty_r w) at 1 2.
    rewrite (split_go_app w "" Hns). simpl.
    rewrite append_empty_r. by apply push_word_word.
  - rewrite join_cons_cons, (split_go_app w _ Hns), split_go_space.
    cbn [fst snd]. rewrite append_empty_r, (IH Hws). by apply push_word_word.
Qed.

End PyStrFacts.

(** ** The Tailwind class generator *)

Module GeneratorFacts.
Import Crawler Generator Spec Samples PyStr PyStrFacts.

(** *** [dict.fromkeys] keeps first occurrences *)

Lemma fromkeys_go_first_occurrences (seen l : list string) :
  fromkeys_go seen l = filter (fun y => y ∉ seen) (first_occurrences l).
Proof.
  revert seen. induction l as [|x l IH]; intros seen; simpl; [done |].
  case_bool_decide as Hx.
  - rewrite filter_cons_False by (intros ?; done).
    rewrite IH, list_filter_filter.
    apply list_filter_iff. intros y. split; [|tauto].
    intros Hy. split; [done |]. intros ->. done.
  - rewrite filter_cons_True by done. f_equal.
    rewrite IH, list_filter_filter.
    apply list_filter_iff. intros y. rewrite not_elem_of_cons. tauto.
Qed.

Lemma fromkeys_first_occurrences (l : list string) :
  fromkeys l = first_occurrences l.
Proof.
  unfold fromkeys. rewrite fromkeys_go_first_occurrences.
  induction (first_occurrences l) as [|y k IH]; [done |].
  rewrite filter_cons_True by apply not_elem_of_nil. by f_equal.
Qed.

Lemma elem_of_first_occurrences (x : string) (l : list string) :
  x ∈ first_occurrences l <-> x ∈ l.
Proof.
  induction l as [|y l IH]; simpl; [done |].
  rewrite !elem_of_cons, list_elem_of_filter, IH.
  destruct (decide (x = y)); tauto.
Qed.

Lemma NoDup_first_occurrences (l : list string) : NoDup (first_occurrences l).
Proof.
  induction l as [|x l IH]; simpl; [constructor |].
  apply NoDup_cons. split.
  - rewrite list_elem_of_filter. tauto.
  - by apply NoDup_filter.
Qed.

(** *** The loop over the existing classes is a filter *)

Lemma foldl_append_filter (P : string -> bool) (init l : list string) :
  foldl (fun (classes : list string) (cls : string) =>
           if P cls then classes ++ [cls] else classes) init l
  = init ++ filter (fun cls => P cls = true) l.
Proof.
  revert init. induction l as [|x l IH]; intros init; simpl.
  - by rewrite app_nil_r.
  - rewrite IH. destruct (P x) eqn:Hx.
    + rewrite filter_cons_True by done. by rewrite <- app_assoc.
    + rewrite filter_cons_False by congruence. done.
Qed.

Lemma appended_classes_eq (e : Element) :
  appended_classes e
  = style_classes (styles e)
    ++ filter (fun cls => _is_tailwind_class cls = true) (existing_classes e).
Proof. unfold appended_classes. apply foldl_append_filter. Qed.

Lemma existing_classes_words (e : Element) :
  Forall (fun w => is_word w = true) (existing_classes e).
Proof.
  unfold existing_classes. destruct (truthy (classes e)); [|constructor].
  apply split_words.
Qed.

(** *** The style-driven blocks append at most one token of the vocabulary *)

Ltac in_vocabulary :=
  unfold style_vocabulary;
  repeat first [ apply list_elem_of_here | apply list_elem_of_further ].

Ltac block_cases :=
  repeat match goal with
         | |- context [if ?b then _ else _] => destruct b
         end;
  first
    [ exists []; split; [intros; by rewrite app_nil_r | split; [constructor | simpl; lia]]
    | eexists [_]; split;
      [ intros; reflexivity
      | split; [repeat constructor; in_vocabulary | simpl; lia] ] ].

Lemma layout_block_appends st : appends_from_vocabulary (layout_block st).
Proof. unfold appends_from_vocabulary, layout_block. block_cases. Qed.

Lemma font_size_block_appends st : appends_from_vocabulary (font_size_block st).
Proof. unfold appends_from_vocabulary, font_size_block. block_cases. Qed.

Lemma font_weight_block_appends st :
  appends_from_vocabulary (font_weight_block st).
Proof. unfold appends_from_vocabulary, font_weight_block. block_cases. Qed.

Lemma color_block_appends st : appends_from_vocabulary (color_block st).
Proof. unfold appends_from_vocabulary, color_block. block_cases. Qed.

Lemma bg_color_block_appends st : appends_from_vocabulary (bg_color_block st).
Proof. unfold appends_from_vocabulary, bg_color_block. block_cases. Qed.

Lemma padding_block_appends st : appends_from_vocabulary (padding_block st).
Proof. unfold appends_from_vocabulary, padding_block. block_cases. Qed.

Lemma border_radius_block_appends st :
  appends_from_vocabulary (border_radius_block st).
Proof. unfold appends_from_vocabulary, border_radius_block. block_cases. Qed.

Lemma box_shadow_block_appends st :
  appends_from_vocabulary (box_shadow_block st).
Proof. unfold appends_from_vocabulary, box_shadow_block. block_cases. Qed.

Lemma style_classes_vocabulary (st : gmap string string) :
  Forall (fun t => t ∈ style_vocabulary) (style_classes st) /\
  length (style_classes st) <= 8.
Proof.
  unfold style_classes.
  destruct (layout_block_appends st) as (t1 & -> & V1 & L1).
  destruct (font_size_block_appends st) as (t2 & -> & V2 & L2).
  destruct (font_weight_block_appends st) as (t3 & -> & V3 & L3).
  destruct (color_block_appends st) as (t4 & -> & V4 & L4).
  destruct (bg_color_block_appends st) as (t5 & -> & V5 & L5).
  destruct (padding_block_appends st) as (t6 & -> & V6 & L6).
  destruct (border_radius_block_appends st) as (t7 & -> & V7 & L7).
  destruct (box_shadow_block_appends st) as (t8 & -> & V8 & L8).
  split.
  - repeat (apply Forall_app; split); try done.
  - rewrite !length_app. simpl. lia.
Qed.


(** *** The returned string and its tokens *)

Lemma limited_classes_eq (e : Element) :
  limited_classes e = take 8 (first_occurrences (appended_classes e)).
Proof. unfold limited_classes. by rewrite fromkeys_first_occurrences. Qed.

Lemma vocabulary_words : Forall (fun w => is_word w = true) style_vocabulary.
Proof. unfold style_vocabulary. repeat constructor. Qed.

Lemma appended_classes_words (e : Element) :
  Forall (fun w => is_word w = true) (appended_classes e).
Proof.
  rewrite appended_classes_eq. apply Forall_app. split.
  - destruct (style_classes_vocabulary (styles e)) as [Hv _].
    eapply Forall_impl; [exact Hv |]. intros t Ht. simpl in Ht.
    by apply (proj1 (Forall_forall _ _) vocabulary_words).
  - apply Forall_forall. intros t Ht.
    apply list_elem_of_filter in Ht as [_ Ht].
    by apply (proj1 (Forall_forall _ _) (existing_classes_words e)).
Qed.

Lemma elem_of_limited_classes (e : Element) (t : string) :
  t ∈ limited_classes e -> t ∈ appended_classes e.
Proof.
  rewrite limited_classes_eq. intros Ht.
  apply elem_of_first_occurrences.
  eapply elem_of_sublist; [exact Ht | apply sublist_take].
Qed.

Lemma limited_classes_words (e : Element) :
  Forall (fun w => is_word w = true) (limited_classes e).
Proof.
  apply Forall_forall. intros t Ht.
  apply (proj1 (Forall_forall _ _) (appended_classes_words e)).
  by apply elem_of_limited_classes.
Qed.

(** The tokens of the returned string are the list [classes] of line 186,
    or the fallback. *)
Lemma class_tokens_cases (e : Element) :
  class_tokens e
  = match limited_classes e with [] => ["p-2"] | l => l end.
Proof.
  unfold class_tokens, _generate_tailwind_classes.
  pose proof (limited_classes_words e) as Hw.
  destruct (limited_classes e) as [|t l]; [reflexivity |].
  by apply split_join_words.
Qed.

Lemma elem_of_class_tokens (e : Element) (t : string) :
  t ∈ class_tokens e ->
  (limited_classes e = [] /\ t = "p-2") \/ t ∈ appended_classes e.
Proof.
  rewrite class_tokens_cases. intros Ht.
  destruct (limited_classes e) as [|t0 l] eqn:Hl.
  - left. split; [done |]. by apply list_elem_of_singleton in Ht.
  - right. apply elem_of_limited_classes. by rewrite Hl.
Qed.

(** C1: for every element (styles mapping and class attribute) the class
    tokens of the classifier's result are at most 8, pairwise distinct and
    at least one; they are the first 8 first-occurrences of the appended
    tokens, in order, and when no rule appended a token the result is the
    single fallback token p-2. *)
Theorem class_tokens_bounded_distinct_nonempty (e : Element) :
  length (class_tokens e) <= 8 /\
  NoDup (class_tokens e) /\
  class_tokens e <> [] /\
  (appended_classes e <> [] ->
     class_tokens e = take 8 (first_occurrences (appended_classes e))) /\
  (appended_classes e = [] ->
     _generate_tailwind_classes e = "p-2" /\ class_tokens e = ["p-2"]).
Proof.
  pose proof (class_tokens_cases e) as Hc.
  pose proof (limited_classes_eq e) as Hl.
  assert (length (limited_classes e) <= 8) as Hlen.
  { rewrite Hl, length_take. lia. }
  assert (NoDup (limited_classes e)) as Hnd.
  { rewrite Hl. eapply sublist_NoDup; [apply NoDup_first_occurrences |].
    apply sublist_take. }
  split; [|split; [|split; [|split]]].
  - rewrite Hc. destruct (limited_classes e); simpl in *; lia.
  - rewrite Hc. destruct (limited_classes e); [|done].
    apply NoDup_singleton.
  - rewrite Hc. by destruct (limited_classes e).
  - intros Hne. rewrite Hc, Hl.
    destruct (appended_classes e) as [|t l]; [done |]. reflexivity.
  - intros Hnil. split.
    + unfold _generate_tailwind_classes. rewrite Hl, Hnil. reflexivity.
    + rewrite Hc, Hl, Hnil. reflexivity.
Qed.

(** C5 (as the code has it): the style-driven rules never produce a gray
    background token, whatever the background colour; a gray background
    token among the class tokens of the result is a token of the element's
    own class attribute that matched a Tailwind pattern, carried over as
    it is. *)
Theorem gray_background_token_only_from_existing (e : Element) :
  (forall t, t ∈ style_classes (styles e) ->
             is_gray_background_token t = false) /\
  (forall t, t ∈ class_tokens e -> is_gray_background_token t = true ->
             t ∈ existing_classes e /\ _is_tailwind_class t = true).
Proof.
  assert (forall t, t ∈ style_classes (styles e) ->
                    is_gray_background_token t = false) as Hstyle.
  { intros t Ht.
    destruct (style_classes_vocabulary (styles e)) as [Hv _].
    apply (proj1 (Forall_forall _ _) Hv) in Ht. simpl in Ht.
    assert (Forall (fun t => is_gray_background_token t = false)
                   style_vocabulary) as Hg
      by (unfold style_vocabulary; repeat constructor).
    by apply (proj1 (Forall_forall _ _) Hg). }
  split; [exact Hstyle |].
  intros t Ht Hgray.
  apply elem_of_class_tokens in Ht as [[_ ->] | Ht]; [discriminate |].
  rewrite appended_classes_eq in Ht.
  apply elem_of_app in Ht as [Ht | Ht].
  - apply Hstyle in Ht. congruence.
  - by apply list_elem_of_filter in Ht as [? ?].
Qed.

(** C5, the claim as stated fails: with a gray computed background and the
    class attribute [bg-gray-500] the result is the gray background token
    [bg-gray-500]. *)
Lemma gray_background_token_emitted :
  PyStr.contains "gray" (get (styles gray_bg_element) "backgroundColor") = true /\
  _generate_tailwind_classes gray_bg_element = "bg-gray-500" /\
  "bg-gray-500" ∈ class_tokens gray_bg_element /\
  is_gray_background_token "bg-gray-500" = true.
Proof.
  repeat split; try reflexivity.
  assert (class_tokens gray_bg_element = ["bg-gray-500"]) as ->
    by (vm_compute; reflexivity).
  apply list_elem_of_here.
Qed.

(** The classifier reads the styles mapping and the class attribute of
    the element, and no other field. *)
Lemma classifier_reads_styles_and_classes (e1 e2 : Element) :
  styles e1 = styles e2 -> classes e1 = classes e2 ->
  _generate_tailwind_classes e1 = _generate_tailwind_classes e2.
Proof.
  intros Hs Hc.
  unfold _generate_tailwind_classes, limited_classes, appended_classes,
    existing_classes. by rewrite Hs, Hc.
Qed.

(** The patterns on some tokens. *)
Example is_tailwind_class_samples :
  map _is_tailwind_class
      [ "p-4"; "mr-12"; "text-2xl"; "text-gray-600"; "bg-red-500";
        "font-bold"; "flex"; "rounded"; "rounded-lg"; "shadow-2xl" ]
  = [ true; true; true; true; true; true; true; true; true; true ] /\
  map _is_tailwind_class
      [ ""; "p-"; "p-4x"; "text-7xl"; "text-black"; "bg-white"; "bg-gray";
        "rounded-"; "container"; "Flex" ]
  = [ false; false; false; false; false; false; false; false; false;
      false ].
Proof. split; vm_compute; reflexivity. Qed.

End GeneratorFacts.

(** ** The classifier over the store *)

Module ClassifierRunFacts.
Import Crawler Generator GeneratorRun GeneratorFacts Spec Samples PyStr.

Lemma bind_run_returns {A B} (m : Run A) (k : A -> Run B) (σ σ' : gmap nat object)
    (a : A) :
  m σ = (Returns a, σ') -> bind_run m k σ = k a σ'.
Proof. intros H. unfold bind_run. by rewrite H. Qed.

Lemma dict_get_at (σ : gmap nat object) (d : nat) (st : gmap string string)
    (key dflt : string) :
  σ !! d = Some (PyDict st) ->
  dict_get d key dflt σ = (Returns (default dflt (st !! key)), σ).
Proof. intros H. unfold dict_get. by rewrite H. Qed.

Lemma list_append_at (σ : gmap nat object) (l : nat) (cs : list string) (x : string) :
  σ !! l = Some (PyList cs) ->
  list_append l x σ = (Returns tt, <[l := PyList (cs ++ [x])]> σ).
Proof. intros H. unfold list_append. by rewrite H. Qed.

Lemma list_items_at (σ : gmap nat object) (l : nat) (cs : list string) :
  σ !! l = Some (PyList cs) -> list_items l σ = (Returns cs, σ).
Proof. intros H. unfold list_items. by rewrite H. Qed.

Lemma skip_at (σ : gmap nat object) (l : nat) (cs : list string) :
  σ !! l = Some (PyList cs) -> skip σ = (Returns tt, <[l := PyList cs]> σ).
Proof. intros H. unfold skip, unit_run. by rewrite insert_id. Qed.

(** *** Each block changes the list of the classes, and nothing else *)

Ltac run_block :=
  intros σ d l st cs Hl Hd; unfold bind_run, get;
  repeat first
    [ progress cbv beta iota
    | rewrite (dict_get_at σ d st _ _ Hd)
    | match goal with
      | |- context [if ?b then _ else _] =>
          match type of b with bool => destruct b end
      end ];
  first [ apply (list_append_at σ l cs _ Hl) | apply (skip_at σ l cs Hl) ].

Lemma layout_run_block : runs_as layout_run layout_block.
Proof. unfold runs_as, layout_run, layout_block. run_block. Qed.

Lemma font_size_run_block : runs_as font_size_run font_size_block.
Proof. unfold runs_as, font_size_run, font_size_block. run_block. Qed.

Lemma font_weight_run_block : runs_as font_weight_run font_weight_block.
Proof. unfold runs_as, font_weight_run, font_weight_block. run_block. Qed.

Lemma color_run_block : runs_as color_run color_block.
Proof. unfold runs_as, color_run, color_block. run_block. Qed.

Lemma bg_color_run_block : runs_as bg_color_run bg_color_block.
Proof. unfold runs_as, bg_color_run, bg_color_block. run_block. Qed.

Lemma padding_run_block : runs_as padding_run padding_block.
Proof. unfold runs_as, padding_run, padding_block. run_block. Qed.

Lemma border_radius_run_block : runs_as border_radius_run border_radius_block.
Proof. unfold runs_as, border_radius_run, border_radius_block. run_block. Qed.

Lemma box_shadow_run_block : runs_as box_shadow_run box_shadow_block.
Proof. unfold runs_as, box_shadow_run, box_shadow_block. run_block. Qed.

(** A block on a store whose list of classes was set on top of [σ]. *)
Lemma runs_as_on (run : nat -> nat -> Run unit)
    (block : gmap string string -> list string -> list string)
    (σ : gmap nat object) (d l : nat) (st : gmap string string) (cs : list string) :
  runs_as run block ->
  σ !! d = Some (PyDict st) -> l <> d ->
  run d l (<[l := PyList cs]> σ)
  = (Returns tt, <[l := PyList (block st cs)]> σ).
Proof.
  intros Hrun Hd Hne.
  rewrite (Hrun (<[l := PyList cs]> σ) d l st cs).
  - by rewrite insert_insert_eq.
  - apply lookup_insert_eq.
  - by rewrite lookup_insert_ne.
Qed.

Lemma for_each_append (P : string -> bool) (existing : list string)
    (σ : gmap nat object) (l : nat) (cs : list string) :
  for_each existing
    (fun cls => if P cls then list_append l cls else skip)
    (<[l := PyList cs]> σ)
  = (Returns tt,
     <[l := PyList (foldl (fun (classes : list string) (cls : string) =>
                             if P cls then classes ++ [cls] else classes)
                          cs existing)]> σ).
Proof.
  revert cs. induction existing as [|cls existing IH]; intros cs.
  - reflexivity.
  - cbn [for_each foldl]. unfold bind_run at 1. destruct (P cls).
    + rewrite (list_append_at _ l cs) by apply lookup_insert_eq.
      rewrite insert_insert_eq. apply IH.
    + apply IH.
Qed.

(** The run of the method: it returns what the classifier gives for the
    styles at the reference and the class attribute, and the store it
    leaves has every object of the store it found, unchanged. *)
Lemma classifier_run (self : ReactGenerator) (element : ElementObject)
    (σ : gmap nat object) (st : gmap string string) :
  σ !! obj_styles element = Some (PyDict st) ->
  exists σ',
    _generate_tailwind_classes_run self element σ
    = (Returns (classify st (obj_classes element)), σ') /\
    σ ⊆ σ'.
Proof.
  intros Hd. set (d := obj_styles element) in *.
  set (l := fresh (dom σ)).
  assert (σ !! l = None) as Hl
    by (apply not_elem_of_dom; apply is_fresh).
  assert (l <> d) as Hne by (intros ->; congruence).
  set (app := foldl (fun (classes : list string) (cls : string) =>
                       if _is_tailwind_class cls then classes ++ [cls]
                       else classes)
                    (style_classes st)
                    (if truthy (obj_classes element)
                     then split (obj_classes element) else [])).
  set (l2 := fresh (dom (<[l := PyList app]> σ))).
  assert ((<[l := PyList app]> σ) !! l2 = None) as Hl2
    by (apply not_elem_of_dom; apply is_fresh).
  exists (<[l2 := PyList (take 8 (fromkeys app))]> (<[l := PyList app]> σ)).
  split.
  - unfold _generate_tailwind_classes_run.
    rewrite (bind_run_returns _ _ σ (<[l := PyList []]> σ) l) by reflexivity.
    fold d.
    do 8 (erewrite bind_run_returns;
          [|first [ apply (runs_as_on _ _ σ d l st _ layout_run_block Hd Hne)
                  | apply (runs_as_on _ _ σ d l st _ font_size_run_block Hd Hne)
                  | apply (runs_as_on _ _ σ d l st _ font_weight_run_block Hd Hne)
                  | apply (runs_as_on _ _ σ d l st _ color_run_block Hd Hne)
                  | apply (runs_as_on _ _ σ d l st _ bg_color_run_block Hd Hne)
                  | apply (runs_as_on _ _ σ d l st _ padding_run_block Hd Hne)
                  | apply (runs_as_on _ _ σ d l st _ border_radius_run_block Hd Hne)
                  | apply (runs_as_on _ _ σ d l st _ box_shadow_run_block Hd Hne) ]]).
    erewrite bind_run_returns; [|apply for_each_append].
    change (foldl _ _ _) with app.
    erewrite bind_run_returns;
      [|apply (list_items_at _ l app), lookup_insert_eq].
    rewrite (bind_run_returns _ _ (<[l := PyList app]> σ)
               (<[l2 := PyList (take 8 (fromkeys app))]>
                  (<[l := PyList app]> σ)) l2) by reflexivity.
    erewrite bind_run_returns;
      [|apply (list_items_at _ l2 (take 8 (fromkeys app))), lookup_insert_eq].
    unfold unit_run, classify, _generate_tailwind_classes, limited_classes,
      appended_classes, existing_classes.
    cbn [styles classes]. fold app.
    by destruct (take 8 (fromkeys app)).
  - etransitivity; [apply (insert_subseteq σ l (PyList app) Hl) |].
    by apply insert_subseteq.
Qed.

(** C8: whatever the generator, the store and the other fields of the
    element are, a run of the classifier returns, and what it returns is
    fixed by the styles mapping at the reference of the element and by the
    class attribute: two runs on equal mappings and equal class attributes
    return the same string, and so does a second run on the store that the
    first has left. A run leaves every object of the store it found as it
    was: the list it builds is an object of its own. The string is the one
    the classifier gives as a function of the mapping and the
    attribute. *)
Theorem classifier_pure (self1 self2 : ReactGenerator)
    (element1 element2 : ElementObject) (σ1 σ2 : gmap nat object)
    (st : gmap string string) :
  σ1 !! obj_styles element1 = Some (PyDict st) ->
  σ2 !! obj_styles element2 = Some (PyDict st) ->
  obj_classes element1 = obj_classes element2 ->
  exists out σ1' σ2' σ1'',
    _generate_tailwind_classes_run self1 element1 σ1 = (Returns out, σ1') /\
    _generate_tailwind_classes_run self2 element2 σ2 = (Returns out, σ2') /\
    _generate_tailwind_classes_run self1 element1 σ1' = (Returns out, σ1'') /\
    σ1 ⊆ σ1' /\ σ2 ⊆ σ2' /\ σ1' ⊆ σ1'' /\
    out = classify st (obj_classes element1) /\
    (forall e, styles e = st -> classes e = obj_classes element1 ->
               _generate_tailwind_classes e = out).
Proof.
  intros H1 H2 Hc.
  destruct (classifier_run self1 element1 σ1 st H1) as (σ1' & Hr1 & Hs1).
  destruct (classifier_run self2 element2 σ2 st H2) as (σ2' & Hr2 & Hs2).
  destruct (classifier_run self1 element1 σ1' st
              (lookup_weaken _ _ _ _ H1 Hs1)) as (σ1'' & Hr3 & Hs3).
  exists (classify st (obj_classes element1)), σ1', σ2', σ1''.
  split; [exact Hr1 |]. split; [by rewrite Hc |]. split; [exact Hr3 |].
  split; [exact Hs1 |]. split; [exact Hs2 |]. split; [exact Hs3 |].
  split; [reflexivity |].
  intros e He Hce. unfold classify.
  by apply classifier_reads_styles_and_classes.
Qed.

Lemma classifier_pure_witness :
  exists out σ1' σ2' σ1'',
    _generate_tailwind_classes_run generator_a link_object store_a
    = (Returns out, σ1') /\
    _generate_tailwind_classes_run generator_b heading_object store_b
    = (Returns out, σ2') /\
    _generate_tailwind_classes_run generator_a link_object σ1'
    = (Returns out, σ1'') /\
    store_a ⊆ σ1' /\ store_b ⊆ σ2' /\ σ1' ⊆ σ1'' /\
    out = classify bold_styles (obj_classes link_object) /\
    (forall e, styles e = bold_styles -> classes e = obj_classes link_object ->
               _generate_tailwind_classes e = out).
Proof.
  apply (classifier_pure generator_a generator_b link_object heading_object
           store_a store_b bold_styles); reflexivity.
Defined.

(** The two runs of the samples, by computation. *)
Example classifier_run_samples :
  (_generate_tailwind_classes_run generator_a link_object store_a).1
  = Returns "flex font-bold mr-4" /\
  (_generate_tailwind_classes_run generator_b heading_object store_b).1
  = Returns "flex font-bold mr-4".
Proof. split; vm_compute; reflexivity. Qed.

End ClassifierRunFacts.

(** ** The crawler *)

Module CrawlerFacts.
Import Crawler Generator Spec Samples.

(** *** Extraction *)

Lemma foldl_handle_step (category : string) (handles : list ElementHandle)
    (acc : list Element) :
  foldl (handle_step category) acc handles
  = acc ++ omap (fun h => _extract_element_data h category) handles.
Proof.
  revert acc. induction handles as [|h hs IH]; intros acc; simpl.
  - by rewrite app_nil_r.
  - rewrite IH. unfold handle_step.
    destruct (_extract_element_data h category); [|done].
    by rewrite <- app_assoc.
Qed.

Lemma selector_step_contribution (page : Page) (acc : list Element)
    (rule : string * string) :
  selector_step page acc rule = acc ++ rule_contribution page rule.
Proof.
  destruct rule as [selector category].
  unfold selector_step, rule_contribution. simpl.
  destruct (query_selector_all page selector).
  - apply foldl_handle_step.
  - by rewrite app_nil_r.
Qed.

Lemma foldl_selector_step (page : Page) (rules : list (string * string))
    (acc : list Element) :
  foldl (selector_step page) acc rules
  = acc ++ concat (map (rule_contribution page) rules).
Proof.
  revert acc. induction rules as [|rule rules IH]; intros acc; simpl.
  - by rewrite app_nil_r.
  - by rewrite IH, selector_step_contribution, <- app_assoc.
Qed.

Lemma extract_element_data_Some (h : ElementHandle) (cat : string)
    (e : Element) :
  _extract_element_data h cat = Some e <->
  exists el, h = Attached el /\
    data_visible (snapshot el) = true /\
    PyStr.truthy (data_text (snapshot el)) = true /\
    e = {| tag := data_tag (snapshot el);
           text := data_text (snapshot el);
           classes := data_classes (snapshot el);
           styles := data_styles (snapshot el);
           attributes := data_attributes (snapshot el);
           position := data_position (snapshot el);
           category := cat |}.
Proof.
  unfold _extract_element_data, evaluate. destruct h as [el | e0].
  - split.
    + destruct (data_visible (snapshot el)) eqn:Hv;
        destruct (PyStr.truthy (data_text (snapshot el))) eqn:Ht;
        cbn [negb orb]; try discriminate.
      intros He. injection He as He. subst e. by exists el.
    + intros (el' & Hel & Hv & Ht & ->).
      injection Hel as Hel. subst el'. by rewrite Hv, Ht.
  - split; [discriminate |]. intros (el' & Hel & _). discriminate.
Qed.

Lemma omap_length_le {A B} (f : A -> option B) (l : list A) :
  length (omap f l) <= length l.
Proof.
  induction l as [|x l IH]; [done |].
  change (omap f (x :: l))
    with (match f x with Some y => y :: omap f l | None => omap f l end).
  destruct (f x); simpl; lia.
Qed.

(** *** The styles mapping of an extracted element *)

Lemma snapshot_styles_zip (c : ComputedStyle) :
  snapshot_styles c = list_to_map (zip style_keys (computed_values c)).
Proof.
  apply map_eq. intros k. unfold snapshot_styles, style_keys, computed_values.
  simpl. rewrite !lookup_insert, lookup_empty.
  repeat (case_decide as Hk;
          [subst k; repeat (case_decide; try discriminate); reflexivity |]).
  repeat (case_decide; try congruence).
Qed.

Lemma snapshot_styles_dom (c : ComputedStyle) :
  dom (snapshot_styles c) = list_to_set style_keys.
Proof.
  unfold snapshot_styles. rewrite !dom_insert_L, dom_empty_L.
  unfold style_keys. simpl. set_solver.
Qed.

Ltac in_list :=
  repeat first [ apply list_elem_of_here | apply list_elem_of_further ].

(** The style-driven blocks read the mapping at [classifier_keys] only. *)
Lemma style_classes_reads_classifier_keys (st st' : gmap string string) :
  (forall k, k ∈ classifier_keys -> st' !! k = st !! k) ->
  style_classes st' = style_classes st.
Proof.
  intros H.
  assert (forall k, k ∈ classifier_keys -> get st' k = get st k) as Hget.
  { intros k Hk. unfold get. by rewrite (H k Hk). }
  assert (layout_block st' = layout_block st) as E1.
  { unfold layout_block. rewrite (Hget "display"); [done |].
    unfold classifier_keys; in_list. }
  assert (font_size_block st' = font_size_block st) as E2.
  { unfold font_size_block. rewrite (Hget "fontSize"); [done |].
    unfold classifier_keys; in_list. }
  assert (font_weight_block st' = font_weight_block st) as E3.
  { unfold font_weight_block. rewrite (Hget "fontWeight"); [done |].
    unfold classifier_keys; in_list. }
  assert (color_block st' = color_block st) as E4.
  { unfold color_block. rewrite (Hget "color"); [done |].
    unfold classifier_keys; in_list. }
  assert (bg_color_block st' = bg_color_block st) as E5.
  { unfold bg_color_block. rewrite (Hget "backgroundColor"); [done |].
    unfold classifier_keys; in_list. }
  assert (padding_block st' = padding_block st) as E6.
  { unfold padding_block. rewrite (Hget "padding"); [done |].
    unfold classifier_keys; in_list. }
  assert (border_radius_block st' = border_radius_block st) as E7.
  { unfold border_radius_block. rewrite (Hget "borderRadius"); [done |].
    unfold classifier_keys; in_list. }
  assert (box_shadow_block st' = box_shadow_block st) as E8.
  { unfold box_shadow_block. rewrite (Hget "boxShadow"); [done |].
    unfold classifier_keys; in_list. }
  unfold style_classes. by rewrite E1, E2, E3, E4, E5, E6, E7, E8.
Qed.

(** *** The coroutines of the extraction *)

Lemma rendered_visible (el : DomNode) :
  data_visible (snapshot el) = rendered el.
Proof.
  unfold snapshot, rendered. cbn [data_visible]. do 2 f_equal.
  destruct (String.eqb_spec (cs_display (computedStyle el)) "none") as [-> | Hne].
  - by rewrite bool_decide_eq_true_2.
  - by rewrite bool_decide_eq_false_2.
Qed.

Lemma node_text_truthy (el : DomNode) :
  PyStr.truthy (data_text (snapshot el))
  = negb (String.eqb (node_text el) "").
Proof.
  unfold snapshot, node_text. cbn [data_text].
  by destruct (JsStr.substring0 100 _).
Qed.

(** What [_extract_element_data] returns for a handle is what the design
    says the node of the handle gives. *)
Lemma extract_element_data_node (h : ElementHandle) (cat : string) :
  _extract_element_data h cat = node_contribution cat h.
Proof.
  destruct h as [el | e]; [|reflexivity].
  unfold _extract_element_data, node_contribution, evaluate.
  rewrite rendered_visible, node_text_truthy.
  destruct (rendered el); destruct (String.eqb (node_text el) "");
    cbn [negb orb andb]; reflexivity.
Qed.

Lemma rule_yield_contribution (page : Page) (rule : string * string) :
  rule_yield page rule = rule_contribution page rule.
Proof.
  unfold rule_yield, rule_contribution.
  destruct (query_selector_all page rule.1) as [hs | e]; [|done].
  induction (take 10 hs) as [|h l IH]; [done |].
  cbn [omap list_omap]. by rewrite extract_element_data_node, IH.
Qed.

Lemma extract_element_data_await_cases (h : ElementHandle) (cat : string) :
  _extract_element_data_await h cat
  = match h with
    | Attached _ => Returns (node_contribution cat h)
    | Broken e => if is_exception e then Returns None else Raises e
    end.
Proof.
  destruct h as [el | e]; [|reflexivity].
  rewrite <- extract_element_data_node.
  unfold _extract_element_data_await, _extract_element_data, evaluate.
  by destruct (negb _ || negb _).
Qed.

(** The coroutine returns what [_extract_element_data] describes. *)
Lemma extract_element_data_await_returns (h : ElementHandle) (cat : string)
    (o : option Element) :
  _extract_element_data_await h cat = Returns o ->
  o = _extract_element_data h cat.
Proof.
  rewrite extract_element_data_await_cases, extract_element_data_node.
  destruct h as [el | e]; [by intros [= <-] |].
  destruct (is_exception e); [by intros [= <-] | discriminate].
Qed.

(** The loop over the handles: it runs to the end when every handle that
    cannot be read raises an [Exception], and then has appended what the
    nodes give; it stops at the first handle that raises something else. *)
Lemma handles_loop_spec (cat : string) (hs : list ElementHandle)
    (els : list Element) :
  ((forall e, Broken e ∈ hs -> is_exception e = true) /\
   handles_loop cat hs els
   = (Returns tt, els ++ omap (node_contribution cat) hs)) \/
  (exists e els', Broken e ∈ hs /\ is_exception e = false /\
     handles_loop cat hs els = (Raises e, els')).
Proof.
  revert els. induction hs as [|h hs IH]; intros els.
  - left. split; [by intros e ?%elem_of_nil |].
    cbn [handles_loop omap list_omap]. by rewrite app_nil_r.
  - cbn [handles_loop]. rewrite extract_element_data_await_cases.
    destruct h as [el | e0].
    + cbn [omap list_omap].
      destruct (node_contribution cat (Attached el)) as [x|].
      * destruct (IH (els ++ [x])) as [[Hok ->] | (e & els' & Hin & He & ->)].
        -- left. split; [|by rewrite <- app_assoc].
           intros e [Heq | Hin]%elem_of_cons; [discriminate | by apply Hok].
        -- right. exists e, els'. split; [by apply list_elem_of_further | done].
      * destruct (IH els) as [[Hok ->] | (e & els' & Hin & He & ->)].
        -- left. split; [|done].
           intros e [Heq | Hin]%elem_of_cons; [discriminate | by apply Hok].
        -- right. exists e, els'. split; [by apply list_elem_of_further | done].
    + destruct (is_exception e0) eqn:He0.
      * cbn [omap list_omap node_contribution].
        destruct (IH els) as [[Hok ->] | (e & els' & Hin & He & ->)].
        -- left. split; [|done].
           intros e [Heq | Hin]%elem_of_cons; [congruence | by apply Hok].
        -- right. exists e, els'. split; [by apply list_elem_of_further | done].
      * right. exists e0, els. split; [apply list_elem_of_here | done].
Qed.

Lemma selectors_loop_spec (page : Page) (rules : list (string * string))
    (els : list Element) :
  ((forall rule, rule ∈ rules -> rule_ok page rule) /\
   selectors_loop page rules els
   = (Returns tt, els ++ concat (map (rule_yield page) rules))) \/
  (exists rule e els', rule ∈ rules /\ rule_aborts page rule e /\
     selectors_loop page rules els = (Raises e, els')).
Proof.
  revert els. induction rules as [|[selector cat] rules IH]; intros els.
  - left. split; [by intros r ?%elem_of_nil |].
    cbn [selectors_loop map concat]. by rewrite app_nil_r.
  - cbn [selectors_loop]. unfold rule_ok, rule_aborts, rule_yield in *.
    destruct (query_selector_all page selector) as [hs | e0] eqn:Hq.
    + destruct (handles_loop_spec cat (take 10 hs) els)
        as [[Hok ->] | (e & els' & Hin & He & ->)].
      * destruct (IH (els ++ omap (node_contribution cat) (take 10 hs)))
          as [[Hrules ->] | (rule & e & els' & Hin & Hab & ->)].
        -- left. split.
           ++ intros rule [-> | Hin]%elem_of_cons; [|by apply Hrules].
              cbn [fst]. by rewrite Hq.
           ++ cbn [map concat fst snd]. by rewrite Hq, <- app_assoc.
        -- right. exists rule, e, els'.
           split; [by apply list_elem_of_further | done].
      * right. rewrite He. exists (selector, cat), e, els'.
        split; [apply list_elem_of_here |]. split; [|done].
        split; [done |]. right. exists hs. cbn [fst]. by rewrite Hq.
    + destruct (is_exception e0) eqn:He0.
      * destruct (IH els) as [[Hrules ->] | (rule & e & els' & Hin & Hab & ->)].
        -- left. split.
           ++ intros rule [-> | Hin]%elem_of_cons; [|by apply Hrules].
              cbn [fst]. by rewrite Hq.
           ++ cbn [map concat fst snd]. by rewrite Hq.
        -- right. exists rule, e, els'.
           split; [by apply list_elem_of_further | done].
      * right. exists (selector, cat), e0, els.
        split; [apply list_elem_of_here |]. split; [|done].
        split; [done |]. left. cbn [fst]. by rewrite Hq.
Qed.

Lemma rule_aborts_not_ok (page : Page) (rule : string * string)
    (e : exception) :
  rule_aborts page rule e -> ~ rule_ok page rule.
Proof.
  unfold rule_aborts, rule_ok. intros [He [Hq | (hs & Hq & Hin)]] Hok;
    rewrite Hq in Hok; [congruence |].
  specialize (Hok e Hin). congruence.
Qed.

(** The coroutine returns the list that [_extract_elements] describes. *)
Lemma extract_elements_await_returns (page : Page) (els : list Element) :
  _extract_elements_await page = Returns els -> els = _extract_elements page.
Proof.
  unfold _extract_elements_await, _extract_elements.
  rewrite foldl_selector_step, app_nil_l.
  generalize selectors. intros rules.
  destruct (selectors_loop_spec page rules [])
    as [[_ ->] | (rule & e & els' & _ & _ & ->)]; [|discriminate].
  rewrite app_nil_l. intros Heq. injection Heq as <-. f_equal.
  apply map_ext. intros rule. apply rule_yield_contribution.
Qed.

Lemma rule_yield_length (page : Page) (rule : string * string) :
  length (rule_yield page rule) <= 10.
Proof.
  unfold rule_yield.
  destruct (query_selector_all page rule.1) as [hs | e0]; simpl; [|lia].
  etransitivity; [apply omap_length_le |]. rewrite length_take. lia.
Qed.

Lemma elem_of_rule_yield (page : Page) (rule : string * string) (e : Element) :
  e ∈ rule_yield page rule <->
  exists hs el,
    query_selector_all page rule.1 = Returns hs /\
    Attached el ∈ take 10 hs /\
    rendered el = true /\ node_text el <> "" /\
    e = element_of_node el rule.2.
Proof.
  unfold rule_yield.
  destruct (query_selector_all page rule.1) as [hs | e0].
  - rewrite list_elem_of_omap. split.
    + intros ([el | e0] & Hin & He); [|discriminate].
      cbn [node_contribution] in He.
      destruct (rendered el) eqn:Hr; [|discriminate].
      destruct (String.eqb_spec (node_text el) "") as [Ht | Ht];
        [discriminate |].
      cbn [negb andb] in He. injection He as <-. by exists hs, el.
    + intros (hs' & el & Hq & Hin & Hr & Ht & ->). injection Hq as <-.
      exists (Attached el). split; [done |]. cbn [node_contribution].
      rewrite Hr. destruct (String.eqb_spec (node_text el) ""); done.
  - split; [by intros ?%elem_of_nil |].
    intros (hs' & el & Hq & _). discriminate.
Qed.

(** C4 (as the code has it): the seven rules are tried in their fixed
    order. The pass returns exactly when no query of a rule and no read of
    one of the first 10 nodes of a rule raises an exception outside
    [Exception]; what it returns is then the concatenation, in rule order,
    of what each rule gives: of the first 10 nodes of its query, in
    document order, those that are rendered and have a text (the cut to 10
    comes first, failing nodes are skipped after it), each recorded under
    the category of the rule, once for every rule that yields it; a node
    that cannot be read and a rule whose query fails with an [Exception]
    give nothing and cost nothing else. An exception outside [Exception]
    raised by a query or by a read aborts the pass and is raised by it. *)
Theorem extract_elements_by_rule (page : Page) :
  selectors
  = [ ("nav, [role=" +:+ dquote +:+ "navigation" +:+ dquote +:+ "]",
       "navigation");
      ("h1, h2, h3, h4, h5, h6", "header");
      ("button, [role=" +:+ dquote +:+ "button" +:+ dquote +:+ "]", "button");
      ("a[href]", "link");
      ("img[src]", "image");
      ("input, textarea, select", "form");
      ("p, span, div", "content") ] /\
  ((exists els, _extract_elements_await page = Returns els) <->
   raises_only_exceptions page) /\
  (forall els, _extract_elements_await page = Returns els ->
     els = concat (map (rule_yield page) selectors)) /\
  (forall e, _extract_elements_await page = Raises e ->
     is_exception e = false /\
     exists rule, rule ∈ selectors /\
       (query_selector_all page rule.1 = Raises e \/
        exists hs, query_selector_all page rule.1 = Returns hs /\
                   Broken e ∈ take 10 hs)) /\
  (forall rule, length (rule_yield page rule) <= 10) /\
  (forall rule e, e ∈ rule_yield page rule <->
     exists hs el,
       query_selector_all page rule.1 = Returns hs /\
       Attached el ∈ take 10 hs /\
       rendered el = true /\ node_text el <> "" /\
       e = element_of_node el rule.2) /\
  (forall rule e, e ∈ rule_yield page rule ->
     category e = rule.2 /\ text e <> "") /\
  (forall rule e0, query_selector_all page rule.1 = Raises e0 ->
     rule_yield page rule = []).
Proof.
  split; [reflexivity |].
  split.
  { unfold _extract_elements_await, raises_only_exceptions.
    destruct (selectors_loop_spec page selectors [])
      as [[Hok ->] | (rule & e & els' & Hin & Hab & ->)].
    - split; [intros _; exact Hok | intros _; by eexists].
    - split; [by intros [els ?] |].
      intros Hok. exfalso.
      by apply (rule_aborts_not_ok page rule e Hab), Hok. }
  split.
  { intros els. unfold _extract_elements_await.
    destruct (selectors_loop_spec page selectors [])
      as [[_ ->] | (rule & e & els' & _ & _ & ->)]; [|discriminate].
    by intros [= <-]. }
  split.
  { intros e. unfold _extract_elements_await.
    destruct (selectors_loop_spec page selectors [])
      as [[_ ->] | (rule & e' & els' & Hin & [He Hq] & ->)]; [discriminate |].
    intros [= <-]. split; [done |]. by exists rule. }
  split; [apply rule_yield_length |].
  split; [apply elem_of_rule_yield |].
  split.
  { intros rule e (hs & el & _ & _ & _ & Ht & ->)%elem_of_rule_yield. done. }
  intros rule e0 Hq. unfold rule_yield. by rewrite Hq.
Qed.

(** C4, the claim as stated fails: on a page with a heading, where the
    task is cancelled during the query of the link rule, the failure of
    that one rule aborts the whole pass; nothing is returned, not even the
    heading that the header rule had taken before. *)
Lemma extract_elements_aborted_by_cancellation :
  query_selector_all page_interrupted "a[href]" = Raises CancelledError /\
  rule_yield page_interrupted ("h1, h2, h3, h4, h5, h6", "header")
  = [element_of_node heading_node "header"] /\
  _extract_elements_await page_interrupted = Raises CancelledError /\
  (forall els, _extract_elements_await page_interrupted <> Returns els).
Proof.
  assert (_extract_elements_await page_interrupted = Raises CancelledError)
    as Hr by (vm_compute; reflexivity).
  split; [reflexivity |]. split; [vm_compute; reflexivity |].
  split; [exact Hr |]. intros els. rewrite Hr. discriminate.
Qed.

(** The cut to 10 handles comes before the checks, a failing query costs
    only its own rule, and a node that two rules match is taken by both:
    of twelve handles for the content rule the first ten are tried, the
    hidden one among them is dropped, and the heading is there as header
    and as content. *)
Example extract_elements_paragraphs :
  map (fun e => (category e, text e)) (_extract_elements page_paragraphs)
  = [ ("header", "Hello"); ("content", "Hello"); ("content", "p1");
      ("content", "p2"); ("content", "p3"); ("content", "p4");
      ("content", "p5"); ("content", "p6"); ("content", "p7");
      ("content", "p8") ].
Proof. vm_compute. reflexivity. Qed.

Example extract_elements_await_paragraphs :
  _extract_elements_await page_paragraphs
  = Returns (_extract_elements page_paragraphs).
Proof. vm_compute. reflexivity. Qed.

(** *** [crawl] *)

Ltac crawl_run self url :=
  unfold crawl, try_except, bind, call, raise, ret, await_new_page,
    await_close;
  destruct (browser self) as [b|] eqn:Hb; cbn [fst snd];
  [ destruct (new_page b) as [page|e0] eqn:Hnp; cbn [fst snd];
    [ destruct (goto page url (timeout self)) as [[r|]|e0] eqn:Hgoto;
      cbn [fst snd];
      [ destruct (400 <=? status r) eqn:Hst; cbn [fst snd];
        [ | destruct (wait_for_load_state page "networkidle" 15000%N)
              as [[]|e0] eqn:Hwait; cbn [fst snd];
            [ destruct (sleep page 2%N) as [[]|e0] eqn:Hsleep; cbn [fst snd];
              [ destruct (page_title page) as [t|e0] eqn:Htitle;
                cbn [fst snd];
                [ destruct (_extract_elements_await page) as [els|e0]
                    eqn:Hext; cbn [fst snd];
                  [ destruct (page_close page) as [[]|e0] eqn:Hclose;
                    cbn [fst snd] | ] | ] | ] | ] ]
      | | ]
    | ]
  | ];
  try match goal with
      | |- context [is_exception ?e] =>
          first [ is_var e; destruct (is_exception e) eqn:Hexc
                | change (is_exception e) with true ];
          cbv iota; cbn [fst snd]
      end.

(** [crawl] does one of three things. *)
Lemma crawl_cases (self : WebCrawler) (url : string) (s : Tabs) :
  (browser self = None /\
   (crawl self url s).1 = Raises (mkExc CrawlingError "Browser not initialized")) \/
  (exists b e, browser self = Some b /\ first_failure self url b e /\
     (crawl self url s).1 = Raises (if is_exception e then wrapped url e else e)) \/
  (exists t els, all_steps_succeed self url t els /\
     (crawl self url s).1
     = Returns {| url := url; title := t; elements := els |}).
Proof.
  crawl_run self url.
  all: try (left; split; reflexivity).
  all: try (right; right; exists t, els; split; [|reflexivity];
            exists b, page, r; apply Nat.leb_gt in Hst; by repeat split).
  all: right; left; exists b.
  all: try (exists e0; rewrite Hexc; split; [reflexivity |];
            split; [|reflexivity]).
  all: try (apply Nat.leb_gt in Hst).
  all: try (by apply new_page_raises).
  all: try (by eapply goto_raises; eauto).
  all: try (eapply later_failure; eauto;
            first [ by apply wait_raises
                  | by apply sleep_raises
                  | by apply title_raises
                  | by eapply extract_raises; eauto
                  | by eapply close_raises; eauto ]).
  - apply Nat.leb_le in Hst. eexists. split; [reflexivity |].
    split; [by eapply http_error; eauto | reflexivity].
  - eexists. split; [reflexivity |].
    split; [by eapply no_response; eauto | reflexivity].
Qed.

Lemma after_load_failure_functional (page : Page) (e e' : exception) :
  after_load_failure page e -> after_load_failure page e' -> e = e'.
Proof. intros H H'. destruct H; destruct H'; congruence. Qed.

Lemma first_failure_functional (self : WebCrawler) (url : string)
    (b : Browser) (e e' : exception) :
  first_failure self url b e -> first_failure self url b e' -> e = e'.
Proof.
  intros H H'.
  destruct H as [e Hn | p e Hn Hg | p Hn Hg | p r Hn Hg Hs | p r e Hn Hg Hs Ha];
    destruct H' as [e' Hn' | p' e' Hn' Hg' | p' Hn' Hg' | p' r' Hn' Hg' Hs'
                   | p' r' e' Hn' Hg' Hs' Ha'];
    try congruence.
  - assert (p' = p) as -> by congruence.
    assert (r' = r) as -> by congruence. lia.
  - assert (p' = p) as -> by congruence.
    assert (r' = r) as -> by congruence. lia.
  - assert (p' = p) as -> by congruence.
    by apply (after_load_failure_functional p).
Qed.

Lemma first_failure_not_succeed (self : WebCrawler) (url : string)
    (b : Browser) (e : exception) (t : string) (els : list Element) :
  browser self = Some b -> first_failure self url b e ->
  ~ all_steps_succeed self url t els.
Proof.
  intros Hb H (b' & p' & r' & Hb' & Hn' & Hg' & Hs' & Hw' & Hsl' & Ht' & He'
               & Hc').
  assert (b' = b) as -> by congruence.
  destruct H as [e Hn | p e Hn Hg | p Hn Hg | p r Hn Hg Hs | p r e Hn Hg Hs Ha];
    try congruence.
  - assert (p' = p) as -> by congruence.
    assert (r' = r) as -> by congruence. lia.
  - assert (p' = p) as -> by congruence.
    destruct Ha; congruence.
Qed.

(** C3 (as the code has it): [crawl] raises in two ways. Without a browser
    it raises [CrawlingError("Browser not initialized")]. With a browser it
    raises when a step of the sequence fails, that is when a call raises,
    the navigation gives no response, or the status is 400 or more: if
    what the first failing step raises derives from [Exception] (as the
    two errors of the response check do), [crawl] raises
    [CrawlingError("Failed to crawl <url>: <message of that error>")], and
    otherwise it raises that exception itself, unwrapped. So [crawl] fails
    with [CrawlingError] exactly without a browser or when the first
    failure derives from [Exception]. It returns exactly when every step
    succeeds, and then the [CrawlResult] of the url, the page title and the
    extracted elements. *)
Theorem crawl_fails_exactly (self : WebCrawler) (url : string) (s : Tabs) :
  (forall x, (crawl self url s).1 = Raises x <->
     (browser self = None /\
      x = mkExc CrawlingError "Browser not initialized") \/
     (exists b e, browser self = Some b /\ first_failure self url b e /\
        x = if is_exception e
            then mkExc CrawlingError
                   ("Failed to crawl " +:+ url +:+ ": " +:+ exc_msg e)
            else e)) /\
  (is_crawling_error (crawl self url s).1 = true <->
     browser self = None \/
     exists b e, browser self = Some b /\ first_failure self url b e /\
                 is_exception e = true) /\
  (forall res, (crawl self url s).1 = Returns res <->
     exists t els,
       all_steps_succeed self url t els /\
       res = {| url := url; title := t; elements := els |}).
Proof.
  pose proof (crawl_cases self url s) as Hcases.
  split; [|split].
  - intros x. split.
    + intros Hx.
      destruct Hcases
        as [[Hb Hr] | [(b & e & Hb & Hf & Hr) | (t & els & _ & Hr)]];
        rewrite Hr in Hx; try discriminate; injection Hx as <-.
      * by left.
      * right. by exists b, e.
    + intros [[Hb ->] | (b & e & Hb & Hf & ->)].
      * destruct Hcases
          as [[_ Hr] | [(b' & e' & Hb' & _)
                       | (t & els & (b0 & ? & ? & Hb0 & _) & _)]];
          [exact Hr | congruence | congruence].
      * destruct Hcases
          as [[Hb' _] | [(b' & e' & Hb' & Hf' & Hr) | (t & els & Hok & _)]];
          [congruence | |].
        -- assert (b' = b) as -> by congruence.
           by rewrite (first_failure_functional self url b e e' Hf Hf').
        -- by destruct (first_failure_not_succeed self url b e t els Hb Hf).
  - split.
    + intros Hc.
      destruct Hcases
        as [[Hb Hr] | [(b & e & Hb & Hf & Hr) | (t & els & _ & Hr)]];
        rewrite Hr in Hc; try discriminate.
      * by left.
      * right. exists b, e. split; [done |]. split; [done |].
        destruct (is_exception e) eqn:He; [done |].
        unfold is_crawling_error in Hc. unfold is_exception in He.
        destruct e as [[] msg]; done.
    + intros [Hb | (b & e & Hb & Hf & He)].
      * destruct Hcases
          as [[_ Hr] | [(b' & e' & Hb' & _)
                       | (t & els & (b0 & ? & ? & Hb0 & _) & _)]];
          [by rewrite Hr | congruence | congruence].
      * destruct Hcases
          as [[Hb' _] | [(b' & e' & Hb' & Hf' & Hr) | (t & els & Hok & _)]];
          [congruence | |].
        -- assert (b' = b) as -> by congruence.
           rewrite <- (first_failure_functional self url b e e' Hf Hf') in Hr.
           by rewrite Hr, He.
        -- by destruct (first_failure_not_succeed self url b e t els Hb Hf).
  - intros res. split.
    + intros Hx.
      destruct Hcases
        as [[Hb Hr] | [(b & e & Hb & Hf & Hr) | (t & els & Hok & Hr)]];
        rewrite Hr in Hx; try discriminate; injection Hx as <-.
      by exists t, els.
    + intros (t & els & Hok & ->).
      destruct Hcases
        as [[Hb' Hr] | [(b' & e' & Hb' & Hf' & Hr)
                       | (t' & els' & Hok' & Hr)]].
      * destruct Hok as (b0 & ? & ? & Hb0 & _). congruence.
      * by destruct (first_failure_not_succeed self url b' e' t els Hb' Hf').
      * rewrite Hr.
        destruct Hok as (b0 & p0 & r0 & Hb0 & Hn0 & Hg0 & _ & _ & _ & Ht0
                         & He0 & _).
        destruct Hok' as (b1 & p1 & r1 & Hb1 & Hn1 & Hg1 & _ & _ & _ & Ht1
                          & He1 & _).
        assert (b1 = b0) as -> by congruence.
        assert (p1 = p0) as -> by congruence.
        by assert (t' = t /\ els' = els) as [-> ->] by (split; congruence).
Qed.

(** C3, the claim as stated fails: when the task is cancelled during the
    navigation, a step of the sequence raises and [crawl] fails, but not
    with [CrawlingError]: the cancellation leaves [crawl] as it is. *)
Lemma crawl_cancellation_not_wrapped :
  goto page_cancelled "http://example.com/" (timeout crawler_cancelled)
  = Raises CancelledError /\
  (crawl crawler_cancelled "http://example.com/" {| opened := 0; closed := 0 |}).1
  = Raises CancelledError /\
  is_crawling_error
    (crawl crawler_cancelled "http://example.com/"
       {| opened := 0; closed := 0 |}).1 = false.
Proof. split; [reflexivity |]. split; vm_compute; reflexivity. Qed.

(** The page is closed exactly when [crawl] returns; at most one page is
    opened. *)
Lemma crawl_tabs (self : WebCrawler) (url : string) (s : Tabs) :
  opened (crawl self url s).2 <= S (opened s) /\
  closed (crawl self url s).2
  = match (crawl self url s).1 with
    | Returns _ => S (closed s)
    | Raises _ => closed s
    end.
Proof. crawl_run self url; simpl; split; lia. Qed.

(** C2, the code at the failing input: on a page that answers with HTTP
    404 [crawl] opens a page, raises, and leaves the page open. *)
Theorem crawl_http_error_leaves_page_open :
  crawl crawler_404 "http://example.com/missing" {| opened := 0; closed := 0 |}
  = (Raises (mkExc CrawlingError
       ("Failed to crawl http://example.com/missing: "
        +:+ "Failed to load http://example.com/missing: HTTP 404")),
     {| opened := 1; closed := 0 |}).
Proof. vm_compute. reflexivity. Qed.

(** On the success path the page is closed before [crawl] returns. *)
Example crawl_hello_closes_page :
  exists res,
    crawl crawler_hello "http://example.com/" {| opened := 0; closed := 0 |}
    = (Returns res, {| opened := 1; closed := 1 |}) /\
    map category (elements res) = ["header"] /\
    map text (elements res) = ["Hello"].
Proof. eexists. split; [reflexivity |]. split; reflexivity. Qed.


(** *** The styles mapping of an extracted element, continued *)

(** C9 (as the code has it): the styles mapping of every extracted element
    has exactly the twelve keys display, position, width, height, padding,
    margin, fontSize, fontWeight, color, backgroundColor, borderRadius and
    boxShadow, each mapped to the node's computed value of that property,
    and the classifier reads the mapping under keys among these twelve
    only. *)
Theorem extracted_styles_keys (h : ElementHandle) (cat : string)
    (e : Element) :
  _extract_element_data h cat = Some e ->
  exists el,
    h = Attached el /\
    dom (styles e) = list_to_set style_keys /\
    styles e
    = list_to_map (zip style_keys (computed_values (computedStyle el))) /\
    length style_keys = 12 /\ NoDup style_keys /\
    classifier_keys ⊆ style_keys /\
    (forall st',
       (forall k, k ∈ classifier_keys -> st' !! k = styles e !! k) ->
       style_classes st' = style_classes (styles e)).
Proof.
  intros He. apply extract_element_data_Some in He as (el & -> & _ & _ & ->).
  exists el. cbn [styles]. unfold snapshot at 1 2. cbn [data_styles].
  split; [done |].
  split; [apply snapshot_styles_dom |].
  split; [apply snapshot_styles_zip |].
  split; [reflexivity |].
  split.
  { unfold style_keys. repeat (apply NoDup_cons; split;
      [intros Hin; repeat (apply elem_of_cons in Hin as [Hin | Hin];
                           [discriminate |]); by apply elem_of_nil in Hin |]).
    constructor. }
  split.
  { intros k Hk. unfold classifier_keys in Hk. unfold style_keys.
    repeat (apply elem_of_cons in Hk as [-> | Hk]; [in_list |]).
    by apply elem_of_nil in Hk. }
  intros st' H. by apply style_classes_reads_classifier_keys.
Qed.

Lemma extracted_styles_keys_witness :
  exists e,
    _extract_element_data (Attached heading_node) "header" = Some e /\
    exists el,
      Attached heading_node = Attached el /\
      dom (styles e) = list_to_set style_keys /\
      styles e
      = list_to_map (zip style_keys (computed_values (computedStyle el))) /\
      length style_keys = 12 /\ NoDup style_keys /\
      classifier_keys ⊆ style_keys /\
      (forall st',
         (forall k, k ∈ classifier_keys -> st' !! k = styles e !! k) ->
         style_classes st' = style_classes (styles e)).
Proof.
  eexists. split; [reflexivity |].
  apply (extracted_styles_keys (Attached heading_node) "header").
  reflexivity.
Defined.

(** C9, the claim as stated fails: the mapping of an extracted heading has
    no key font-size, its keys are not the documented names, and the
    classifier ignores a font size stored under font-size. *)
Lemma styles_keys_not_documented_names :
  exists e,
    _extract_element_data (Attached heading_node) "header" = Some e /\
    styles e !! "font-size" = None /\
    styles e !! "fontSize" = Some "24px" /\
    dom (styles e) <> list_to_set documented_style_names /\
    style_classes {[ "font-size" := "24px" ]} = [] /\
    style_classes {[ "fontSize" := "24px" ]} = ["text-2xl"].
Proof.
  eexists. split; [reflexivity |]. cbn [styles].
  unfold snapshot. cbn [data_styles].
  assert (snapshot_styles (computedStyle heading_node) !! "font-size" = None)
    as Hnone.
  { unfold snapshot_styles. rewrite !lookup_insert, lookup_empty.
    repeat (case_decide; [discriminate |]). reflexivity. }
  split; [exact Hnone |].
  split.
  { unfold snapshot_styles. rewrite !lookup_insert.
    repeat (case_decide; [discriminate |]). by case_decide. }
  split.
  { intros Hdom.
    assert ("font-size" ∈ dom (snapshot_styles (computedStyle heading_node)))
      as Hin.
    { rewrite Hdom. unfold documented_style_names. simpl. set_solver. }
    apply elem_of_dom in Hin as [v Hv]. congruence. }
  split; vm_compute; reflexivity.
Qed.

End CrawlerFacts.

(** ** Markup of one element *)

Module MarkupFacts.
Import Crawler Generator Spec Samples PyStr PyStrFacts.

(** C6 (as the code has it): for every element whose tag is not one of the
    self-closing img, input, br, hr and whose cleaned text is longer than
    50 characters, the markup of the element carries, between its opening
    and closing tag, exactly the first 50 characters of the cleaned text
    followed by three dots. An element with one of the four self-closing
    tags is emitted as the tag with its attributes and nothing else: its
    markup is the same whatever its text is. *)
Theorem long_text_truncated (e : Element) (indent : nat) :
  (tag e ∉ ["img"; "input"; "br"; "hr"] ->
   50 < String.length (_clean_text (text e)) ->
   _element_to_jsx e indent
   = "<" +:+ tag e +:+ _get_jsx_attributes e (_generate_tailwind_classes e)
     +:+ ">" +:+ (slice_to 50 (_clean_text (text e)) +:+ "...")
     +:+ "</" +:+ tag e +:+ ">" /\
   String.length (slice_to 50 (_clean_text (text e))) = 50) /\
  (tag e ∈ ["img"; "input"; "br"; "hr"] ->
   _element_to_jsx e indent
   = "<" +:+ tag e +:+ _get_jsx_attributes e (_generate_tailwind_classes e)
     +:+ " />" /\
   forall t, _element_to_jsx (with_text e t) indent = _element_to_jsx e indent).
Proof.
  split.
  - intros Htag Hlen. split.
    + unfold _element_to_jsx. rewrite bool_decide_false by exact Htag.
      apply Nat.ltb_lt in Hlen. by rewrite Hlen.
    + apply length_slice_to. lia.
  - intros Htag. split.
    + unfold _element_to_jsx. by rewrite bool_decide_true by exact Htag.
    + intros t. unfold _element_to_jsx.
      change (tag (with_text e t)) with (tag e).
      by rewrite !bool_decide_true by exact Htag.
Qed.

(** The four self-closing tags, each with 61 characters of text: none of
    the text is in the markup. *)
Example self_closing_tags_without_text :
  map (fun t => _element_to_jsx
                  {| tag := t; text := long_text; classes := "";
                     styles := ∅; attributes := ∅; position := ∅;
                     category := "content" |} 6)
      ["img"; "input"; "br"; "hr"]
  = [ "<img className=" +:+ dquote +:+ "p-2" +:+ dquote +:+ " />";
      "<input className=" +:+ dquote +:+ "p-2" +:+ dquote
      +:+ " type=" +:+ dquote +:+ "text" +:+ dquote +:+ " />";
      "<br className=" +:+ dquote +:+ "p-2" +:+ dquote +:+ " />";
      "<hr className=" +:+ dquote +:+ "p-2" +:+ dquote +:+ " />" ].
Proof. vm_compute. reflexivity. Qed.

(** C6, the claim as stated fails: an [img] element with 61 characters of
    cleaned text is emitted self-closing, and its markup carries neither
    the truncated text nor the dots. *)
Lemma long_text_dropped_on_self_closing_tag :
  50 < String.length (_clean_text (text long_image)) /\
  _element_to_jsx long_image 8
  = "<img className=" +:+ dquote +:+ "p-2" +:+ dquote
    +:+ " src=" +:+ dquote +:+ "http://example.com/a.png" +:+ dquote
    +:+ " alt=" +:+ dquote +:+ dquote +:+ " />" /\
  contains (slice_to 50 (_clean_text (text long_image)) +:+ "...")
           (_element_to_jsx long_image 8) = false /\
  contains "..." (_element_to_jsx long_image 8) = false.
Proof.
  split; [vm_compute; lia |]. split; [vm_compute; reflexivity |].
  split; vm_compute; reflexivity.
Qed.

End MarkupFacts.

(** ** Saving the output file *)

Module UtilsFacts.
Import Utils Spec Samples PyStr PyStrFacts.

(** *** Paths and their names *)

Lemma append_cancel_r (a b s : string) : a +:+ s = b +:+ s -> a = b.
Proof.
  revert b. induction a as [|c a IH]; intros b Heq.
  - destruct b as [|d b]; [done |].
    apply (f_equal String.length) in Heq.
    rewrite !length_append in Heq. simpl in Heq. lia.
  - destruct b as [|d b].
    + apply (f_equal String.length) in Heq.
      rewrite !length_append in Heq. simpl in Heq. lia.
    + simpl in Heq. injection Heq as -> Heq. f_equal. by apply IH.
Qed.

Lemma parent_numbered (path : list string) (st sx : string) (k : nat) :
  parent (numbered path st sx k) = parent path.
Proof. unfold numbered, parent. apply removelast_last. Qed.

Lemma numbered_numbered (path : list string) (st sx : string) (k j : nat) :
  numbered (numbered path st sx k) st sx j = numbered path st sx j.
Proof. unfold numbered at 1. rewrite parent_numbered. reflexivity. Qed.

Lemma numbered_inj (path : list string) (st sx : string) (k j : nat) :
  numbered path st sx k = numbered path st sx j -> k = j.
Proof.
  unfold numbered. intros Heq. apply app_inj_tail in Heq as [_ Heq].
  apply String.app_inj in Heq. apply String.app_inj in Heq.
  apply append_cancel_r in Heq. by apply pretty_nat_inj in Heq.
Qed.

Lemma length_numbered (path : list string) (st sx : string) (k : nat) :
  length (numbered path st sx k) = S (length (parent path)).
Proof. unfold numbered. rewrite length_app. simpl. lia. Qed.

Lemma length_parent (path : list string) :
  path <> [] -> length path = S (length (parent path)).
Proof.
  intros Hne. unfold parent.
  destruct (app_removelast_last "" Hne) as [].
  rewrite (app_removelast_last "" Hne) at 1.
  rewrite length_app. simpl. lia.
Qed.

(** *** What exists *)

Lemma path_exists_true (fs : gmap (list string) node) (q : list string) :
  path_exists fs q = true <-> q = [] \/ is_Some (fs !! q).
Proof.
  unfold path_exists. destruct q as [|c q]; [tauto |].
  rewrite bool_decide_eq_true. split; [by right |].
  intros [Hnil | Hsome]; [discriminate | done].
Qed.

Lemma path_exists_false (fs : gmap (list string) node) (q : list string) :
  path_exists fs q = false <-> q <> [] /\ fs !! q = None.
Proof.
  unfold path_exists. destruct q as [|c q].
  - split; [discriminate | by intros [? _]].
  - rewrite bool_decide_eq_false, <- eq_None_not_Some.
    split; [by split | by intros [_ ?]].
Qed.

Lemma is_dir_exists (fs : gmap (list string) node) (q : list string) :
  is_dir fs q = true -> path_exists fs q = true.
Proof.
  unfold is_dir. intros H. apply path_exists_true.
  destruct q as [|c q]; [by left | right].
  destruct (fs !! (c :: q)) as [[]|]; done.
Qed.

Lemma adds_dirs_refl (n : nat) (fs : gmap (list string) node) :
  adds_dirs n fs fs.
Proof.
  split; [done |]. intros q Hq [v Hv]. congruence.
Qed.

Lemma adds_dirs_trans (n m : nat) (a b c : gmap (list string) node) :
  adds_dirs n a b -> adds_dirs m b c -> adds_dirs (n `max` m) a c.
Proof.
  intros [Hab Hnew1] [Hbc Hnew2]. split; [by etransitivity |].
  intros q Ha Hc. destruct (b !! q) as [v|] eqn:Hb.
  - destruct (Hnew1 q Ha (mk_is_Some _ _ Hb)) as [Hd Hl].
    split; [|lia]. eapply lookup_weaken; [exact Hd | exact Hbc].
  - destruct (Hnew2 q Hb Hc) as [Hd Hl]. split; [done | lia].
Qed.

Lemma adds_dirs_mono (n m : nat) (a b : gmap (list string) node) :
  n <= m -> adds_dirs n a b -> adds_dirs m a b.
Proof.
  intros Hnm [Hab Hnew]. split; [done |].
  intros q Ha Hb. destruct (Hnew q Ha Hb). split; [done | lia].
Qed.

(** A longer path exists after the directories were added exactly when it
    did before. *)
Lemma adds_dirs_exists (n : nat) (fs fs' : gmap (list string) node)
    (q : list string) :
  adds_dirs n fs fs' -> n < length q ->
  path_exists fs' q = path_exists fs q.
Proof.
  intros [Hsub Hnew] Hlen.
  destruct (path_exists fs q) eqn:Hq.
  - apply path_exists_true in Hq as [-> | [v Hv]]; [done |].
    apply path_exists_true. right. exists v. by eapply lookup_weaken.
  - apply path_exists_false in Hq as [Hne Hnone].
    apply path_exists_false. split; [done |].
    destruct (fs' !! q) as [v|] eqn:Hv; [|done].
    destruct (Hnew q Hnone (mk_is_Some _ _ Hv)). lia.
Qed.


(** *** Creating the parent directories *)

Lemma os_mkdir_adds (fs fs' : gmap (list string) node) (path : list string)
    (r : outcome unit) :
  os_mkdir fs path = (r, fs') ->
  adds_dirs (length path) fs fs' /\
  (forall u, r = Returns u -> is_dir fs' path = true).
Proof.
  unfold os_mkdir.
  destruct (path_exists fs path) eqn:Hex.
  { intros [= <- <-]. split; [apply adds_dirs_refl | discriminate]. }
  destruct (negb (path_exists fs (parent path))).
  { intros [= <- <-]. split; [apply adds_dirs_refl | discriminate]. }
  destruct (negb (is_dir fs (parent path))).
  { intros [= <- <-]. split; [apply adds_dirs_refl | discriminate]. }
  intros [= <- <-].
  apply path_exists_false in Hex as [Hne Hnone]. split.
  - split; [by apply insert_subseteq |].
    intros q Hq Hsome. destruct (decide (path = q)) as [<- | Hneq].
    + by rewrite lookup_insert_eq.
    + rewrite lookup_insert_ne in Hsome by done.
      destruct Hsome as [v Hv]. congruence.
  - intros _ _. unfold is_dir. destruct path as [|c path]; [done |].
    by rewrite lookup_insert_eq.
Qed.

Lemma mkdir_parents_unfold (fs : gmap (list string) node)
    (rpath : list string) :
  mkdir_parents fs rpath
  = match os_mkdir fs (rev rpath) with
    | (Returns u, fs') => (Returns u, fs')
    | (Raises e, fs') =>
        if is_FileNotFoundError e
        then match rpath with
             | [] => (Raises e, fs')
             | _ :: rparent =>
                 match mkdir_parents fs' rparent with
                 | (Raises e1, fs1) => (Raises e1, fs1)
                 | (Returns _, fs1) =>
                     match os_mkdir fs1 (rev rpath) with
                     | (Returns u, fs2) => (Returns u, fs2)
                     | (Raises e2, fs2) =>
                         if is_dir fs2 (rev rpath) then (Returns tt, fs2)
                         else (Raises e2, fs2)
                     end
                 end
             end
        else if is_dir fs' (rev rpath) then (Returns tt, fs')
        else (Raises e, fs')
    end.
Proof. destruct rpath; reflexivity. Qed.

(** [mkdir(parents=True, exist_ok=True)] keeps every entry, adds only
    directories no deeper than its argument, and when it returns its
    argument is a directory. *)
Lemma mkdir_parents_adds (rpath : list string) :
  forall (fs fs' : gmap (list string) node) (r : outcome unit),
    mkdir_parents fs rpath = (r, fs') ->
    adds_dirs (length rpath) fs fs' /\
    (forall u, r = Returns u -> is_dir fs' (rev rpath) = true).
Proof.
  induction rpath as [|c rparent IH]; intros fs fs' r;
    rewrite mkdir_parents_unfold.
  - destruct (os_mkdir fs (rev [])) as [[u|e] fs0] eqn:Hos;
      apply os_mkdir_adds in Hos as [Hadd Hdir].
    + intros [= <- <-]. split; [exact Hadd | intros; by eapply Hdir].
    + destruct (is_FileNotFoundError e).
      * intros [= <- <-]. split; [exact Hadd | discriminate].
      * destruct (is_dir fs0 (rev [])) eqn:Hd; intros [= <- <-];
          (split; [exact Hadd | done]).
  - destruct (os_mkdir fs (rev (c :: rparent))) as [[u|e] fs0] eqn:Hos;
      apply os_mkdir_adds in Hos as [Hadd Hdir];
      rewrite length_rev in Hadd.
    + intros [= <- <-]. split; [exact Hadd | intros; by eapply Hdir].
    + destruct (is_FileNotFoundError e).
      * destruct (mkdir_parents fs0 rparent) as [[u1|e1] fs1] eqn:Hrec;
          apply IH in Hrec as [Hadd1 _].
        -- destruct (os_mkdir fs1 (rev (c :: rparent))) as [[u2|e2] fs2]
             eqn:Hos2;
             apply os_mkdir_adds in Hos2 as [Hadd2 Hdir2];
             rewrite length_rev in Hadd2.
           ++ intros [= <- <-]. split; [|intros; by eapply Hdir2].
              eapply adds_dirs_mono;
                [|eapply adds_dirs_trans;
                  [exact Hadd | eapply adds_dirs_trans; eassumption]].
              simpl. lia.
           ++ assert (adds_dirs (length (c :: rparent)) fs fs2) as Hall.
              { eapply adds_dirs_mono;
                  [|eapply adds_dirs_trans;
                    [exact Hadd | eapply adds_dirs_trans; eassumption]].
                simpl. lia. }
              destruct (is_dir fs2 (rev (c :: rparent))) eqn:Hd;
                intros [= <- <-]; (split; [exact Hall | done]).
        -- intros [= <- <-]. split; [|discriminate].
           eapply adds_dirs_mono;
             [|eapply adds_dirs_trans; [exact Hadd | exact Hadd1]].
           simpl. lia.
      * destruct (is_dir fs0 (rev (c :: rparent))) eqn:Hd; intros [= <- <-];
          (split; [exact Hadd | done]).
Qed.

(** When the parent is a directory already, nothing is created. *)
Lemma mkdir_parents_existing (fs : gmap (list string) node)
    (rpath : list string) :
  is_dir fs (rev rpath) = true ->
  mkdir_parents fs rpath = (Returns tt, fs).
Proof.
  intros Hd. rewrite mkdir_parents_unfold. unfold os_mkdir.
  rewrite (is_dir_exists _ _ Hd). simpl. by rewrite Hd.
Qed.


(** *** The search for a free name *)

Lemma unique_loop_unfold (fuel : nat) (fs : gmap (list string) node)
    (st sx : string) (path : list string) (counter : nat) :
  unique_loop fuel fs st sx path counter
  = if path_exists fs path
    then match fuel with
         | 0 => None
         | S fuel' =>
             unique_loop fuel' fs st sx (numbered path st sx counter)
                         (S counter)
         end
    else Some path.
Proof. destruct fuel; reflexivity. Qed.

(** The loop stops at the first free name: at [path] itself, or at the
    least number from [counter] on whose name is free. *)
Lemma unique_loop_sound (fuel : nat) :
  forall (fs : gmap (list string) node) (st sx : string)
         (path : list string) (counter : nat) (p' : list string),
    unique_loop fuel fs st sx path counter = Some p' ->
    path_exists fs p' = false /\
    (p' = path \/
     exists k, counter <= k /\ p' = numbered path st sx k /\
       path_exists fs path = true /\
       forall j, counter <= j < k ->
                 path_exists fs (numbered path st sx j) = true).
Proof.
  induction fuel as [|fuel IH]; intros fs st sx path counter p';
    rewrite unique_loop_unfold;
    destruct (path_exists fs path) eqn:Hex; try discriminate;
    try (intros Heq; injection Heq as Heq; subst p';
         split; [exact Hex | by left]).
  intros Hloop. apply IH in Hloop as [Hfree Hwhich].
  split; [done |]. right.
  destruct Hwhich as [-> | (k & Hk & -> & Hex1 & Hall)].
  - exists counter. split; [lia |]. split; [done |]. split; [done |].
    intros j Hj. lia.
  - exists k. rewrite numbered_numbered.
    split; [lia |]. split; [done |]. split; [done |].
    intros j Hj. destruct (decide (j = counter)) as [-> | Hne]; [done |].
    rewrite <- (numbered_numbered path st sx counter j). apply Hall. lia.
Qed.

(** The loop returns when a free name is within reach of the fuel. *)
Lemma unique_loop_total (fuel : nat) :
  forall (fs : gmap (list string) node) (st sx : string)
         (path : list string) (counter k : nat),
    counter <= k -> k - counter < fuel ->
    path_exists fs (numbered path st sx k) = false ->
    is_Some (unique_loop fuel fs st sx path counter).
Proof.
  induction fuel as [|fuel IH]; intros fs st sx path counter k Hk Hfuel Hfree;
    [lia |].
  rewrite unique_loop_unfold.
  destruct (path_exists fs path); [|done].
  destruct (decide (k = counter)) as [-> | Hne].
  - rewrite unique_loop_unfold, Hfree. done.
  - apply (IH _ _ _ _ _ k); [lia | lia |]. by rewrite numbered_numbered.
Qed.

(** Among the first [size fs + 1] numbered names one is free. *)
Lemma free_number_exists (fs : gmap (list string) node) (path : list string)
    (st sx : string) :
  exists k, 1 <= k <= S (size fs) /\
            path_exists fs (numbered path st sx k) = false.
Proof.
  set (cands := numbered path st sx <$> seq 1 (S (size fs))).
  destruct (decide (Forall (fun q => path_exists fs q = true) cands))
    as [Hall | Hnot].
  - exfalso.
    assert (NoDup cands) as Hnd.
    { apply NoDup_fmap_2_strong; [|apply NoDup_seq].
      intros k j _ _. apply numbered_inj. }
    assert (list_to_set cands ⊆ dom fs) as Hsub.
    { intros q Hq. apply elem_of_list_to_set in Hq.
      pose proof (proj1 (Forall_forall _ _) Hall q Hq) as Hex.
      apply path_exists_true in Hex as [-> | Hsome].
      - apply list_elem_of_fmap in Hq as (k & Hk & _).
        apply (f_equal length) in Hk. rewrite length_numbered in Hk.
        discriminate.
      - by apply elem_of_dom. }
    apply (subseteq_size (C := gset (list string))) in Hsub.
    rewrite size_list_to_set in Hsub by done.
    rewrite size_dom in Hsub. unfold cands in Hsub.
    rewrite length_fmap, length_seq in Hsub. lia.
  - apply not_Forall_Exists in Hnot; [|intros q; apply _].
    apply Exists_exists in Hnot as (q & Hq & Hfree).
    apply list_elem_of_fmap in Hq as (k & -> & Hk).
    apply elem_of_seq in Hk. exists k. split; [lia |].
    by apply not_true_is_false.
Qed.


(** *** [save_file] *)

Lemma open_write_fresh (fs : gmap (list string) node) (p' : list string)
    (content : string) :
  path_exists fs p' = false -> is_dir fs (parent p') = true ->
  open_write fs p' content = (Returns tt, <[p' := File content]> fs).
Proof.
  intros Hfree Hdir. unfold open_write.
  destruct (is_dir fs p') eqn:Hd.
  { apply is_dir_exists in Hd. congruence. }
  by rewrite (is_dir_exists _ _ Hdir), Hdir.
Qed.

(** Once the parent directories are there, [save_file] returns: it writes
    [content] to a path that did not exist, [path] itself when it was free
    and else the first free numbered name. *)
Lemma save_file_after_mkdir (fs fs1 : gmap (list string) node)
    (content : string) (path : list string) (u : unit) :
  mkdir_parents fs (rev (parent path)) = (Returns u, fs1) ->
  exists p',
    save_file fs content path
    = Some (Returns p', <[p' := File content]> fs1) /\
    path_exists fs1 p' = false /\
    ((path_exists fs1 path = false /\ p' = path) \/
     (path_exists fs1 path = true /\
      exists k, 1 <= k /\ p' = numbered path (stem path) (suffix path) k /\
        forall j, 1 <= j < k ->
          path_exists fs1 (numbered path (stem path) (suffix path) j)
          = true)).
Proof.
  intros Hmk. unfold save_file. rewrite Hmk.
  apply mkdir_parents_adds in Hmk as [_ Hdir].
  specialize (Hdir u eq_refl). rewrite rev_involutive in Hdir.
  destruct (path_exists fs1 path) eqn:Hex.
  - destruct (free_number_exists fs1 path (stem path) (suffix path))
      as (k & Hk & Hfree).
    destruct (unique_loop_total (S (size fs1)) fs1 (stem path) (suffix path)
                path 1 k) as [p' Hloop]; [lia | lia | done |].
    rewrite Hloop.
    apply unique_loop_sound in Hloop as [Hfree' Hwhich].
    destruct Hwhich as [-> | (k' & Hk' & -> & _ & Hall)]; [congruence |].
    exists (numbered path (stem path) (suffix path) k').
    rewrite open_write_fresh; [|done | by rewrite parent_numbered].
    split; [done |]. split; [done |]. right. split; [done |].
    by exists k'.
  - exists path. rewrite open_write_fresh by done.
    split; [done |]. split; [done |]. by left.
Qed.

(** C7: [save_file] always returns or raises (the search for a free name
    ends); every entry of the file system is afterwards what it was, so
    nothing is overwritten or deleted; the file is written to a path that
    did not exist: the given one when it was free, and otherwise the name
    with the least number, from 1 on, that was free, the number put after
    an underscore between stem and extension. With Foo.jsx there the file
    goes to Foo_1.jsx, and with Foo_1.jsx there as well to Foo_2.jsx. *)
Theorem save_file_never_overwrites (fs : gmap (list string) node)
    (content : string) (path : list string) :
  exists r fs',
    save_file fs content path = Some (r, fs') /\
    fs ⊆ fs' /\
    (is_dir fs (parent path) = true -> exists p', r = Returns p') /\
    (forall p', r = Returns p' ->
       path_exists fs p' = false /\
       fs' !! p' = Some (File content) /\
       (path_exists fs path = false -> p' = path) /\
       (path_exists fs path = true ->
        exists k, 1 <= k /\
          p' = numbered path (stem path) (suffix path) k /\
          forall j, 1 <= j < k ->
            path_exists fs (numbered path (stem path) (suffix path) j)
            = true)) /\
    (forall dir,
       path = dir ++ ["Foo.jsx"] -> is_dir fs dir = true ->
       path_exists fs (dir ++ ["Foo.jsx"]) = true ->
       (path_exists fs (dir ++ ["Foo_1.jsx"]) = false ->
        r = Returns (dir ++ ["Foo_1.jsx"])) /\
       (path_exists fs (dir ++ ["Foo_1.jsx"]) = true ->
        path_exists fs (dir ++ ["Foo_2.jsx"]) = false ->
        r = Returns (dir ++ ["Foo_2.jsx"]))).
Proof.
  destruct (mkdir_parents fs (rev (parent path))) as [[u|e] fs1] eqn:Hmk.
  2: { exists (Raises e), fs1. split.
       { unfold save_file. by rewrite Hmk. }
       pose proof (mkdir_parents_adds _ _ _ _ Hmk) as [[Hsub _] _].
       split; [done |]. split.
       { intros Hd. rewrite mkdir_parents_existing in Hmk; [discriminate |].
         by rewrite rev_involutive. }
       split; [discriminate |].
       intros dir -> Hd _.
       rewrite mkdir_parents_existing in Hmk; [discriminate |].
       rewrite rev_involutive. unfold parent. by rewrite removelast_last. }
  destruct (save_file_after_mkdir fs fs1 content path u Hmk)
    as (p' & Hsave & Hfree1 & Hwhich).
  apply mkdir_parents_adds in Hmk as [Hadd _]. rewrite length_rev in Hadd.
  assert (forall q, length q = S (length (parent path)) ->
                    path_exists fs1 q = path_exists fs q) as Hsame.
  { intros q Hq. apply (adds_dirs_exists _ _ _ _ Hadd). lia. }
  assert (path_exists fs1 path = path_exists fs path) as Hpath.
  { destruct (decide (path = [])) as [-> | Hne]; [done |].
    apply Hsame. by apply length_parent. }
  assert (length p' = S (length (parent path))) as Hlen.
  { destruct Hwhich as [[Hex ->] | [_ (k & _ & -> & _)]].
    - apply length_parent. intros ->. discriminate.
    - apply length_numbered. }
  assert (path_exists fs p' = false) as Hfree by (by rewrite <- Hsame).
  assert (forall p0, Returns p' = Returns p0 ->
     path_exists fs p0 = false /\
     <[p' := File content]> fs1 !! p0 = Some (File content) /\
     (path_exists fs path = false -> p0 = path) /\
     (path_exists fs path = true ->
      exists k, 1 <= k /\
        p0 = numbered path (stem path) (suffix path) k /\
        forall j, 1 <= j < k ->
          path_exists fs (numbered path (stem path) (suffix path) j)
          = true)) as Hspec.
  { intros p0 [= <-]. split; [done |].
    split; [by rewrite lookup_insert_eq |].
    rewrite <- Hpath. split.
    - intros Hex. destruct Hwhich as [[_ ->] | [Hex' _]]; congruence.
    - intros Hex. destruct Hwhich as [[Hex' _] | [_ (k & Hk & -> & Hall)]];
        [congruence |].
      exists k. split; [done |]. split; [done |].
      intros j Hj. rewrite <- Hsame; [by apply Hall |].
      apply length_numbered. }
  exists (Returns p'), (<[p' := File content]> fs1).
  split; [done |].
  split.
  { destruct Hadd as [Hsub _]. etransitivity; [exact Hsub |].
    apply insert_subseteq. by apply path_exists_false in Hfree1 as [_ ?]. }
  split; [by exists p' |].
  split; [exact Hspec |].
  intros dir Hdirpath Hd Hex.
  destruct (Hspec p' eq_refl) as (_ & _ & _ & Hnum). subst path.
  destruct (Hnum Hex) as (k & Hk & Hp' & Hall). clear Hnum.
  assert (forall n, numbered (dir ++ ["Foo.jsx"]) (stem (dir ++ ["Foo.jsx"]))
                      (suffix (dir ++ ["Foo.jsx"])) n
                    = dir ++ ["Foo_" +:+ pretty n +:+ ".jsx"]) as Hname.
  { intros n. unfold numbered, stem, suffix, name, parent.
    rewrite removelast_last, last_snoc. reflexivity. }
  assert (numbered (dir ++ ["Foo.jsx"]) (stem (dir ++ ["Foo.jsx"]))
            (suffix (dir ++ ["Foo.jsx"])) 1 = dir ++ ["Foo_1.jsx"]) as E1.
  { rewrite Hname. do 2 f_equal. }
  assert (numbered (dir ++ ["Foo.jsx"]) (stem (dir ++ ["Foo.jsx"]))
            (suffix (dir ++ ["Foo.jsx"])) 2 = dir ++ ["Foo_2.jsx"]) as E2.
  { rewrite Hname. do 2 f_equal. }
  split.
  - intros Hfree_1. destruct (decide (k = 1)) as [-> | Hne].
    + by rewrite Hp', E1.
    + rewrite <- E1, (Hall 1) in Hfree_1 by lia. discriminate.
  - intros Hex_1 Hfree_2. destruct (decide (k = 2)) as [-> | Hne2].
    + by rewrite Hp', E2.
    + destruct (decide (k = 1)) as [-> | Hne1].
      * rewrite Hp', E1 in Hfree. congruence.
      * rewrite <- E2, (Hall 2) in Hfree_2 by lia. discriminate.
Qed.

(** The two cases of the design document, run on a directory that holds
    [Foo.jsx], and then [Foo_1.jsx] too: the existing files keep their
    content. *)
Example save_file_Foo_1 :
  fst <$> save_file fs_foo "new" ["generated"; "Foo.jsx"]
  = Some (Returns ["generated"; "Foo_1.jsx"]) /\
  (fun r => r.2 !! ["generated"; "Foo.jsx"])
    <$> save_file fs_foo "new" ["generated"; "Foo.jsx"]
  = Some (Some (File "first")) /\
  (fun r => r.2 !! ["generated"; "Foo_1.jsx"])
    <$> save_file fs_foo "new" ["generated"; "Foo.jsx"]
  = Some (Some (File "new")).
Proof. repeat split; vm_compute; reflexivity. Qed.

Example save_file_Foo_2 :
  fst <$> save_file fs_foo_1 "new" ["generated"; "Foo.jsx"]
  = Some (Returns ["generated"; "Foo_2.jsx"]) /\
  (fun r => r.2 !! ["generated"; "Foo.jsx"])
    <$> save_file fs_foo_1 "new" ["generated"; "Foo.jsx"]
  = Some (Some (File "first")) /\
  (fun r => r.2 !! ["generated"; "Foo_1.jsx"])
    <$> save_file fs_foo_1 "new" ["generated"; "Foo.jsx"]
  = Some (Some (File "second")) /\
  (fun r => r.2 !! ["generated"; "Foo_2.jsx"])
    <$> save_file fs_foo_1 "new" ["generated"; "Foo.jsx"]
  = Some (Some (File "new")).
Proof. repeat split; vm_compute; reflexivity. Qed.

End UtilsFacts.

(* ===================================================================== *)
(** * Further properties *)
(* ===================================================================== *)

(** ** [_clean_text] *)

Module CleanTextFacts.
Import Crawler Generator SpecMore PyStr PyStrFacts ReSem.

Lemma lstrip_first_ok (ws : ascii -> bool) (s : string) :
  first_ok ws (lstrip_with ws s) = true.
Proof.
  induction s as [|c s IH]; simpl; [done |].
  destruct (ws c) eqn:Hc; [done |]. simpl. by rewrite Hc.
Qed.

Lemma rstrip_cons (ws : ascii -> bool) (c : ascii) (s : string) :
  rstrip_with ws (String c s) = ""
  \/ exists r, rstrip_with ws (String c s) = String c r.
Proof.
  simpl. destruct (rstrip_with ws s); [destruct (ws c) |]; eauto.
Qed.

Lemma rstrip_first_ok (ws : ascii -> bool) (s : string) :
  first_ok ws s = true -> first_ok ws (rstrip_with ws s) = true.
Proof.
  destruct s as [|c s]; [done |]. intros Hc.
  destruct (rstrip_cons ws c s) as [-> | [r ->]]; done.
Qed.

Lemma rstrip_last_ok (ws : ascii -> bool) (s : string) :
  last_ok ws (rstrip_with ws s) = true.
Proof.
  induction s as [|c s IH]; simpl; [done |].
  destruct (rstrip_with ws s) as [|d r] eqn:Hr.
  - destruct (ws c) eqn:Hc; simpl; [done | by rewrite Hc].
  - exact IH.
Qed.

Lemma last_ok_cons (ws : ascii -> bool) (c : ascii) (s : string) :
  s <> "" -> last_ok ws (String c s) = last_ok ws s.
Proof. by destruct s. Qed.

Lemma last_ok_app (ws : ascii -> bool) (s1 s2 : string) :
  s2 <> "" -> last_ok ws (s1 +:+ s2) = last_ok ws s2.
Proof.
  intros Hne. induction s1 as [|c s1 IH]; [done |].
  change (String c s1 +:+ s2) with (String c (s1 +:+ s2)).
  rewrite last_ok_cons; [done |]. by destruct s1, s2.
Qed.

(** A string that starts and ends without whitespace is its own strip. *)
Lemma lstrip_id (ws : ascii -> bool) (s : string) :
  first_ok ws s = true -> lstrip_with ws s = s.
Proof.
  destruct s as [|c s]; simpl; [done |]. intros Hc.
  apply negb_true_iff in Hc. by rewrite Hc.
Qed.

Lemma rstrip_id (ws : ascii -> bool) (s : string) :
  last_ok ws s = true -> rstrip_with ws s = s.
Proof.
  induction s as [|c s IH]; [done |].
  destruct s as [|d s].
  - simpl. intros Hc. apply negb_true_iff in Hc. by rewrite Hc.
  - intros Hl. rewrite last_ok_cons in Hl by done.
    change (rstrip_with ws (String c (String d s)))
      with (match rstrip_with ws (String d s) with
            | "" => if ws c then "" else String c ""
            | r => String c r
            end).
    by rewrite (IH Hl).
Qed.


(** *** Replacing a character *)

Lemma replace_nonempty (old : ascii) (new s : string) :
  new <> "" -> s <> "" -> replace_char old new s <> "".
Proof.
  intros Hnew Hs. destruct s as [|c s]; [done |]. simpl.
  destruct (decide (c = old)); [|done]. by destruct new.
Qed.

Lemma replace_first_ok (old : ascii) (new s : string) :
  new <> "" ->
  isspace old = true \/ first_ok isspace new = true ->
  first_ok isspace s = true ->
  first_ok isspace (replace_char old new s) = true.
Proof.
  intros Hnew Hcase. destruct s as [|c s]; [done |]. simpl. intros Hc.
  destruct (decide (c = old)) as [-> | Hne]; [|done].
  destruct Hcase as [Hold | Hfirst].
  - rewrite Hold in Hc. discriminate.
  - by destruct new.
Qed.

Lemma replace_last_ok (old : ascii) (new s : string) :
  new <> "" ->
  isspace old = true \/ last_ok isspace new = true ->
  last_ok isspace s = true ->
  last_ok isspace (replace_char old new s) = true.
Proof.
  intros Hnew Hcase. induction s as [|c s IH]; [done |].
  destruct s as [|d s].
  - simpl. intros Hc. destruct (decide (c = old)) as [-> | Hne].
    + destruct Hcase as [Hold | Hlast].
      * rewrite Hold in Hc. discriminate.
      * by rewrite append_empty_r.
    + simpl. done.
  - intros Hl. rewrite last_ok_cons in Hl by done. specialize (IH Hl).
    assert (replace_char old new (String d s) <> "") as Hne
      by (by apply replace_nonempty).
    change (replace_char old new (String c (String d s)))
      with (if decide (c = old)
            then new +:+ replace_char old new (String d s)
            else String c (replace_char old new (String d s))).
    destruct (decide (c = old)).
    + by rewrite last_ok_app.
    + by rewrite last_ok_cons.
Qed.

(** *** Collapsing whitespace *)

Lemma collapse_single_spaced (s : string) :
  forall b, single_spaced b (collapse_ws b s) = true.
Proof.
  induction s as [|c s IH]; intros b; simpl; [done |].
  destruct (isspace c) eqn:Hc.
  - destruct b; [apply IH |]. simpl. by rewrite IH.
  - simpl. rewrite Hc. apply IH.
Qed.

Lemma collapse_first_ok (b : bool) (s : string) :
  first_ok isspace s = true -> first_ok isspace (collapse_ws b s) = true.
Proof.
  destruct s as [|c s]; [done |]. simpl. intros Hc.
  apply negb_true_iff in Hc. rewrite Hc. simpl. by rewrite Hc.
Qed.

Lemma collapse_nonempty (s : string) :
  forall b, s <> "" -> last_ok isspace s = true -> collapse_ws b s <> "".
Proof.
  induction s as [|c s IH]; intros b Hne Hl; [done |]. simpl.
  destruct (isspace c) eqn:Hc; [|done].
  destruct b; [|done].
  destruct s as [|d s]; [simpl in Hl; rewrite Hc in Hl; discriminate |].
  apply IH; [done |]. by rewrite last_ok_cons in Hl.
Qed.

Lemma collapse_last_ok (s : string) :
  forall b, last_ok isspace s = true ->
            last_ok isspace (collapse_ws b s) = true.
Proof.
  induction s as [|c s IH]; intros b Hl; [done |].
  destruct s as [|d s].
  - simpl in *. apply negb_true_iff in Hl. rewrite Hl. simpl. by rewrite Hl.
  - rewrite last_ok_cons in Hl by done.
    assert (forall b', collapse_ws b' (String d s) <> "") as Hne
      by (intros b'; by apply collapse_nonempty).
    change (collapse_ws b (String c (String d s)))
      with (if isspace c
            then (if b then collapse_ws true (String d s)
                  else String " " (collapse_ws true (String d s)))
            else String c (collapse_ws false (String d s))).
    destruct (isspace c); [destruct b |];
      rewrite ?last_ok_cons by apply Hne; by apply IH.
Qed.

Lemma collapse_empty (s : string) : collapse_ws false s = "" -> s = "".
Proof. destruct s as [|c s]; [done |]. simpl. by destruct (isspace c). Qed.

(** *** The cleaned text *)

Lemma clean_text_unfold (t : string) :
  t <> "" ->
  _clean_text t
  = collapse_ws false
      (replace_char "010"%char " "
         (replace_char "034"%char ("\" +:+ dquote) (strip t))).
Proof. by destruct t. Qed.

(** X1: the cleaned text is single-spaced (its only whitespace characters
    are spaces, never two in a row, so it has no newline) and has no
    whitespace at its start or end: stripping it again changes nothing. *)
Theorem clean_text_single_spaced (t : string) :
  single_spaced false (_clean_text t) = true /\
  strip (_clean_text t) = _clean_text t.
Proof.
  destruct (decide (t = "")) as [-> | Hne]; [done |].
  rewrite clean_text_unfold by done.
  split; [apply collapse_single_spaced |].
  set (u := strip t).
  assert (first_ok isspace u = true) as Hf.
  { apply rstrip_first_ok, lstrip_first_ok. }
  assert (last_ok isspace u = true) as Hl by apply rstrip_last_ok.
  unfold strip. rewrite lstrip_id.
  - apply rstrip_id, collapse_last_ok.
    apply replace_last_ok; [done | by left |].
    apply replace_last_ok; [done | by right | done].
  - apply collapse_first_ok.
    apply replace_first_ok; [done | by left |].
    apply replace_first_ok; [done | by right | done].
Qed.

Lemma quotes_escaped_mono (s : string) (b : bool) :
  quotes_escaped false s = true -> quotes_escaped b s = true.
Proof.
  destruct s as [|c s]; [done |]. simpl.
  destruct (bool_decide (c = "034"%char)); [done |]. by destruct b.
Qed.

Lemma replace_quote_escaped (s : string) :
  forall b,
    quotes_escaped b (replace_char "034"%char ("\" +:+ dquote) s) = true.
Proof.
  induction s as [|c s IH]; intros b; simpl; [done |].
  destruct (decide (c = "034"%char)) as [-> | Hne].
  - simpl. apply IH.
  - simpl. rewrite bool_decide_false by done. apply IH.
Qed.

Lemma space_not_quote_backslash (c : ascii) :
  isspace c = true ->
  bool_decide (c = "034"%char) = false /\ bool_decide (c = "\"%char) = false.
Proof.
  intros Hc. split; apply bool_decide_eq_false; intros ->; discriminate.
Qed.

Lemma replace_newline_escaped (s : string) :
  forall b, quotes_escaped b s = true ->
            quotes_escaped b (replace_char "010"%char " " s) = true.
Proof.
  induction s as [|c s IH]; intros b; simpl; [done |].
  destruct (decide (c = "010"%char)) as [-> | Hne].
  - simpl. apply IH.
  - simpl. intros [Hq Hr]%andb_prop. rewrite Hq. by apply IH.
Qed.

Lemma collapse_escaped (s : string) :
  forall b in_run, quotes_escaped b s = true ->
                   quotes_escaped b (collapse_ws in_run s) = true.
Proof.
  induction s as [|c s IH]; intros b in_run; simpl; [done |].
  destruct (isspace c) eqn:Hc.
  - destruct (space_not_quote_backslash c Hc) as [-> ->]. simpl.
    intros Hs. destruct in_run.
    + apply IH. by apply quotes_escaped_mono.
    + simpl. by apply IH.
  - simpl. intros [Hq Hr]%andb_prop. rewrite Hq. by apply IH.
Qed.

(** X2: in the cleaned text every quotation mark comes right after a
    backslash. *)
Theorem clean_text_quotes_escaped (t : string) :
  quotes_escaped false (_clean_text t) = true.
Proof.
  destruct (decide (t = "")) as [-> | Hne]; [done |].
  rewrite clean_text_unfold by done.
  apply collapse_escaped, replace_newline_escaped, replace_quote_escaped.
Qed.

Lemma lstrip_empty (ws : ascii -> bool) (s : string) :
  lstrip_with ws s = "" <-> string_forall ws s = true.
Proof.
  induction s as [|c s IH]; simpl; [done |].
  destruct (ws c); simpl; [exact IH | done].
Qed.

Lemma first_ok_forall (ws : ascii -> bool) (s : string) :
  first_ok ws s = true -> string_forall ws s = true -> s = "".
Proof.
  destruct s as [|c s]; [done |]. simpl. by destruct (ws c).
Qed.

Lemma rstrip_empty_forall (ws : ascii -> bool) (s : string) :
  rstrip_with ws s = "" -> string_forall ws s = true.
Proof.
  induction s as [|c s IH]; simpl; [done |].
  destruct (rstrip_with ws s); [|done].
  destruct (ws c); [|done]. intros _. by apply IH.
Qed.

Lemma replace_empty (old : ascii) (new s : string) :
  new <> "" -> replace_char old new s = "" -> s = "".
Proof.
  intros Hnew Hr. destruct s as [|c s]; [done |].
  by apply replace_nonempty in Hr.
Qed.

(** X3: the cleaned text is empty exactly for a text that is empty or all
    whitespace. *)
Theorem clean_text_empty_iff (t : string) :
  _clean_text t = "" <-> string_forall isspace t = true.
Proof.
  destruct (decide (t = "")) as [-> | Hne]; [done |].
  rewrite clean_text_unfold by done. split.
  - intros Hc. apply collapse_empty in Hc.
    apply replace_empty in Hc; [|done].
    apply replace_empty in Hc; [|done].
    unfold strip in Hc.
    apply rstrip_empty_forall in Hc.
    apply first_ok_forall in Hc; [|apply lstrip_first_ok].
    by apply lstrip_empty.
  - intros Hall. unfold strip.
    apply lstrip_empty in Hall. by rewrite Hall.
Qed.

End CleanTextFacts.

(** ** Markup of one element: text and attributes *)

Module MarkupMoreFacts.
Import Crawler Generator GeneratorFacts Spec Samples SpecMore UtilsMore PyStr
  PyStrFacts.

(** X4: for a tag that is not self-closing the markup is the opening tag
    with its attributes, a text of at most 53 characters and the closing
    tag; a cleaned text of at most 50 characters is emitted unchanged. *)
Theorem element_to_jsx_text_bounded (e : Element) (indent : nat) :
  tag e ∉ ["img"; "input"; "br"; "hr"] ->
  exists body,
    _element_to_jsx e indent
    = "<" +:+ tag e +:+ _get_jsx_attributes e (_generate_tailwind_classes e)
      +:+ ">" +:+ body +:+ "</" +:+ tag e +:+ ">" /\
    String.length body <= 53 /\
    (String.length (_clean_text (text e)) <= 50 ->
     body = _clean_text (text e)).
Proof.
  intros Htag. unfold _element_to_jsx.
  rewrite bool_decide_false by exact Htag.
  destruct (50 <? String.length (_clean_text (text e))) eqn:Hlen.
  - apply Nat.ltb_lt in Hlen.
    exists (slice_to 50 (_clean_text (text e)) +:+ "...").
    split; [done |]. split; [|lia].
    rewrite length_append, length_slice_to by lia. simpl. lia.
  - apply Nat.ltb_ge in Hlen. exists (_clean_text (text e)).
    split; [done |]. split; [lia | done].
Qed.

Lemma element_to_jsx_text_bounded_witness :
  exists body,
    _element_to_jsx long_link 8
    = "<" +:+ tag long_link
      +:+ _get_jsx_attributes long_link (_generate_tailwind_classes long_link)
      +:+ ">" +:+ body +:+ "</" +:+ tag long_link +:+ ">" /\
    String.length body <= 53 /\
    (String.length (_clean_text (text long_link)) <= 50 ->
     body = _clean_text (text long_link)).
Proof.
  apply (element_to_jsx_text_bounded long_link 8).
  intros Hin.
  repeat (apply elem_of_cons in Hin as [Hin | Hin]; [discriminate |]).
  by apply elem_of_nil in Hin.
Defined.

(** The classifier never returns the empty string. *)
Lemma generate_tailwind_classes_truthy (e : Element) :
  truthy (_generate_tailwind_classes e) = true.
Proof.
  unfold _generate_tailwind_classes.
  pose proof (limited_classes_words e) as Hw.
  destruct (limited_classes e) as [|t l]; [done |].
  apply Forall_cons in Hw as [Ht _].
  unfold is_word in Ht. apply andb_prop in Ht as [Ht _].
  destruct t as [|c t]; [discriminate |]. by destruct l.
Qed.

Lemma join_cons (sep x : string) (l : list string) :
  join sep (x :: l)
  = x +:+ match l with [] => "" | _ => sep +:+ join sep l end.
Proof. destruct l; [by rewrite append_empty_r | reflexivity]. Qed.

Lemma startswith_app (p1 p2 s : string) :
  startswith (p1 +:+ p2) s = true -> startswith p1 s = true.
Proof.
  revert s. induction p1 as [|a p1 IH]; intros s; [done |].
  destruct s as [|b s]; simpl; [done |].
  destruct (decide (a = b)); [apply IH | done].
Qed.

(** A url that [validate_url] accepts passes the generator's test on
    [href]. *)
Lemma validate_url_http (u : string) :
  validate_url u = true -> startswith "http" u = true.
Proof.
  unfold validate_url. destruct (negb (truthy u)); [done |].
  intros [H | H]%orb_prop.
  - by apply (startswith_app "http" "://").
  - by apply (startswith_app "http" "s://").
Qed.

(** X5: the attribute string of every element starts with a [className]
    attribute that carries the classifier's result, and for a tag other
    than a, img and input it is nothing but that attribute. *)
Theorem jsx_attributes_className (e : Element) :
  exists rest,
    _get_jsx_attributes e (_generate_tailwind_classes e)
    = " className=" +:+ dquote +:+ _generate_tailwind_classes e +:+ dquote
      +:+ rest /\
    (tag e ∉ ["a"; "img"; "input"] -> rest = "").
Proof.
  unfold _get_jsx_attributes.
  rewrite (generate_tailwind_classes_truthy e).
  set (cls := _generate_tailwind_classes e).
  destruct (bool_decide (tag e = "a")) eqn:Ha;
    destruct (bool_decide (tag e = "img")) eqn:Hi;
    destruct (bool_decide (tag e = "input")) eqn:Hn;
    cbn [andb];
    repeat match goal with
           | |- context [if ?b then _ else _] =>
               match type of b with bool => destruct b end
           end;
    cbn [app]; rewrite join_cons, !append_assoc;
    (eexists; split; [reflexivity |]); intros Htag;
    try reflexivity; exfalso; apply Htag;
    first [ apply bool_decide_eq_true in Ha; rewrite Ha
          | apply bool_decide_eq_true in Hi; rewrite Hi
          | apply bool_decide_eq_true in Hn; rewrite Hn ];
    repeat first [ apply list_elem_of_here | apply list_elem_of_further ].
Qed.


(** X6: for an anchor the attribute string is the [className] attribute
    followed, when the element has a non-empty href, by an [href]
    attribute whose value is the original one if it starts with http and
    the inert # otherwise; a url that [validate_url] accepts is kept as
    it is. *)
Theorem anchor_href_policy (e : Element) :
  tag e = "a" ->
  _get_jsx_attributes e (_generate_tailwind_classes e)
  = " className=" +:+ dquote +:+ _generate_tailwind_classes e +:+ dquote
    +:+ match attributes e !! "href" with
        | Some href =>
            if truthy href
            then " href=" +:+ dquote
                 +:+ (if startswith "http" href then href else "#")
                 +:+ dquote
            else ""
        | None => ""
        end /\
  (forall href,
     attributes e !! "href" = Some href -> validate_url href = true ->
     _get_jsx_attributes e (_generate_tailwind_classes e)
     = " className=" +:+ dquote +:+ _generate_tailwind_classes e +:+ dquote
       +:+ " href=" +:+ dquote +:+ href +:+ dquote).
Proof.
  intros Htag.
  assert (_get_jsx_attributes e (_generate_tailwind_classes e)
    = " className=" +:+ dquote +:+ _generate_tailwind_classes e +:+ dquote
      +:+ match attributes e !! "href" with
          | Some href =>
              if truthy href
              then " href=" +:+ dquote
                   +:+ (if startswith "http" href then href else "#")
                   +:+ dquote
              else ""
          | None => ""
          end) as Heq.
  { unfold _get_jsx_attributes.
    rewrite (generate_tailwind_classes_truthy e), Htag.
    rewrite (bool_decide_eq_true_2 ("a" = "a")) by done.
    rewrite (bool_decide_eq_false_2 ("a" = "img")) by discriminate.
    rewrite (bool_decide_eq_false_2 ("a" = "input")) by discriminate.
    unfold has_attr, get. cbn [andb].
    destruct (attributes e !! "href") as [href|];
      unfold default; cbn [from_option id].
    - destruct (truthy href); [destruct (startswith "http" href) |];
        cbn [app]; rewrite join_cons, !append_assoc; reflexivity.
    - cbn [app]. rewrite join_cons, !append_assoc. reflexivity. }
  split; [exact Heq |].
  intros href Hhref Hvalid. rewrite Heq, Hhref.
  rewrite (validate_url_http href Hvalid).
  unfold validate_url in Hvalid.
  destruct (truthy href); [done | discriminate].
Qed.

Lemma anchor_href_policy_witness :
  _get_jsx_attributes long_link (_generate_tailwind_classes long_link)
  = " className=" +:+ dquote +:+ _generate_tailwind_classes long_link
    +:+ dquote
    +:+ match attributes long_link !! "href" with
        | Some href =>
            if truthy href
            then " href=" +:+ dquote
                 +:+ (if startswith "http" href then href else "#")
                 +:+ dquote
            else ""
        | None => ""
        end /\
  (forall href,
     attributes long_link !! "href" = Some href -> validate_url href = true ->
     _get_jsx_attributes long_link (_generate_tailwind_classes long_link)
     = " className=" +:+ dquote +:+ _generate_tailwind_classes long_link
       +:+ dquote +:+ " href=" +:+ dquote +:+ href +:+ dquote).
Proof. apply (anchor_href_policy long_link). reflexivity. Defined.

End MarkupMoreFacts.

(** ** The matcher and the language of an expression *)

Module ReFacts.
Import Re ReSem PyStr PyStrFacts.

Lemma append_empty_inv (s1 s2 : string) :
  s1 +:+ s2 = "" -> s1 = "" /\ s2 = "".
Proof. destruct s1; [done | discriminate]. Qed.

Lemma lang_empty_nullable (r : regex) (s : string) :
  lang r s -> s = "" -> nullable r = true.
Proof.
  induction 1 as [| | | r1 r2 s1 s2 _ IH1 _ IH2 | r1 r2 s _ IH
                 | r1 r2 s _ IH | |]; intros Hs; simpl; try done.
  - apply append_empty_inv in Hs as [-> ->]. by rewrite IH1, IH2.
  - by rewrite IH.
  - rewrite IH by done. apply orb_true_r.
Qed.

Lemma nullable_lang_empty (r : regex) : nullable r = true -> lang r "".
Proof.
  induction r as [| | | | r1 IH1 r2 IH2 | r1 IH1 r2 IH2 |]; simpl;
    try done; intros Hn.
  - constructor.
  - apply andb_prop in Hn as [H1 H2].
    change "" with ("" +:+ ""). by constructor; auto.
  - apply orb_prop in Hn as [H1 | H2];
      [apply lang_alt_l | apply lang_alt_r]; auto.
  - constructor.
Qed.

(** The derivative accepts [s] when the expression accepts [a] followed
    by [s]. *)
Lemma deriv_lang_1 (a : ascii) (r : regex) :
  forall s, lang (deriv a r) s -> lang r (String a s).
Proof.
  induction r as [| | c | | r1 IH1 r2 IH2 | r1 IH1 r2 IH2 | r IH];
    intros s; simpl.
  - inversion 1.
  - inversion 1.
  - destruct (decide (a = c)) as [-> | Hne]; inversion 1. constructor.
  - destruct (isdigit a) eqn:Hd; inversion 1. by constructor.
  - destruct (nullable r1) eqn:Hn.
    + inversion 1 as [| | | | ? ? ? Hl | ? ? ? Hr | |]; subst.
      * inversion Hl as [| | | ? ? s1 s2 H1 H2 | | | |]; subst.
        change (String a (s1 +:+ s2)) with (String a s1 +:+ s2).
        constructor; auto.
      * change (String a s) with ("" +:+ String a s).
        constructor; [by apply nullable_lang_empty | auto].
    + inversion 1 as [| | | ? ? s1 s2 H1 H2 | | | |]; subst.
      change (String a (s1 +:+ s2)) with (String a s1 +:+ s2).
      constructor; auto.
  - inversion 1; subst; [apply lang_alt_l | apply lang_alt_r]; auto.
  - inversion 1 as [| | | ? ? s1 s2 H1 H2 | | | |]; subst.
    change (String a (s1 +:+ s2)) with (String a s1 +:+ s2).
    constructor; auto.
Qed.

Lemma deriv_lang_2 (r : regex) (s0 : string) :
  lang r s0 -> forall a s, s0 = String a s -> lang (deriv a r) s.
Proof.
  induction 1 as [| c | c Hd | r1 r2 s1 s2 H1 IH1 H2 IH2 | r1 r2 s0 H IH
                 | r1 r2 s0 H IH | r | r s1 s2 H1 IH1 H2 IH2];
    intros a s Heq; simpl.
  - discriminate.
  - injection Heq as <- <-. rewrite decide_True by done. constructor.
  - injection Heq as <- <-. rewrite Hd. constructor.
  - destruct s1 as [|b s1].
    + simpl in Heq. rewrite (lang_empty_nullable r1 "" H1 eq_refl).
      apply lang_alt_r. by apply IH2.
    + change (String b s1 +:+ s2) with (String b (s1 +:+ s2)) in Heq.
      injection Heq as -> <-.
      assert (lang (Cat (deriv a r1) r2) (s1 +:+ s2)) as Hc
        by (constructor; auto).
      destruct (nullable r1); [by apply lang_alt_l | done].
  - apply lang_alt_l. by apply IH.
  - apply lang_alt_r. by apply IH.
  - discriminate.
  - destruct s1 as [|b s1].
    + simpl in Heq. by apply (IH2 a s).
    + change (String b s1 +:+ s2) with (String b (s1 +:+ s2)) in Heq.
      injection Heq as -> <-. constructor; auto.
Qed.

(** The matcher decides the language. *)
Lemma fullmatch_lang (s : string) :
  forall r, fullmatch r s = true <-> lang r s.
Proof.
  induction s as [|a s IH]; intros r; simpl.
  - split; [apply nullable_lang_empty |].
    intros H. by apply (lang_empty_nullable r "").
  - rewrite IH. split; [apply deriv_lang_1 |].
    intros H. by apply (deriv_lang_2 r (String a s)).
Qed.

Lemma string_forall_app (P : ascii -> bool) (s1 s2 : string) :
  string_forall P (s1 +:+ s2) = string_forall P s1 && string_forall P s2.
Proof.
  induction s1 as [|c s1 IH]; simpl; [done |].
  by rewrite IH, andb_assoc.
Qed.

Lemma string_forall_impl (P Q : ascii -> bool) (s : string) :
  (forall c, P c = true -> Q c = true) ->
  string_forall P s = true -> string_forall Q s = true.
Proof.
  intros HPQ. induction s as [|c s IH]; simpl; [done |].
  intros [Hc Hs]%andb_prop. by rewrite (HPQ c Hc), IH.
Qed.

(** A string of the language has only characters the expression
    consumes. *)
Lemma lang_consumes (r : regex) (s : string) :
  lang r s -> string_forall (consumes r) s = true.
Proof.
  induction 1 as [| c | c Hd | r1 r2 s1 s2 H1 IH1 H2 IH2 | r1 r2 s0 H IH
                 | r1 r2 s0 H IH | r | r s1 s2 H1 IH1 H2 IH2]; simpl;
    try done.
  - by rewrite bool_decide_eq_true_2.
  - by rewrite Hd.
  - rewrite string_forall_app. apply andb_true_intro. split.
    + eapply string_forall_impl; [|exact IH1]. intros c ->. done.
    + eapply string_forall_impl; [|exact IH2]. intros c ->.
      apply orb_true_r.
  - eapply string_forall_impl; [|exact IH]. intros c ->. done.
  - eapply string_forall_impl; [|exact IH]. intros c ->. apply orb_true_r.
  - rewrite string_forall_app. apply andb_true_intro. by split.
Qed.

Lemma all_ascii_complete (c : ascii) : c ∈ all_ascii.
Proof.
  unfold all_ascii. apply list_elem_of_In, in_map_iff.
  exists (nat_of_ascii c). split; [apply ascii_nat_embedding |].
  apply in_seq. pose proof (nat_ascii_bounded c). lia.
Qed.

Lemma lang_Lit (s : string) : lang (Lit s) s.
Proof.
  induction s as [|c s IH]; simpl; [constructor |].
  change (String c s) with (String c "" +:+ s). constructor; [constructor | done].
Qed.

Lemma lang_OneOf (l : list string) (s : string) :
  s ∈ l -> lang (OneOf l) s.
Proof.
  induction l as [|x l IH]; [by intros ?%elem_of_nil |].
  intros [-> | Hin]%elem_of_cons; simpl.
  - apply lang_alt_l, lang_Lit.
  - by apply lang_alt_r, IH.
Qed.

Lemma lang_star_digits (d : string) :
  string_forall isdigit d = true -> lang (Star Digit) d.
Proof.
  induction d as [|c d IH]; simpl; [constructor |].
  intros [Hc Hd]%andb_prop.
  change (String c d) with (String c "" +:+ d).
  constructor; [by constructor | by apply IH].
Qed.

Lemma lang_plus_digits (d : string) :
  d <> "" -> string_forall isdigit d = true -> lang (Plus Digit) d.
Proof.
  destruct d as [|c d]; [done |]. simpl. intros _ [Hc Hd]%andb_prop.
  change (String c d) with (String c "" +:+ d).
  constructor; [by constructor | by apply lang_star_digits].
Qed.

End ReFacts.

(** ** The classifier: order and shape of the tokens *)

Module ClassifierMoreFacts.
Import Crawler Generator GeneratorFacts Spec Samples SpecMore SamplesMore Re
  ReSem ReFacts PyStr PyStrFacts.

(** *** Style-derived tokens come first *)

Ltac sublist_cases :=
  repeat match goal with
         | |- context [if ?b then _ else _] =>
             match type of b with bool => destruct b end
         end;
  first
    [ exists []; split; [intros; by rewrite app_nil_r | apply sublist_nil_l]
    | eexists [_]; split;
      [ intros; reflexivity
      | apply singleton_sublist_l;
        repeat first [ apply list_elem_of_here | apply list_elem_of_further ] ] ].

Lemma layout_block_sublist st :
  appends_sublist (layout_block st) ["flex"; "block"].
Proof. unfold appends_sublist, layout_block. sublist_cases. Qed.

Lemma font_size_block_sublist st :
  appends_sublist (font_size_block st)
                  ["text-2xl"; "text-xl"; "text-lg"; "text-sm"].
Proof. unfold appends_sublist, font_size_block. sublist_cases. Qed.

Lemma font_weight_block_sublist st :
  appends_sublist (font_weight_block st) ["font-bold"; "font-medium"].
Proof. unfold appends_sublist, font_weight_block. sublist_cases. Qed.

Lemma color_block_sublist st :
  appends_sublist (color_block st)
                  ["text-black"; "text-white"; "text-gray-600"].
Proof. unfold appends_sublist, color_block. sublist_cases. Qed.

Lemma bg_color_block_sublist st :
  appends_sublist (bg_color_block st) ["bg-white"; "bg-black"].
Proof. unfold appends_sublist, bg_color_block. sublist_cases. Qed.

Lemma padding_block_sublist st :
  appends_sublist (padding_block st) ["p-4"; "p-2"].
Proof. unfold appends_sublist, padding_block. sublist_cases. Qed.

Lemma border_radius_block_sublist st :
  appends_sublist (border_radius_block st) ["rounded"].
Proof. unfold appends_sublist, border_radius_block. sublist_cases. Qed.

Lemma box_shadow_block_sublist st :
  appends_sublist (box_shadow_block st) ["shadow"].
Proof. unfold appends_sublist, box_shadow_block. sublist_cases. Qed.

(** The style-driven tokens are a sublist of the vocabulary: at most one
    token of each block, in block order. *)
Lemma style_classes_sublist (st : gmap string string) :
  style_classes st `sublist_of` concat block_tokens.
Proof.
  unfold style_classes.
  destruct (layout_block_sublist st) as (t1 & -> & S1).
  destruct (font_size_block_sublist st) as (t2 & -> & S2).
  destruct (font_weight_block_sublist st) as (t3 & -> & S3).
  destruct (color_block_sublist st) as (t4 & -> & S4).
  destruct (bg_color_block_sublist st) as (t5 & -> & S5).
  destruct (padding_block_sublist st) as (t6 & -> & S6).
  destruct (border_radius_block_sublist st) as (t7 & -> & S7).
  destruct (box_shadow_block_sublist st) as (t8 & -> & S8).
  unfold block_tokens. cbn [concat]. rewrite app_nil_r.
  rewrite <- !app_assoc, app_nil_l.
  repeat (apply sublist_app; [done |]). done.
Qed.

Lemma NoDup_block_tokens : NoDup (concat block_tokens).
Proof.
  unfold block_tokens. cbn [concat app].
  repeat (apply NoDup_cons; split;
    [intros Hin; repeat (apply elem_of_cons in Hin as [Hin | Hin];
                         [discriminate |]); by apply elem_of_nil in Hin |]).
  constructor.
Qed.

Lemma NoDup_style_classes (st : gmap string string) :
  NoDup (style_classes st).
Proof.
  eapply sublist_NoDup; [apply NoDup_block_tokens |].
  apply style_classes_sublist.
Qed.

Lemma filter_id {A} (P : A -> Prop) `{forall x, Decision (P x)} (l : list A) :
  Forall P l -> filter P l = l.
Proof.
  induction 1 as [|x l Hx Hl IH]; [done |].
  rewrite filter_cons_True by done. by rewrite IH.
Qed.

(** First occurrences of a list that starts with distinct tokens. *)
Lemma first_occurrences_app (s x : list string) :
  NoDup s ->
  first_occurrences (s ++ x)
  = s ++ filter (fun y => y ∉ s) (first_occurrences x).
Proof.
  induction 1 as [|a s Ha Hnd IH]; simpl.
  - symmetry. apply filter_id, Forall_forall. intros y _. apply not_elem_of_nil.
  - f_equal. rewrite IH, filter_app. f_equal.
    + apply filter_id, Forall_forall. intros y Hy ->. done.
    + rewrite list_filter_filter. apply list_filter_iff.
      intros y. rewrite not_elem_of_cons. tauto.
Qed.

(** For a non-empty appended list the tokens are its first 8 first
    occurrences. *)
Lemma class_tokens_nonempty (e : Element) :
  appended_classes e <> [] ->
  class_tokens e = take 8 (first_occurrences (appended_classes e)).
Proof.
  intros Hne. rewrite class_tokens_cases, limited_classes_eq.
  destruct (appended_classes e) as [|t l]; [done |]. reflexivity.
Qed.

(** X7: the tokens of the style-driven rules are pairwise distinct and
    open the result, in rule order: the class tokens are these tokens
    followed by tokens carried over from the class attribute, which only
    fill the places left up to 8. *)
Theorem style_tokens_first (e : Element) :
  NoDup (style_classes (styles e)) /\
  (appended_classes e <> [] ->
   class_tokens e
   = style_classes (styles e)
     ++ take (8 - length (style_classes (styles e)))
          (filter (fun y => y ∉ style_classes (styles e))
             (first_occurrences
                (filter (fun cls => _is_tailwind_class cls = true)
                        (existing_classes e))))).
Proof.
  split; [apply NoDup_style_classes |].
  intros Hne.
  rewrite (class_tokens_nonempty e Hne).
  rewrite appended_classes_eq.
  rewrite first_occurrences_app by apply NoDup_style_classes.
  destruct (style_classes_vocabulary (styles e)) as [_ Hlen].
  rewrite take_app_ge by lia. reflexivity.
Qed.


(** *** The characters of a token *)

(** The eight patterns consume only lowercase letters, digits and hyphens
    (and the newline that [$] lets pass). *)
Lemma patterns_consume_class_chars :
  Forall (fun pattern =>
            forallb (fun c =>
                       implb (consumes (Cat pattern (Opt (Chr "010"%char))) c)
                             (is_class_char c || isspace c))
                    all_ascii = true)
         tailwind_patterns.
Proof. unfold tailwind_patterns. repeat constructor. Qed.

Lemma tailwind_class_chars (cls : string) :
  _is_tailwind_class cls = true ->
  string_forall (fun c => is_class_char c || isspace c) cls = true.
Proof.
  unfold _is_tailwind_class. intros (pattern & Hin & Hm)%existsb_exists.
  apply list_elem_of_In in Hin.
  pose proof (proj1 (Forall_forall _ _) patterns_consume_class_chars
                pattern Hin) as Hall.
  cbv beta in Hall. rewrite forallb_forall in Hall.
  unfold match_anchored in Hm. apply fullmatch_lang, lang_consumes in Hm.
  eapply string_forall_impl; [|exact Hm].
  intros c Hc.
  specialize (Hall c (proj1 (list_elem_of_In _ _) (all_ascii_complete c))).
  rewrite Hc in Hall. exact Hall.
Qed.

Lemma word_class_chars (w : string) :
  no_space w = true ->
  string_forall (fun c => is_class_char c || isspace c) w = true ->
  string_forall is_class_char w = true.
Proof.
  induction w as [|c w IH]; simpl; [done |].
  intros [Hc Hw]%andb_prop [Hc' Hw']%andb_prop.
  apply negb_true_iff in Hc. rewrite Hc, orb_false_r in Hc'.
  by rewrite Hc', IH.
Qed.

Lemma class_tokens_class_chars (e : Element) :
  Forall (fun t => string_forall is_class_char t = true) (class_tokens e).
Proof.
  apply Forall_forall. intros t Ht.
  apply elem_of_class_tokens in Ht as [[_ ->] | Ht]; [reflexivity |].
  rewrite appended_classes_eq in Ht. apply elem_of_app in Ht as [Ht | Ht].
  - destruct (style_classes_vocabulary (styles e)) as [Hv _].
    apply (proj1 (Forall_forall _ _) Hv) in Ht. simpl in Ht.
    assert (Forall (fun t => string_forall is_class_char t = true)
                   style_vocabulary) as Hok
      by (unfold style_vocabulary; repeat constructor).
    by apply (proj1 (Forall_forall _ _) Hok).
  - apply list_elem_of_filter in Ht as [Hm Hin].
    pose proof (proj1 (Forall_forall _ _) (existing_classes_words e) t Hin)
      as Hw.
    simpl in Hw. unfold is_word in Hw. apply andb_prop in Hw as [_ Hns].
    apply word_class_chars; [done |]. by apply tailwind_class_chars.
Qed.

(** X8: every ASCII character of a class token of the classifier's result
    is a lowercase letter, a digit or a hyphen; no quotation mark, angle
    bracket, brace, backslash, colon or uppercase letter of a class
    attribute reaches the generated className. *)
Theorem class_tokens_chars (e : Element) :
  Forall (fun t => string_forall ascii_is_class_char t = true)
         (class_tokens e) /\
  Forall (fun c => ascii_is_class_char c = false)
         [ "034"%char; "'"%char; "<"%char; ">"%char; "{"%char; "}"%char;
           "\"%char; ":"%char; "A"%char; "Z"%char ].
Proof.
  split; [|repeat constructor].
  eapply Forall_impl; [apply class_tokens_class_chars |].
  intros t Ht. cbv beta in *.
  eapply string_forall_impl; [|exact Ht].
  intros c Hc. unfold ascii_is_class_char. rewrite Hc. apply implb_true_r.
Qed.

(** *** Numeric scales *)

Lemma tailwind_class_of_lang (body : regex) (cls : string) :
  body ∈ tailwind_patterns -> lang body cls ->
  _is_tailwind_class cls = true.
Proof.
  intros Hin Hl. unfold _is_tailwind_class. apply existsb_exists.
  exists body. split; [by apply list_elem_of_In |].
  unfold match_anchored. apply fullmatch_lang.
  rewrite <- (append_empty_r cls). constructor; [done |].
  apply lang_alt_r. constructor.
Qed.

(** X9: the patterns put no bound on the number: a spacing prefix, or text
    or bg with one of the seven colours, followed by a hyphen and any
    non-empty string of digits is recognised as a Tailwind class. *)
Theorem any_numeric_scale_recognised (digits : string) :
  digits <> "" -> string_forall isdigit digits = true ->
  (forall prefix, prefix ∈ spacing_prefixes ->
     _is_tailwind_class (prefix +:+ "-" +:+ digits) = true) /\
  (forall color, color ∈ shade_colors ->
     _is_tailwind_class ("text-" +:+ color +:+ "-" +:+ digits) = true /\
     _is_tailwind_class ("bg-" +:+ color +:+ "-" +:+ digits) = true).
Proof.
  intros Hne Hd.
  pose proof (lang_plus_digits digits Hne Hd) as Hplus.
  assert (lang (Cat (Lit "-") (Plus Digit)) ("-" +:+ digits)) as Hscale
    by (constructor; [apply lang_Lit | done]).
  split.
  - intros prefix Hp.
    eapply tailwind_class_of_lang; [apply list_elem_of_here |].
    constructor; [by apply lang_OneOf | done].
  - intros color Hc. split.
    + eapply tailwind_class_of_lang;
        [do 2 apply list_elem_of_further; apply list_elem_of_here |].
      change ("text-" +:+ color +:+ "-" +:+ digits)
        with ("text-" +:+ (color +:+ ("-" +:+ digits))).
      constructor; [apply lang_Lit |].
      constructor; [by apply lang_OneOf | done].
    + eapply tailwind_class_of_lang;
        [do 3 apply list_elem_of_further; apply list_elem_of_here |].
      change ("bg-" +:+ color +:+ "-" +:+ digits)
        with ("bg-" +:+ (color +:+ ("-" +:+ digits))).
      constructor; [apply lang_Lit |].
      constructor; [by apply lang_OneOf | done].
Qed.

Lemma any_numeric_scale_recognised_witness :
  (forall prefix, prefix ∈ spacing_prefixes ->
     _is_tailwind_class (prefix +:+ "-" +:+ "123456789") = true) /\
  (forall color, color ∈ shade_colors ->
     _is_tailwind_class ("text-" +:+ color +:+ "-" +:+ "123456789") = true /\
     _is_tailwind_class ("bg-" +:+ color +:+ "-" +:+ "123456789") = true).
Proof.
  apply (any_numeric_scale_recognised "123456789");
    [discriminate | reflexivity].
Defined.


(** *** Tokens carried over from the class attribute *)






End ClassifierMoreFacts.

(** ** Grouping by category and the layout of the body *)

Module GroupFacts.
Import Crawler Generator GeneratorMore GeneratorFacts Spec Samples SpecMore
  PyStr PyStrFacts.

Lemma first_occurrences_snoc (l : list string) (x : string) :
  first_occurrences (l ++ [x])
  = if decide (x ∈ l) then first_occurrences l
    else first_occurrences l ++ [x].
Proof.
  induction l as [|a l IH]; cbn [app first_occurrences].
  - rewrite decide_False by apply not_elem_of_nil. done.
  - rewrite IH. destruct (decide (x ∈ l)) as [Hin | Hnin].
    + rewrite decide_True by (by apply elem_of_cons; right). done.
    + rewrite filter_app. destruct (decide (x = a)) as [-> | Hne].
      * rewrite decide_True by apply list_elem_of_here.
        rewrite filter_cons_False by (intros ?; done).
        by rewrite filter_nil, app_nil_r.
      * rewrite decide_False by (rewrite elem_of_cons; tauto).
        rewrite filter_cons_True by done. by rewrite filter_nil.
Qed.

Lemma of_category_snoc (c : string) (l : list Element) (e : Element) :
  of_category c (l ++ [e])
  = of_category c l ++ (if decide (category e = c) then [e] else []).
Proof.
  unfold of_category. rewrite filter_app.
  destruct (decide (category e = c)).
  - by rewrite (filter_cons_True _ e []).
  - by rewrite (filter_cons_False _ e []).
Qed.

Lemma elem_of_categories_seen (c : string) (l : list Element) :
  c ∈ categories_seen l <-> exists e, e ∈ l /\ category e = c.
Proof.
  unfold categories_seen. rewrite elem_of_first_occurrences. split.
  - intros Hc. apply list_elem_of_In, in_map_iff in Hc as (e & <- & He).
    exists e. split; [by apply list_elem_of_In | done].
  - intros (e & He & <-). apply list_elem_of_In, in_map.
    by apply list_elem_of_In.
Qed.

Lemma of_category_nil_iff (c : string) (l : list Element) :
  of_category c l = [] <-> c ∉ categories_seen l.
Proof.
  rewrite elem_of_categories_seen. unfold of_category. split.
  - intros Hnil (e & Hin & He).
    assert (e ∈ filter (fun e0 => category e0 = c) l) as Hf
      by (by apply list_elem_of_filter).
    rewrite Hnil in Hf. by apply elem_of_nil in Hf.
  - intros Hnone.
    destruct (filter (fun e0 => category e0 = c) l) as [|e k] eqn:Hf;
      [done |].
    exfalso. apply Hnone. exists e.
    assert (e ∈ filter (fun e0 => category e0 = c) l) as He
      by (rewrite Hf; apply list_elem_of_here).
    apply list_elem_of_filter in He as [? ?]. done.
Qed.

(** Appending to a dict given by its keys. *)
Lemma dict_append_map (F : string -> list Element) (ks : list string)
    (k : string) (e : Element) :
  NoDup ks ->
  dict_append (map (fun c => (c, F c)) ks) k e
  = if decide (k ∈ ks)
    then map (fun c => (c, if decide (c = k) then F c ++ [e] else F c)) ks
    else map (fun c => (c, F c)) ks ++ [(k, [e])].
Proof.
  induction 1 as [|a ks Ha Hnd IH]; cbn [map dict_append].
  - by rewrite decide_False by apply not_elem_of_nil.
  - destruct (decide (a = k)) as [-> | Hne].
    + rewrite decide_True by apply list_elem_of_here. cbn [map].
      rewrite ?decide_True by done. f_equal.
      apply map_ext_in. intros c Hc%list_elem_of_In.
      rewrite decide_False; [done |]. by intros ->.
    + rewrite IH. destruct (decide (k ∈ ks)) as [Hin | Hnin].
      * rewrite decide_True by (by apply elem_of_cons; right). cbn [map].
        by rewrite ?decide_False by done.
      * rewrite decide_False; [done |].
        rewrite elem_of_cons. intros [-> | ?]; done.
Qed.

Lemma group_elements_snoc (l : list Element) (e : Element) :
  _group_elements (l ++ [e])
  = dict_append (_group_elements l) (category e) e.
Proof. unfold _group_elements. by rewrite foldl_app. Qed.

Lemma categories_seen_snoc (l : list Element) (e : Element) :
  categories_seen (l ++ [e])
  = if decide (category e ∈ categories_seen l) then categories_seen l
    else categories_seen l ++ [category e].
Proof.
  unfold categories_seen. rewrite map_app. cbn [map].
  rewrite first_occurrences_snoc.
  destruct (decide (category e ∈ map category l)) as [Hin | Hnin].
  - rewrite decide_True; [done |]. by apply elem_of_first_occurrences.
  - rewrite decide_False; [done |]. by rewrite elem_of_first_occurrences.
Qed.

(** The grouping has the categories in the order of first occurrence as
    its keys and under each the elements of that category. *)
Lemma group_elements_by_category (elements : list Element) :
  _group_elements elements
  = map (fun c => (c, of_category c elements)) (categories_seen elements).
Proof.
  induction elements as [|e l IH] using rev_ind; [done |].
  rewrite group_elements_snoc, IH.
  rewrite dict_append_map by apply NoDup_first_occurrences.
  rewrite categories_seen_snoc.
  destruct (decide (category e ∈ categories_seen l)) as [Hin | Hnin].
  - apply map_ext. intros c. rewrite of_category_snoc.
    destruct (decide (c = category e)) as [-> | Hne].
    + by rewrite decide_True.
    + rewrite decide_False by done. by rewrite app_nil_r.
  - rewrite map_app. cbn [map]. f_equal.
    + apply map_ext_in. intros c Hc%list_elem_of_In.
      rewrite of_category_snoc, decide_False; [by rewrite app_nil_r |].
      by intros <-.
    + rewrite of_category_snoc, decide_True by done.
      by rewrite (proj2 (of_category_nil_iff _ _) Hnin).
Qed.

(** Distributing a list over keys that cover it loses and repeats
    nothing. *)
Lemma concat_of_category (ks : list string) (l : list Element) :
  NoDup ks -> (forall e, e ∈ l -> category e ∈ ks) ->
  concat (map (fun c => of_category c l) ks) ≡ₚ l.
Proof.
  intros Hnd. induction l as [|x l IH]; intros Hcov.
  - induction ks as [|k ks IHk]; [done |]. simpl.
    apply IHk; [by apply NoDup_cons in Hnd as [_ ?] |].
    intros e He. by apply elem_of_nil in He.
  - transitivity (x :: concat (map (fun c => of_category c l) ks)).
    2: { constructor. apply IH. intros e He. apply Hcov.
         by apply elem_of_cons; right. }
    assert (category x ∈ ks) as Hx by apply Hcov, list_elem_of_here.
    clear IH Hcov. induction Hnd as [|k ks Hk Hnd IHk]; simpl.
    + by apply elem_of_nil in Hx.
    + unfold of_category at 1 3.
      destruct (decide (category x = k)) as [Heq | Hne].
      * rewrite filter_cons_True by done. simpl. constructor.
        apply Permutation_app_head.
        assert (map (fun c => of_category c (x :: l)) ks
                = map (fun c => of_category c l) ks) as ->; [|done].
        apply map_ext_in. intros c Hc%list_elem_of_In.
        unfold of_category. rewrite filter_cons_False; [done |].
        intros Hc'. apply Hk. by rewrite <- Heq, Hc'.
      * rewrite filter_cons_False by done.
        apply elem_of_cons in Hx as [Hx | Hx]; [done |].
        rewrite (IHk Hx). symmetry. apply Permutation_middle.
Qed.

(** X10: grouping is a partition that keeps order: the keys are the
    categories in the order of their first occurrence, each once; under
    a key are exactly the elements of that category in crawl order, at
    least one; and all groups together hold every element once. *)
Theorem group_elements_partition (elements : list Element) :
  map fst (_group_elements elements) = categories_seen elements /\
  NoDup (map fst (_group_elements elements)) /\
  Forall (fun item => item.2 = of_category item.1 elements /\ item.2 <> [])
         (_group_elements elements) /\
  concat (map snd (_group_elements elements)) ≡ₚ elements.
Proof.
  rewrite group_elements_by_category, !map_map. simpl.
  rewrite map_id.
  split; [done |]. split; [apply NoDup_first_occurrences |]. split.
  - apply Forall_forall. intros item Hitem.
    apply list_elem_of_In, in_map_iff in Hitem as (c & <- & Hc). simpl.
    split; [done |]. intros Hnil. apply of_category_nil_iff in Hnil.
    by apply Hnil, list_elem_of_In.
  - apply concat_of_category; [apply NoDup_first_occurrences |].
    intros e He. apply elem_of_categories_seen. by exists e.
Qed.


(** *** The lines of the body *)

Lemma dict_get_map (F : string -> list Element) (ks : list string)
    (k : string) :
  dict_get (map (fun c => (c, F c)) ks) k
  = if decide (k ∈ ks) then Some (F k) else None.
Proof.
  induction ks as [|a ks IH]; cbn [map dict_get].
  - by rewrite decide_False by apply not_elem_of_nil.
  - destruct (decide (a = k)) as [-> | Hne].
    + by rewrite decide_True by apply list_elem_of_here.
    + rewrite IH. destruct (decide (k ∈ ks)) as [Hin | Hnin].
      * by rewrite decide_True by (by apply elem_of_cons; right).
      * rewrite decide_False; [done |].
        rewrite elem_of_cons. intros [-> | ?]; done.
Qed.

Lemma foldl_element_lines (indent : string) (depth : nat)
    (l : list Element) (acc : list string) :
  foldl (fun parts element =>
           parts ++ [indent +:+ _element_to_jsx element depth]) acc l
  = acc ++ map (fun e => indent +:+ _element_to_jsx e depth) l.
Proof.
  revert acc. induction l as [|e l IH]; intros acc; simpl.
  - by rewrite app_nil_r.
  - by rewrite IH, <- app_assoc.
Qed.

Section LayoutFacts.

Variable title : string -> string.

Lemma other_step_lines (acc : list string) (c : string)
    (g : list Element) :
  g <> [] ->
  other_step title acc (c, g)
  = acc ++ (if decide (c ∈ ["navigation"; "header"]) then []
            else section_lines
                   [ "        {/* " +:+ title c +:+ " */}";
                     "        <section className=" +:+ dquote +:+ "mb-6"
                     +:+ dquote +:+ ">" ]
                   "          " 5 "        </section>" g 10).
Proof.
  intros Hg. unfold other_step.
  destruct (decide (c ∈ ["navigation"; "header"])) as [Hin | Hnin].
  - rewrite bool_decide_eq_true_2 by done. by rewrite app_nil_r.
  - rewrite bool_decide_eq_false_2 by done.
    destruct g as [|e g]; [done |].
    rewrite foldl_element_lines. unfold section_lines.
    rewrite <- !app_assoc. reflexivity.
Qed.

Lemma foldl_other_step (elements : list Element) (ks : list string) :
  forall acc,
    (forall c, c ∈ ks -> of_category c elements <> []) ->
    foldl (other_step title) acc
          (map (fun c => (c, of_category c elements)) ks)
    = acc ++ concat
        (map (fun c =>
                section_lines
                  [ "        {/* " +:+ title c +:+ " */}";
                    "        <section className=" +:+ dquote +:+ "mb-6"
                    +:+ dquote +:+ ">" ]
                  "          " 5 "        </section>"
                  (of_category c elements) 10)
             (filter (fun c => c ∉ ["navigation"; "header"]) ks)).
Proof.
  induction ks as [|k ks IH]; intros acc Hne; cbn [map foldl].
  - by rewrite app_nil_r.
  - rewrite other_step_lines by apply Hne, list_elem_of_here.
    rewrite IH by (intros c Hc; apply Hne; by apply elem_of_cons; right).
    destruct (decide (k ∈ ["navigation"; "header"])) as [Hin | Hnin].
    + rewrite filter_cons_False by (intros Hn; by apply Hn).
      by rewrite app_nil_r.
    + rewrite filter_cons_True by done. cbn [map concat].
      by rewrite <- app_assoc.
Qed.

(** X11: for every crawl result the body has, in this order, the
    navigation block with its first 3 elements, the header block with its
    first 5, and inside the main block one section with its first 5
    elements for every other category, in the order in which the
    categories first occur; a block or section is there only when its
    category has an element, and the main block is always there. *)
Theorem generate_jsx_layout (elements : list Element) :
  _generate_jsx_parts title (_group_elements elements)
  = jsx_layout title elements.
Proof.
  rewrite group_elements_by_category.
  unfold _generate_jsx_parts, jsx_layout. rewrite !dict_get_map.
  rewrite foldl_other_step
    by (intros c Hc Hnil; by apply of_category_nil_iff in Hnil).
  set (nav_open :=
         [ "      {/* Navigation */}";
           "      <nav className=" +:+ dquote
           +:+ "flex items-center justify-between px-6 py-4 border-b"
           +:+ dquote +:+ ">" ]).
  set (hdr_open :=
         [ "      {/* Headers */}";
           "      <header className=" +:+ dquote
           +:+ "container mx-auto px-6 py-8" +:+ dquote +:+ ">" ]).
  assert (forall g,
            (foldl (fun parts element =>
                      parts ++ ["        " +:+ _element_to_jsx element 8])
                   (([] ++ ["      {/* Navigation */}"])
                    ++ ["      <nav className=" +:+ dquote
                        +:+ "flex items-center justify-between px-6 py-4 border-b"
                        +:+ dquote +:+ ">"])
                   (take 3 g) ++ ["      </nav>"]) ++ [""]
            = section_lines nav_open "        " 3 "      </nav>" g 8) as Hnav.
  { intros g. rewrite foldl_element_lines. unfold section_lines, nav_open.
    rewrite <- !app_assoc. reflexivity. }
  assert (forall acc g,
            (foldl (fun parts element =>
                      parts ++ ["        " +:+ _element_to_jsx element 8])
                   ((acc ++ ["      {/* Headers */}"])
                    ++ ["      <header className=" +:+ dquote
                        +:+ "container mx-auto px-6 py-8" +:+ dquote +:+ ">"])
                   (take 5 g) ++ ["      </header>"]) ++ [""]
            = acc ++ section_lines hdr_open "        " 5 "      </header>" g 8)
    as Hhdr.
  { intros acc g. rewrite foldl_element_lines. unfold section_lines, hdr_open.
    rewrite <- !app_assoc. reflexivity. }
  destruct (decide ("navigation" ∈ categories_seen elements)) as [Hn | Hn];
    destruct (decide ("header" ∈ categories_seen elements)) as [Hh | Hh];
    rewrite ?Hnav, ?Hhdr;
    try (apply of_category_nil_iff in Hn; rewrite Hn);
    try (apply of_category_nil_iff in Hh; rewrite Hh);
    try (destruct (of_category "navigation" elements) as [|n0 nl] eqn:En;
         [exfalso; by apply of_category_nil_iff in En |]);
    try (destruct (of_category "header" elements) as [|h0 hl] eqn:Eh;
         [exfalso; by apply of_category_nil_iff in Eh |]);
    rewrite <- ?app_assoc; reflexivity.
Qed.

End LayoutFacts.

End GroupFacts.

(** ** The crawler: what an extracted element looks like *)

Module CrawlerMoreFacts.
Import Crawler Generator Spec Samples SpecMore CrawlerFacts CleanTextFacts PyStr
  PyStrFacts.

Lemma elem_of_extract_elements (page : Page) (e : Element) :
  e ∈ _extract_elements page <->
  exists rule handles h,
    rule ∈ selectors /\
    query_selector_all page rule.1 = Returns handles /\
    h ∈ take 10 handles /\
    _extract_element_data h rule.2 = Some e.
Proof.
  unfold _extract_elements. rewrite foldl_selector_step, app_nil_l.
  rewrite list_elem_of_In, in_concat. split.
  - intros (l & Hl & He). apply in_map_iff in Hl as (rule & <- & Hrule).
    unfold rule_contribution in He.
    destruct (query_selector_all page rule.1) as [hs | e0] eqn:Hq; [|done].
    apply list_elem_of_In, list_elem_of_omap in He as (h & Hh & He).
    exists rule, hs, h. by rewrite list_elem_of_In.
  - intros (rule & hs & h & Hrule & Hq & Hh & He).
    exists (rule_contribution page rule). split.
    + apply in_map. by apply list_elem_of_In.
    + apply list_elem_of_In. unfold rule_contribution. rewrite Hq.
      apply list_elem_of_omap. by exists h.
Qed.

Lemma length_substring0 (n : nat) (s : string) :
  String.length (JsStr.substring0 n s) <= n.
Proof.
  unfold JsStr.substring0. revert s.
  induction n as [|n IH]; intros [|c s]; simpl; try lia.
  specialize (IH s). lia.
Qed.

Lemma substring0_first_ok (ws : ascii -> bool) (n : nat) (s : string) :
  first_ok ws s = true -> first_ok ws (JsStr.substring0 n s) = true.
Proof. destruct n, s; done. Qed.

Lemma lower_char_idemp (c : ascii) :
  JsStr.lower_char (JsStr.lower_char c) = JsStr.lower_char c.
Proof. destruct c as [[] [] [] [] [] [] [] []]; reflexivity. Qed.

Lemma toLowerCase_idemp (s : string) :
  JsStr.toLowerCase (JsStr.toLowerCase s) = JsStr.toLowerCase s.
Proof.
  induction s as [|c s IH]; simpl; [done |].
  by rewrite lower_char_idemp, IH.
Qed.

(** X12: every element of an extraction has a text of 1 to 100 characters
    that does not start with whitespace, a tag in lower case, and one of
    the seven categories. *)
Theorem extracted_element_shape (page : Page) (e : Element) :
  e ∈ _extract_elements page ->
  1 <= String.length (text e) <= 100 /\
  first_ok JsStr.is_js_space (text e) = true /\
  JsStr.toLowerCase (tag e) = tag e /\
  category e ∈ ["navigation"; "header"; "button"; "link"; "image"; "form";
                "content"].
Proof.
  intros (rule & hs & h & Hrule & _ & _ & He)%elem_of_extract_elements.
  apply extract_element_data_Some in He as (el & _ & _ & Ht & ->).
  cbn [text tag category]. unfold snapshot in *. cbn [data_text data_tag] in *.
  split; [split |].
  - destruct (JsStr.substring0 100 _); [discriminate | simpl; lia].
  - apply length_substring0.
  - split; [|split].
    + apply substring0_first_ok. unfold JsStr.trim.
      apply rstrip_first_ok, lstrip_first_ok.
    + apply toLowerCase_idemp.
    + apply (list_elem_of_fmap_2 snd) in Hrule. exact Hrule.
Qed.

Lemma extracted_element_shape_witness :
  exists e,
    e ∈ _extract_elements page_hello /\
    1 <= String.length (text e) <= 100 /\
    first_ok JsStr.is_js_space (text e) = true /\
    JsStr.toLowerCase (tag e) = tag e /\
    category e ∈ ["navigation"; "header"; "button"; "link"; "image"; "form";
                  "content"].
Proof.
  eexists. split; [|apply (extracted_element_shape page_hello)];
    vm_compute; apply list_elem_of_here.
Defined.


(** *** The caps *)

Lemma rule_contribution_length (page : Page) (rule : string * string) :
  length (rule_contribution page rule) <= 10.
Proof.
  unfold rule_contribution.
  destruct (query_selector_all page rule.1) as [hs | e0]; simpl; [|lia].
  etransitivity; [apply omap_length_le |]. rewrite length_take. lia.
Qed.

Lemma rule_contribution_category (page : Page) (rule : string * string)
    (c : string) :
  length (of_category c (rule_contribution page rule))
  <= if decide (c = rule.2) then 10 else 0.
Proof.
  destruct (decide (c = rule.2)) as [-> | Hne].
  - etransitivity; [apply length_filter | apply rule_contribution_length].
  - unfold of_category.
    destruct (filter (fun e => category e = c) (rule_contribution page rule))
      as [|e l] eqn:Hf; [done |].
    exfalso. apply Hne.
    assert (e ∈ filter (fun e => category e = c)
                       (rule_contribution page rule)) as He
      by (rewrite Hf; apply list_elem_of_here).
    apply list_elem_of_filter in He as [<- He].
    unfold rule_contribution in He.
    destruct (query_selector_all page rule.1) as [hs | e0];
      [|by apply elem_of_nil in He].
    apply list_elem_of_omap in He as (h & _ & He).
    by apply extract_element_data_Some in He as (el & _ & _ & _ & ->).
Qed.

(** X13: an extraction has at most 10 elements of any one category and at
    most 70 elements in all. *)
Theorem extract_elements_caps (page : Page) :
  (forall c, length (of_category c (_extract_elements page)) <= 10) /\
  length (_extract_elements page) <= 70.
Proof.
  unfold _extract_elements. rewrite foldl_selector_step, app_nil_l. split.
  - intros c.
    assert (forall rules,
              length (of_category c
                        (concat (map (rule_contribution page) rules)))
              <= sum_list_with
                   (fun r : string * string =>
                      if decide (c = r.2) then 10 else 0) rules) as Hsum.
    { induction rules as [|r rules IH]; [done |]. cbn [map concat].
      unfold of_category in *. rewrite filter_app, length_app.
      pose proof (rule_contribution_category page r c) as Hr.
      unfold of_category in Hr. cbn [sum_list_with].
      by apply Nat.add_le_mono. }
    etransitivity; [apply Hsum |].
    unfold selectors. cbn [sum_list_with snd].
    repeat match goal with
           | |- context [decide (c = ?k)] => destruct (decide (c = k))
           end; try congruence; simpl; lia.
  - assert (forall rules,
              length (concat (map (rule_contribution page) rules))
              <= 10 * length rules) as Hsum.
    { induction rules as [|r rules IH]; [done |]. cbn [map concat].
      rewrite length_app. pose proof (rule_contribution_length page r).
      simpl length. lia. }
    etransitivity; [apply Hsum |]. reflexivity.
Qed.

(** *** The attributes mapping *)

Lemma snapshot_attrs_snoc (l : list (string * string)) (a : string * string) :
  snapshot_attrs (l ++ [a])
  = if bool_decide (a.1 = "__proto__") then snapshot_attrs l
    else <[a.1 := a.2]> (snapshot_attrs l).
Proof. unfold snapshot_attrs. by rewrite foldl_app. Qed.

(** X14: the attributes mapping has as its keys the attribute names of
    the node other than [__proto__], a name under which the in-page
    function can store nothing; an attribute set twice keeps the later
    value, and with distinct names (as in a DOM) each such name is mapped
    to its value. *)
Theorem snapshot_attrs_lookup (l : list (string * string)) :
  dom (snapshot_attrs l)
  = list_to_set (filter (fun k => k <> "__proto__") (map fst l)) /\
  snapshot_attrs l !! "__proto__" = None /\
  (forall k v, k <> "__proto__" ->
     snapshot_attrs (l ++ [(k, v)]) !! k = Some v) /\
  (NoDup (map fst l) ->
   forall k v, k <> "__proto__" ->
     ((k, v) ∈ l <-> snapshot_attrs l !! k = Some v)).
Proof.
  assert (dom (snapshot_attrs l)
          = list_to_set (filter (fun k => k <> "__proto__") (map fst l)))
    as Hdom.
  { induction l as [|a l IH] using rev_ind.
    - change (snapshot_attrs []) with (∅ : gmap string string).
      by rewrite dom_empty_L.
    - rewrite snapshot_attrs_snoc, map_app, filter_app, list_to_set_app_L.
      cbn [map]. case_bool_decide as Ha.
      + rewrite filter_cons_False by (intros Hne; by apply Hne).
        rewrite filter_nil. cbn [list_to_set].
        by rewrite union_empty_r_L.
      + rewrite filter_cons_True by done. rewrite filter_nil.
        cbn [list_to_set]. rewrite dom_insert_L, IH, union_empty_r_L.
        apply union_comm_L. }
  split; [exact Hdom |]. split; [|split].
  - apply not_elem_of_dom. rewrite Hdom, elem_of_list_to_set.
    intros [Hne _]%list_elem_of_filter. by apply Hne.
  - intros k v Hk. rewrite snapshot_attrs_snoc. cbn [fst snd].
    rewrite bool_decide_eq_false_2 by done. apply lookup_insert_eq.
  - clear Hdom.
    induction l as [|[k0 v0] l IH] using rev_ind; intros Hnd k v Hk.
    + change (snapshot_attrs []) with (∅ : gmap string string).
      split; [by intros ?%elem_of_nil | by rewrite lookup_empty].
    + rewrite map_app in Hnd. apply NoDup_app in Hnd as (Hnd & Hdisj & _).
      rewrite snapshot_attrs_snoc, elem_of_app, list_elem_of_singleton.
      cbn [fst snd]. destruct (decide (k0 = k)) as [-> | Hne].
      * rewrite bool_decide_eq_false_2 by done.
        rewrite lookup_insert_eq. split.
        -- intros [Hin | Heq]; [|congruence].
           exfalso. apply (Hdisj k); [|apply list_elem_of_here].
           apply list_elem_of_In, in_map_iff. exists (k, v).
           split; [done | by apply list_elem_of_In].
        -- intros [= ->]. by right.
      * assert ((if bool_decide (k0 = "__proto__") then snapshot_attrs l
                 else <[k0 := v0]> (snapshot_attrs l)) !! k
                = snapshot_attrs l !! k) as ->.
        { case_bool_decide; [done |]. by rewrite lookup_insert_ne. }
        rewrite <- (IH Hnd k v Hk). split.
        -- intros [Hin | Heq]; [done | congruence].
        -- by left.
Qed.

(** An attribute named [__proto__] leaves no trace in the mapping. *)
Example snapshot_attrs_proto :
  snapshot_attrs [("id", "a"); ("__proto__", "x")] = {[ "id" := "a" ]}.
Proof. reflexivity. Qed.


(** *** Pages opened and closed *)

(** X15: [crawl] touches the pages only through its own page: without a
    browser, or when opening the page fails, the count of pages is what it
    was; once the page is opened, exactly one page more is open, and it is
    closed exactly when [crawl] returns a result (a failure after the page
    was opened leaves it open). *)
Theorem crawl_page_accounting (self : WebCrawler) (url : string) (s : Tabs) :
  (browser self = None -> (crawl self url s).2 = s) /\
  (forall b e, browser self = Some b -> new_page b = Raises e ->
               (crawl self url s).2 = s) /\
  (forall b page, browser self = Some b -> new_page b = Returns page ->
     opened (crawl self url s).2 = S (opened s) /\
     closed (crawl self url s).2
     = match (crawl self url s).1 with
       | Returns _ => S (closed s)
       | Raises _ => closed s
       end).
Proof.
  split; [|split].
  - intros Hnone. unfold crawl. by rewrite Hnone.
  - intros b e Hb Hnp. unfold crawl, try_except, bind, await_new_page, raise.
    rewrite Hb, Hnp. by destruct (is_exception e).
  - intros b0 page0 Hb0 Hnp0.
    crawl_run self url; simpl; try (split; reflexivity); congruence.
Qed.

End CrawlerMoreFacts.

(** ** Saving: names of component files, failures, repeated saves *)

Module UtilsMoreFacts.
Import Utils UtilsMore Spec Samples SamplesMore SpecMore UtilsFacts PyStr
  PyStrFacts ReSem ReFacts.

(** *** The name of a component file *)

Lemma rfind_char_app (c : ascii) (s1 s2 : string) (i : nat) :
  rfind_char c s2 = Some i ->
  rfind_char c (s1 +:+ s2) = Some (String.length s1 + i).
Proof.
  intros H2. induction s1 as [|a s1 IH]; [done |].
  change (String a s1 +:+ s2) with (String a (s1 +:+ s2)).
  cbn [rfind_char]. by rewrite IH.
Qed.

Lemma slice_to_app (s1 s2 : string) :
  slice_to (String.length s1) (s1 +:+ s2) = s1.
Proof.
  unfold slice_to. induction s1 as [|a s1 IH]; simpl.
  - by destruct s2.
  - by rewrite IH.
Qed.

Lemma slice_from_app (s1 s2 : string) :
  slice_from (String.length s1) (s1 +:+ s2) = s2.
Proof. induction s1 as [|a s1 IH]; simpl; [by destruct s2 | done]. Qed.

Lemma name_snoc (dir : list string) (n : string) : name (dir ++ [n]) = n.
Proof. unfold name. by rewrite last_snoc. Qed.

(** The stem and the suffix of [<component_name>.jsx]. *)
Lemma stem_suffix_jsx (dir : list string) (cn : string) :
  cn <> "" ->
  stem (dir ++ [jsx_filename cn]) = cn /\
  suffix (dir ++ [jsx_filename cn]) = ".jsx".
Proof.
  intros Hne. unfold stem, suffix, jsx_filename. rewrite name_snoc.
  rewrite (rfind_char_app "." cn ".jsx" 0) by reflexivity.
  rewrite Nat.add_0_r, length_append.
  assert ((0 <? String.length cn) = true) as ->
    by (apply Nat.ltb_lt; destruct cn; [done | simpl; lia]).
  assert ((String.length cn <? String.length cn + String.length ".jsx" - 1)
          = true) as -> by (apply Nat.ltb_lt; simpl; lia).
  cbn [andb]. by rewrite slice_to_app, slice_from_app.
Qed.

(** *** What a returned save has done *)

Lemma save_file_returns_inv (fs fs' : gmap (list string) node)
    (content : string) (path p' : list string) :
  save_file fs content path = Some (Returns p', fs') ->
  exists u fs1,
    mkdir_parents fs (rev (parent path)) = (Returns u, fs1) /\
    fs' = <[p' := File content]> fs1 /\
    path_exists fs1 p' = false /\
    is_dir fs1 (parent path) = true /\
    ((path_exists fs1 path = false /\ p' = path) \/
     (path_exists fs1 path = true /\
      exists k, 1 <= k /\ p' = numbered path (stem path) (suffix path) k /\
        forall j, 1 <= j < k ->
          path_exists fs1 (numbered path (stem path) (suffix path) j)
          = true)).
Proof.
  intros Hsave.
  destruct (mkdir_parents fs (rev (parent path))) as [[u|e] fs1] eqn:Hmk.
  2: { unfold save_file in Hsave. rewrite Hmk in Hsave. discriminate. }
  destruct (save_file_after_mkdir fs fs1 content path u Hmk)
    as (p0 & Hsave0 & Hfree & Hwhich).
  rewrite Hsave0 in Hsave. injection Hsave as -> <-.
  exists u, fs1. repeat split; try done.
  apply mkdir_parents_adds in Hmk as [_ Hdir].
  specialize (Hdir u eq_refl). by rewrite rev_involutive in Hdir.
Qed.

Lemma save_file_raises_inv (fs fs' : gmap (list string) node)
    (content : string) (path : list string) (e : exception) :
  save_file fs content path = Some (Raises e, fs') ->
  mkdir_parents fs (rev (parent path)) = (Raises e, fs').
Proof.
  intros Hsave.
  destruct (mkdir_parents fs (rev (parent path))) as [[u|e0] fs1] eqn:Hmk.
  - destruct (save_file_after_mkdir fs fs1 content path u Hmk)
      as (p0 & Hsave0 & _).
    rewrite Hsave0 in Hsave. discriminate.
  - unfold save_file in Hsave. rewrite Hmk in Hsave. congruence.
Qed.

(** X16, on components: a file [<name>.jsx] saved in the directory [dir]
    lands there under that name or under [<name>_<k>.jsx]. *)
Lemma save_numbered_component (fs : gmap (list string) node)
    (content : string) (dir : list string) (cn : string)
    (p' : list string) :
  cn <> "" ->
  fst <$> save_file fs content (dir ++ [jsx_filename cn])
  = Some (Returns p') ->
  p' = dir ++ [cn +:+ ".jsx"] \/
  exists k, 1 <= k /\ p' = dir ++ [cn +:+ "_" +:+ pretty k +:+ ".jsx"].
Proof.
  intros Hne Hsave.
  destruct (save_file fs content (dir ++ [jsx_filename cn]))
    as [[r fs']|] eqn:Hs; [|discriminate].
  injection Hsave as ->.
  apply save_file_returns_inv in Hs
    as (u & fs1 & _ & _ & _ & _ & Hwhich).
  destruct (stem_suffix_jsx dir cn Hne) as [Hstem Hsuffix].
  destruct Hwhich as [[_ ->] | [_ (k & Hk & -> & _)]]; [by left |].
  right. exists k. split; [done |].
  unfold numbered. rewrite Hstem, Hsuffix. unfold parent.
  by rewrite removelast_last.
Qed.

(** *** From the file name to the components of the path *)

Lemma split_at_nonempty (sep : ascii) (s : string) : split_at sep s <> [].
Proof.
  destruct s as [|a s]; [done |]. cbn [split_at].
  case_bool_decide; [done |]. by destruct (split_at sep s).
Qed.

Lemma split_at_app (sep : ascii) (s1 s2 : string) :
  split_at sep (s1 +:+ String sep s2) = split_at sep s1 ++ split_at sep s2.
Proof.
  induction s1 as [|a s1 IH].
  - change ("" +:+ String sep s2) with (String sep s2). cbn [split_at].
    by rewrite bool_decide_eq_true_2.
  - change (String a s1 +:+ String sep s2)
      with (String a (s1 +:+ String sep s2)).
    cbn [split_at]. rewrite IH. case_bool_decide; [done |].
    pose proof (split_at_nonempty sep s1) as Hne.
    by destruct (split_at sep s1).
Qed.

Lemma split_at_slash_free (s : string) :
  slash_free s = true -> split_at "/" s = [s].
Proof.
  unfold slash_free. induction s as [|a s IH]; [done |].
  cbn [string_forall split_at]. intros [Ha Hs]%andb_prop.
  apply negb_true_iff in Ha. rewrite Ha. by rewrite (IH Hs).
Qed.

Lemma path_parts_app (s1 s2 : string) :
  path_parts (s1 +:+ String "/" s2) = path_parts s1 ++ path_parts s2.
Proof. unfold path_parts. by rewrite split_at_app, filter_app. Qed.

Lemma path_parts_component (f : string) :
  slash_free f = true -> f <> "" -> f <> "." -> path_parts f = [f].
Proof.
  intros Hf Hne Hdot. unfold path_parts. rewrite (split_at_slash_free f Hf).
  by rewrite filter_cons_True, filter_nil.
Qed.

Lemma ends_with_inv (c : ascii) (s : string) :
  ends_with c s = true -> exists d, s = d +:+ String c "".
Proof.
  induction s as [|a s IH]; [done |]. cbn [ends_with].
  destruct s as [|b s].
  - intros ->%bool_decide_eq_true. by exists "".
  - intros [d Hd]%IH. exists (String a d). by rewrite Hd.
Qed.

Lemma slash_free_not_absolute (f : string) :
  slash_free f = true -> startswith "/" f = false.
Proof.
  destruct f as [|a f]; [done |]. unfold slash_free. cbn [string_forall].
  intros [Ha _]%andb_prop. apply negb_true_iff, bool_decide_eq_false in Ha.
  cbn [startswith]. by rewrite decide_False by (intros <-; by apply Ha).
Qed.

(** The components of a joined path are those of the directory, then the
    file name. *)
Lemma path_parts_join (dir f : string) :
  slash_free f = true -> f <> "" -> f <> "." ->
  path_parts (os_path_join dir f) = path_parts dir ++ [f].
Proof.
  intros Hf Hne Hdot. unfold os_path_join.
  rewrite (slash_free_not_absolute f Hf).
  destruct dir as [|a dir].
  - cbn [truthy negb orb]. change ("" +:+ f) with f.
    by rewrite path_parts_component.
  - cbn [truthy negb orb].
    destruct (ends_with "/" (String a dir)) eqn:He.
    + apply ends_with_inv in He as [d ->].
      rewrite append_assoc.
      change (String "/" "" +:+ f) with (String "/" f).
      rewrite !path_parts_app, (path_parts_component f) by done.
      change (path_parts "") with (@nil string). by rewrite app_nil_r.
    + change ("/" +:+ f) with (String "/" f).
      by rewrite path_parts_app, (path_parts_component f).
Qed.

Lemma slash_free_jsx (cn : string) :
  slash_free cn = true -> slash_free (jsx_filename cn) = true.
Proof.
  intros H. unfold slash_free, jsx_filename in *.
  by rewrite string_forall_app, H.
Qed.

Lemma jsx_filename_not_dot (cn : string) :
  jsx_filename cn <> "" /\ jsx_filename cn <> ".".
Proof.
  unfold jsx_filename. split; intros H;
    apply (f_equal String.length) in H; rewrite length_append in H;
    simpl in H; lia.
Qed.

(** X16: for a component name that is not empty and has no slash, and an
    output directory given by a relative path, the file whose name
    [get_output_filename] builds is saved in that directory under
    [<name>.jsx] or, when that is taken, under [<name>_<k>.jsx] for a
    number k from 1 on. *)
Theorem save_component_file (fs : gmap (list string) node)
    (content : string) (output_dir : string) (cn : string)
    (p' : list string) :
  cn <> "" -> slash_free cn = true -> startswith "/" output_dir = false ->
  fst <$> save_file fs content
            (path_parts (get_output_filename cn output_dir))
  = Some (Returns p') ->
  p' = path_parts output_dir ++ [cn +:+ ".jsx"] \/
  exists k, 1 <= k /\
    p' = path_parts output_dir ++ [cn +:+ "_" +:+ pretty k +:+ ".jsx"].
Proof.
  intros Hne Hsf _ Hsave. unfold get_output_filename in Hsave.
  destruct (jsx_filename_not_dot cn) as [H1 H2].
  rewrite path_parts_join in Hsave by (try apply slash_free_jsx; done).
  by apply (save_numbered_component fs content _ cn).
Qed.

Lemma save_component_file_witness :
  ["generated"; "Foo_1.jsx"] = path_parts "./generated" ++ ["Foo" +:+ ".jsx"] \/
  exists k, 1 <= k /\
    ["generated"; "Foo_1.jsx"]
    = path_parts "./generated" ++ ["Foo" +:+ "_" +:+ pretty k +:+ ".jsx"].
Proof.
  apply (save_component_file fs_foo "new" "./generated" "Foo"
           ["generated"; "Foo_1.jsx"]).
  - discriminate.
  - reflexivity.
  - reflexivity.
  - vm_compute. reflexivity.
Defined.

(** A component name with a slash is split into directories: the file is
    not named after the component. *)
Example component_name_with_slash :
  path_parts (get_output_filename "a/b" "./generated")
  = ["generated"; "a"; "b.jsx"] /\
  path_parts (get_output_filename "a/" "generated/")
  = ["generated"; "a"; ".jsx"].
Proof. split; vm_compute; reflexivity. Qed.


(** *** Failures *)

(** X17: when the parent directories of the path cannot be created,
    [save_file] raises the error of [mkdir] before it opens a file: no
    file was written or changed, the file system still has all its entries
    and every regular file in it was there before, with the same content
    (only parent directories may have been created). It is so, with the
    file system left as it was, when the parent of the path is a regular
    file. *)
Theorem save_file_failure_writes_nothing (fs : gmap (list string) node)
    (content : string) (path : list string) :
  (forall e fs',
     mkdir_parents fs (rev (parent path)) = (Raises e, fs') ->
     save_file fs content path = Some (Raises e, fs') /\
     fs ⊆ fs' /\
     forall q c, fs' !! q = Some (File c) -> fs !! q = Some (File c)) /\
  (forall c0,
     parent path <> [] -> fs !! parent path = Some (File c0) ->
     exists e,
       mkdir_parents fs (rev (parent path)) = (Raises e, fs) /\
       save_file fs content path = Some (Raises e, fs)).
Proof.
  split.
  - intros e fs' Hmk. split; [unfold save_file; by rewrite Hmk |].
    apply mkdir_parents_adds in Hmk as [[Hsub Hnew] _].
    split; [done |]. intros q c Hq.
    destruct (fs !! q) as [x|] eqn:Hfs.
    + rewrite (lookup_weaken _ _ _ _ Hfs Hsub) in Hq. congruence.
    + destruct (Hnew q Hfs (mk_is_Some _ _ Hq)) as [Hd _]. congruence.
  - intros c0 Hne Hfile. exists FileExistsError.
    assert (mkdir_parents fs (rev (parent path)) = (Raises FileExistsError, fs))
      as Hmk.
    { rewrite mkdir_parents_unfold, rev_involutive.
      unfold os_mkdir.
      assert (path_exists fs (parent path) = true) as ->.
      { apply path_exists_true. right. by rewrite Hfile. }
      cbn [is_FileNotFoundError FileExistsError exc_cls].
      rewrite bool_decide_eq_false_2 by discriminate.
      unfold is_dir. destruct (parent path); [done |]. by rewrite Hfile. }
    split; [exact Hmk |]. unfold save_file. by rewrite Hmk.
Qed.

(** With [generated] a regular file nothing can be saved below it. *)
Example save_file_blocked :
  fst <$> save_file fs_blocked "new" ["generated"; "Foo.jsx"]
  = Some (Raises FileExistsError).
Proof. vm_compute. reflexivity. Qed.

(** *** Saving twice *)




End UtilsMoreFacts.
